(** * The booking loop of [src/src/web_scraper.py], embedded in Rocq

    The development follows the class [WebScraper]: the retrying loop
    [book_tickets] and every method it reaches.  The browser, the LLM agent
    and the random number generator are the environment: each call to them
    is answered by an oracle over an abstract world, and every call, raised
    exception, sleep and log line is appended to a trace.

    Conventions.
    - Python [str] is [string] (ASCII text); [int] is [Z]; [float] is the
      rational it denotes, kept in lowest terms ([Q] after [Qred]).
    - A [dict] is an association list in insertion order, as Python keeps it.
    - Exceptions are the subclasses of [Exception]; [str(e)] is [exn_msg].
      Process interrupts ([BaseException] outside [Exception]) are not
      modelled: no handler of the module catches them. *)

From Stdlib Require Import ZArith List String Ascii QArith Lia Bool DecimalString.
Import ListNotations.

Open Scope string_scope.
Open Scope Z_scope.

(** ** Python strings *)

Module PyStr.

Definition is_upper (c : ascii) : bool :=
  let n := nat_of_ascii c in (Nat.leb 65 n && Nat.leb n 90)%bool.

Definition is_lower (c : ascii) : bool :=
  let n := nat_of_ascii c in (Nat.leb 97 n && Nat.leb n 122)%bool.

Definition lower_ascii (c : ascii) : ascii :=
  if is_upper c then ascii_of_nat (nat_of_ascii c + 32) else c.

Definition upper_ascii (c : ascii) : ascii :=
  if is_lower c then ascii_of_nat (nat_of_ascii c - 32) else c.

(** [s.lower()] *)
Fixpoint lower (s : string) : string :=
  match s with
  | EmptyString => EmptyString
  | String c s' => String (lower_ascii c) (lower s')
  end.

(** [needle in hay] on two strings *)
Fixpoint contains (needle hay : string) : bool :=
  if prefix needle hay then true
  else match hay with
       | EmptyString => false
       | String _ hay' => contains needle hay'
       end.

(** [any(k in s for k in keywords)] *)
Definition any_in (keywords : list string) (s : string) : bool :=
  existsb (fun k => contains k s) keywords.

(** [str(n)] for an [int] *)
Definition str_of_Z (n : Z) : string := NilZero.string_of_int (Z.to_int n).

(** truth value of a string: non-empty *)
Definition truthy (s : string) : bool :=
  match s with EmptyString => false | _ => true end.

End PyStr.

(** ** Python values and dicts *)

(** A [dict] with string keys, in insertion order. *)
Definition dict (V : Type) : Type := list (string * V).

Module Dict.
Section Ops.
Context {V : Type}.

(** [d.get(k)] *)
Fixpoint get (k : string) (d : dict V) : option V :=
  match d with
  | [] => None
  | (k', v) :: d' => if String.eqb k k' then Some v else get k d'
  end.

(** [d.get(k, default)] *)
Definition get_default (k : string) (default : V) (d : dict V) : V :=
  match get k d with Some v => v | None => default end.

(** [d[k] = v]: an existing key keeps its position, a new one goes last *)
Fixpoint set (k : string) (v : V) (d : dict V) : dict V :=
  match d with
  | [] => [(k, v)]
  | (k', v') :: d' =>
      if String.eqb k k' then (k', v) :: d' else (k', v') :: set k v d'
  end.

(** [k in d] *)
Definition mem (k : string) (d : dict V) : bool :=
  match get k d with Some _ => true | None => false end.

(** [d.keys()] *)
Definition keys (d : dict V) : list string := map fst d.
End Ops.
End Dict.

(** Values of type [Any]: what [json.loads] returns, and what the
    confirmation dict holds. *)
#[warnings="-register-all"]
Inductive pyval : Type :=
| PNone
| PBool (b : bool)
| PInt (n : Z)
| PFloat (q : Q)
| PStr (s : string)
| PList (l : list pyval)
| PDict (d : list (string * pyval)).

(** ** Exceptions *)

Inductive exn_class : Type :=
| TimeoutException
| NoSuchElementException
| ElementClickInterceptedException
| ElementNotInteractableException
| StaleElementReferenceException
| OtherException.   (* every other subclass of Exception *)

Record exn : Type := Exn { exn_cls : exn_class; exn_msg : string }.

Definition exn_class_eqb (a b : exn_class) : bool :=
  match a, b with
  | TimeoutException, TimeoutException
  | NoSuchElementException, NoSuchElementException
  | ElementClickInterceptedException, ElementClickInterceptedException
  | ElementNotInteractableException, ElementNotInteractableException
  | StaleElementReferenceException, StaleElementReferenceException
  | OtherException, OtherException => true
  | _, _ => false
  end.

(** [except C:] catches the exceptions whose class is [C] *)
Definition is_a (c : exn_class) (e : exn) : bool := exn_class_eqb (exn_cls e) c.

(** [except Exception:] and the bare [except:] catch all of them *)
Definition any_exception (e : exn) : bool := true.

(** ** Calls to the environment *)

Inductive by_ : Type := CSS_SELECTOR | TAG_NAME.

(** A handle on a live page element. *)
Definition element : Type := nat.

Inductive call : Type -> Type :=
(* self.driver *)
| DriverGet (url : string) : call unit
| DriverPageSource : call string
| DriverExecuteScript (script : string) (args : list element) : call unit
| DriverFindElements (how : by_) (value : string) : call (list element)
| DriverFindElement (how : by_) (value : string) : call element
(* WebDriverWait(...).until(...) *)
| WaitUntilReady (timeout : Z) : call unit
| WaitUntilClickable (how : by_) (value : string) : call element
(* a WebElement *)
| ElemFindElements (e : element) (how : by_) (value : string) : call (list element)
| ElemGetAttribute (e : element) (name : string) : call (option string)
| ElemClick (e : element) : call unit
| ElemClear (e : element) : call unit
| ElemSendKeys (e : element) (v : pyval) : call unit
| ElemScreenshot (e : element) (path : string) : call unit
(* selenium's Select *)
| SelectNew (e : element) : call unit
| SelectByValue (e : element) (v : pyval) : call unit
| SelectByVisibleText (e : element) (v : pyval) : call unit
(* self.llm_agent *)
| LlmAnalyzeWebpage (html url task : string) : call pyval
| LlmGenerateFormData (fields : list string) (user_info : dict string)
    (ticket_count : Z) : call pyval
| LlmSolveCaptcha (path : string) : call string.

Inductive log_level : Type := INFO | WARNING | ERROR.

Inductive event : Type :=
| EvCall {A : Type} (c : call A)
| EvRaise (e : exn)
| EvSleep (seconds : Q)
| EvLog (lvl : log_level) (msg : string).

(** The environment of a scraper over a world [W]: the answer to every
    call, [random.uniform], and [BeautifulSoup(markup, 'html.parser')]
    followed by [get_text()]: the text of the markup, or the exception the
    parser raises on markup it refuses. *)
Record environment (W : Type) : Type := Environment {
  oracle : forall A : Type, call A -> W -> (exn + A) * W;
  uniform : Q -> Q -> W -> Q * W;
  soup_get_text : string -> exn + string
}.
Arguments oracle {W} _ {A} _ _.
Arguments uniform {W} _ _ _ _.
Arguments soup_get_text {W} _ _.

(** The world together with what has happened so far. *)
Record state (W : Type) : Type := State { world : W; trace : list event }.
Arguments State {W} _ _.
Arguments world {W} _.
Arguments trace {W} _.

(** ** The monad of the scraper's methods

    A method runs on a state and returns a value or the exception it
    raised, with the state it left behind. *)

Definition M (W A : Type) : Type := state W -> (exn + A) * state W.

Section Monad.
Context {W : Type}.

Definition ret {A} (a : A) : M W A := fun s => (inr a, s).

Definition bind {A B} (m : M W A) (f : A -> M W B) : M W B :=
  fun s => match m s with
           | (inr a, s') => f a s'
           | (inl e, s') => (inl e, s')
           end.

Definition emit (ev : event) : M W unit :=
  fun s => (inr tt, State (world s) (trace s ++ [ev])).

(** [raise e] *)
Definition raise {A} (e : exn) : M W A :=
  fun s => (inl e, State (world s) (trace s ++ [EvRaise e])).

(** [try: m  except <catches>: h] ; an exception that is not caught
    goes on to the caller *)
Definition try_except {A} (m : M W A) (catches : exn -> bool)
    (h : exn -> M W A) : M W A :=
  fun s => match m s with
           | (inr a, s') => (inr a, s')
           | (inl e, s') => if catches e then h e s' else (inl e, s')
           end.

Definition log (lvl : log_level) (msg : string) : M W unit :=
  emit (EvLog lvl msg).

(** [time.sleep(seconds)] *)
Definition sleep (seconds : Q) : M W unit := emit (EvSleep seconds).

Section WithEnv.
Variable env : environment W.

(** one call to the browser or to the LLM agent *)
Definition perform {A} (c : call A) : M W A :=
  fun s =>
    let '(r, w') := oracle env c (world s) in
    match r with
    | inr a => (inr a, State w' (trace s ++ [EvCall c]))
    | inl e => (inl e, State w' (trace s ++ [EvCall c; EvRaise e]))
    end.

(** [random.uniform(a, b)] *)
Definition random_uniform (a b : Q) : M W Q :=
  fun s => let '(q, w') := uniform env a b (world s) in
           (inr q, State w' (trace s)).
End WithEnv.
End Monad.

Declare Scope py_scope.
Delimit Scope py_scope with py.
Notation "x <- m ;; k" := (bind m (fun x => k))
  (at level 61, m at next level, right associativity) : py_scope.
Notation "m ;;; k" := (bind m (fun _ => k))
  (at level 61, right associativity) : py_scope.
Open Scope py_scope.

(** ** Records of the module *)

(** [class BookingResult] *)
Record BookingResult : Type := mkBookingResult {
  success : bool;
  tickets_booked : Z;
  confirmation_number : pyval;
  error_message : string;
  booking_details : option (dict pyval);
  total_cost : pyval
}.

(** [BookingResult(success=False, tickets_booked=0, error_message=msg)] *)
Definition failed_result (msg : string) : BookingResult :=
  mkBookingResult false 0 (PStr "") msg None (PFloat 0).

(** What [__init__] reads from the config and keeps unchanged. *)
Record settings : Type := Settings {
  max_retries : Z;        (* config.get('max_attempts', 20) *)
  timeout : Z;            (* config.get('browser_timeout', 30) *)
  llm_agent : bool        (* whether an agent was given *)
}.

(** One entry of the dict built by [_extract_form_fields]. *)
Inductive field_info : Type :=
| InputField (type : option string) (elem : element) (required : bool)
| SelectField (elem : element) (options : list (option string)).

(** [field_info["type"]] *)
Definition field_type (f : field_info) : option string :=
  match f with
  | InputField t _ _ => t
  | SelectField _ _ => Some "select"
  end.

(** [field_info["type"] == "select"] *)
Definition is_select (f : field_info) : bool :=
  match field_type f with
  | Some t => String.eqb t "select"
  | None => false
  end.

(** [field_info["element"]] *)
Definition field_element (f : field_info) : element :=
  match f with
  | InputField _ e _ => e
  | SelectField e _ => e
  end.

(** ** [_fallback_form_data] *)

Definition fallback_value (user_info : dict string) (ticket_count : Z)
    (field_name : string) : string :=
  let field_lower := PyStr.lower field_name in
  if PyStr.any_in ["name"; "first"; "last"] field_lower then
    Dict.get_default "name" "John Doe" user_info
  else if PyStr.contains "email" field_lower then
    Dict.get_default "email" "user@example.com" user_info
  else if PyStr.contains "phone" field_lower then
    Dict.get_default "phone" "+1234567890" user_info
  else if PyStr.any_in ["quantity"; "ticket"; "count"] field_lower then
    PyStr.str_of_Z ticket_count
  else if PyStr.contains "address" field_lower then
    Dict.get_default "address" "123 Main St" user_info
  else "".

Definition _fallback_form_data (form_data : dict field_info)
    (user_info : dict string) (ticket_count : Z) : dict string :=
  fold_left
    (fun data field_name =>
       Dict.set field_name (fallback_value user_info ticket_count field_name) data)
    (Dict.keys form_data) [].

(** ** Python operations on [Any] values

    These are the operations [_navigate_to_booking_page] and
    [_fill_booking_form] apply to what the LLM agent returned; on a value of
    the wrong type Python raises [TypeError] or [AttributeError]. *)

Module PyVal.

(** truth value *)
Definition truthy (v : pyval) : bool :=
  match v with
  | PNone => false
  | PBool b => b
  | PInt n => negb (n =? 0)
  | PFloat q => negb (Qeq_bool q 0)
  | PStr s => PyStr.truthy s
  | PList l => match l with [] => false | _ => true end
  | PDict d => match d with [] => false | _ => true end
  end.

Definition type_error (msg : string) : exn := Exn OtherException ("TypeError: " ++ msg).
Definition attribute_error (msg : string) : exn :=
  Exn OtherException ("AttributeError: " ++ msg).

(** [k in v] for a string [k] *)
Definition contains_str (k : string) (v : pyval) : exn + bool :=
  match v with
  | PDict d => inr (Dict.mem k d)
  | PList l =>
      inr (existsb (fun x => match x with PStr s => String.eqb s k | _ => false end) l)
  | PStr s => inr (PyStr.contains k s)
  | _ => inl (type_error "argument is not iterable")
  end.

(** [v[k]] for a string [k] *)
Definition getitem_str (k : string) (v : pyval) : exn + pyval :=
  match v with
  | PDict d => match Dict.get k d with
               | Some x => inr x
               | None => inl (Exn OtherException ("KeyError: " ++ k))
               end
  | PList _ => inl (type_error "list indices must be integers or slices, not str")
  | PStr _ => inl (type_error "string indices must be integers, not 'str'")
  | _ => inl (type_error "object is not subscriptable")
  end.

(** the items a [for] loop over [v] visits *)
Definition iterate (v : pyval) : exn + list pyval :=
  match v with
  | PList l => inr l
  | PDict d => inr (map (fun kv => PStr (fst kv)) d)
  | PStr s => inr (map (fun c => PStr (String c EmptyString)) (list_ascii_of_string s))
  | _ => inl (type_error "object is not iterable")
  end.

(** [v.lower()] *)
Definition lower (v : pyval) : exn + string :=
  match v with
  | PStr s => inr (PyStr.lower s)
  | _ => inl (attribute_error "object has no attribute 'lower'")
  end.

(** [v.get(k, default)] *)
Definition get (k : string) (default : pyval) (v : pyval) : exn + pyval :=
  match v with
  | PDict d => inr (Dict.get_default k default d)
  | _ => inl (attribute_error "object has no attribute 'get'")
  end.

End PyVal.

(** ** Regular expressions: the part of [re] the module uses

    [re.search(pattern, text, re.IGNORECASE)] as a backtracking matcher with
    Python's priorities: the leftmost start, the first alternative, and
    greedy [?] and [*]. *)

Module Re.

Inductive regex : Type :=
| Empty
| Lit (c : ascii)                         (* a literal character *)
| Space                                   (* \s *)
| Class (ranges : list (ascii * ascii))   (* [a-b...] *)
| Seq (r1 r2 : regex)
| Alt (r1 r2 : regex)                     (* r1|r2 *)
| Opt (r : regex)                         (* r? *)
| Star (r : regex)                        (* r* *)
| Group (r : regex).                      (* (r): group 1 *)

(** [r+] *)
Definition Plus (r : regex) : regex := Seq r (Star r).

(** a literal word *)
Fixpoint word (s : string) : regex :=
  match s with
  | EmptyString => Empty
  | String c EmptyString => Lit c
  | String c s' => Seq (Lit c) (word s')
  end.

(** the concatenation of a list *)
Fixpoint cat (rs : list regex) : regex :=
  match rs with
  | [] => Empty
  | [r] => r
  | r :: rs' => Seq r (cat rs')
  end.

(** a literal word followed by [r] *)
Fixpoint after_word (s : string) (r : regex) : regex :=
  match s with
  | EmptyString => r
  | String c s' => Seq (Lit c) (after_word s' r)
  end.

Definition ascii_leb (a b : ascii) : bool := Nat.leb (nat_of_ascii a) (nat_of_ascii b).

(** [\s] on ASCII text: tab to carriage return, the four separators
    0x1c-0x1f, and the space *)
Definition is_space (c : ascii) : bool :=
  let n := nat_of_ascii c in
  ((Nat.leb 9 n && Nat.leb n 13) || (Nat.leb 28 n && Nat.leb n 32))%bool.

Definition lit_matches (ignorecase : bool) (c x : ascii) : bool :=
  if ignorecase then Ascii.eqb (PyStr.lower_ascii c) (PyStr.lower_ascii x)
  else Ascii.eqb c x.

Definition in_ranges (ranges : list (ascii * ascii)) (x : ascii) : bool :=
  existsb (fun r => (ascii_leb (fst r) x && ascii_leb x (snd r))%bool) ranges.

Definition class_matches (ignorecase : bool) (ranges : list (ascii * ascii))
    (x : ascii) : bool :=
  (in_ranges ranges x
   || (ignorecase
       && (in_ranges ranges (PyStr.lower_ascii x)
           || in_ranges ranges (PyStr.upper_ascii x))))%bool.

Definition one_char (p : ascii -> bool) (s : list ascii)
    (k : list ascii -> option (option (list ascii))) : option (option (list ascii)) :=
  match s with
  | x :: s' => if p x then k s' else None
  | [] => None
  end.

(** [go ic r s g k]: match [r] at the head of [s], then go on with [k] on
    the rest; [g] is what group 1 holds so far.  The answer is [Some g'] when
    the whole match succeeds, with [g'] the final content of group 1. *)
Fixpoint go (ignorecase : bool) (r : regex) (s : list ascii)
    (g : option (list ascii))
    (k : list ascii -> option (list ascii) -> option (option (list ascii)))
    {struct r} : option (option (list ascii)) :=
  match r with
  | Empty => k s g
  | Lit c => one_char (lit_matches ignorecase c) s (fun s' => k s' g)
  | Space => one_char is_space s (fun s' => k s' g)
  | Class ranges => one_char (class_matches ignorecase ranges) s (fun s' => k s' g)
  | Seq r1 r2 => go ignorecase r1 s g (fun s' g' => go ignorecase r2 s' g' k)
  | Alt r1 r2 =>
      match go ignorecase r1 s g k with
      | Some m => Some m
      | None => go ignorecase r2 s g k
      end
  | Opt r1 =>
      match go ignorecase r1 s g k with
      | Some m => Some m
      | None => k s g
      end
  | Star r1 =>
      (fix star (n : nat) (s : list ascii) (g : option (list ascii)) {struct n} :=
         match n with
         | O => k s g
         | S n' =>
             match go ignorecase r1 s g
                     (fun s' g' =>
                        if Nat.ltb (List.length s') (List.length s) then star n' s' g'
                        else None) with
             | Some m => Some m
             | None => k s g
             end
         end) (List.length s) s g
  | Group r1 =>
      go ignorecase r1 s g
         (fun s' _ => k s' (Some (firstn (List.length s - List.length s') s)))
  end.

(** a match starting exactly at the head of [s] *)
Definition match_here (ignorecase : bool) (r : regex) (s : list ascii)
  : option (option (list ascii)) :=
  go ignorecase r s None (fun _ g => Some g).

(** the leftmost match *)
Fixpoint search_list (ignorecase : bool) (r : regex) (s : list ascii)
  : option (option (list ascii)) :=
  match match_here ignorecase r s with
  | Some g => Some g
  | None => match s with
            | [] => None
            | _ :: s' => search_list ignorecase r s'
            end
  end.

(** what [re.search] gives *)
Inductive found : Type :=
| BadPattern                        (* it raises [re.error] *)
| NoMatch                           (* it returns [None] *)
| Match (group1 : option string).   (* a match [m]; [m.group(1)], [None] when
                                       the group took no part in the match *)

(** [re.search(r, text, re.IGNORECASE)] for a pattern already read *)
Definition search_regex (r : regex) (text : string) : found :=
  match search_list true r (list_ascii_of_string text) with
  | Some g => Match (option_map string_of_list_ascii g)
  | None => NoMatch
  end.

(** *** The concrete syntax

    [compile] reads the pattern syntax the module uses: literal characters,
    [\s] and escaped punctuation, classes of ranges, groups [( )] and
    [(?: )], alternation, and the postfix [?], [*] and [+].  Anything else
    is refused ([None]). *)

Definition seq_ (r1 r2 : regex) : regex :=
  match r2 with
  | Empty => r1
  | _ => Seq r1 r2
  end.

(** the postfix operators after an atom *)
Definition postfix (a : regex) (s : list ascii) : regex * list ascii :=
  match s with
  | "?"%char :: s' => (Opt a, s')
  | "*"%char :: s' => (Star a, s')
  | "+"%char :: s' => (Plus a, s')
  | _ => (a, s)
  end.

(** the ranges of a class, up to its closing bracket *)
Fixpoint class_ranges (fuel : nat) (s : list ascii)
  : option (list (ascii * ascii) * list ascii) :=
  match fuel with
  | O => None
  | S fuel' =>
      match s with
      | "]"%char :: s' => Some ([], s')
      | a :: "-"%char :: b :: s' =>
          match class_ranges fuel' s' with
          | Some (rs, s'') => Some ((a, b) :: rs, s'')
          | None => None
          end
      | a :: s' =>
          match class_ranges fuel' s' with
          | Some (rs, s'') => Some ((a, a) :: rs, s'')
          | None => None
          end
      | [] => None
      end
  end.

Definition is_alnum (c : ascii) : bool :=
  let n := nat_of_ascii c in
  ((Nat.leb 48 n && Nat.leb n 57) || PyStr.is_upper c || PyStr.is_lower c)%bool.

(** characters with a meaning of their own, not read as literals *)
Definition is_special (c : ascii) : bool :=
  existsb (Ascii.eqb c)
    ["."; "^"; "$"; "*"; "+"; "?"; "{"; "}"; "["; "]"; "\"; "|"; "("; ")"]%char.

Fixpoint parse_alt (fuel : nat) (s : list ascii) {struct fuel}
  : option (regex * list ascii) :=
  match fuel with
  | O => None
  | S fuel' =>
      match parse_seq fuel' s with
      | Some (r1, "|"%char :: s1) =>
          match parse_alt fuel' s1 with
          | Some (r2, s2) => Some (Alt r1 r2, s2)
          | None => None
          end
      | other => other
      end
  end
with parse_seq (fuel : nat) (s : list ascii) {struct fuel}
  : option (regex * list ascii) :=
  match fuel with
  | O => None
  | S fuel' =>
      match s with
      | [] => Some (Empty, s)
      | "|"%char :: _ => Some (Empty, s)
      | ")"%char :: _ => Some (Empty, s)
      | _ =>
          match parse_atom fuel' s with
          | Some (a, s1) =>
              let '(q, s2) := postfix a s1 in
              match parse_seq fuel' s2 with
              | Some (rest, s3) => Some (seq_ q rest, s3)
              | None => None
              end
          | None => None
          end
      end
  end
with parse_atom (fuel : nat) (s : list ascii) {struct fuel}
  : option (regex * list ascii) :=
  match fuel with
  | O => None
  | S fuel' =>
      match s with
      | "("%char :: "?"%char :: ":"%char :: s1 =>
          match parse_alt fuel' s1 with
          | Some (r, ")"%char :: s2) => Some (r, s2)
          | _ => None
          end
      | "("%char :: s1 =>
          match parse_alt fuel' s1 with
          | Some (r, ")"%char :: s2) => Some (Group r, s2)
          | _ => None
          end
      | "["%char :: s1 =>
          match class_ranges (List.length s1) s1 with
          | Some (rs, s2) => Some (Class rs, s2)
          | None => None
          end
      | "\"%char :: "s"%char :: s1 => Some (Space, s1)
      | "\"%char :: c :: s1 => if is_alnum c then None else Some (Lit c, s1)
      | c :: s1 => if is_special c then None else Some (Lit c, s1)
      | [] => None
      end
  end.

(** [re.compile(pattern)]: [None] where the pattern is outside the syntax above *)
Definition compile (pattern : string) : option regex :=
  let s := list_ascii_of_string pattern in
  match parse_alt (3 * List.length s + 3) s with
  | Some (r, []) => Some r
  | _ => None
  end.

(** [re.search(pattern, text, re.IGNORECASE)] *)
Definition search (pattern text : string) : found :=
  match compile pattern with
  | Some r => search_regex r text
  | None => BadPattern
  end.

(** the loop [for pattern in patterns: match = re.search(...);
    if match: ...; break]: the first match in the order of the list *)
Fixpoint first_match (patterns : list string) (text : string) : found :=
  match patterns with
  | [] => NoMatch
  | pattern :: rest =>
      match search pattern text with
      | Match group1 => Match group1
      | NoMatch => first_match rest text
      | BadPattern => BadPattern
      end
  end.

End Re.

(** ** [float(s)] on the strings the cost patterns capture *)

Module PyFloat.

Definition digit (c : ascii) : option Z :=
  let n := nat_of_ascii c in
  if (Nat.leb 48 n && Nat.leb n 57)%bool then Some (Z.of_nat (n - 48)) else None.

(** the value of a run of digits, read after [acc] *)
Fixpoint digits (acc : Z) (s : list ascii) : option Z :=
  match s with
  | [] => Some acc
  | c :: s' => match digit c with
               | Some d => digits (10 * acc + d) s'
               | None => None
               end
  end.

(** the text before the first ["."], and the text after it if there is one *)
Fixpoint split_dot (s : list ascii) : list ascii * option (list ascii) :=
  match s with
  | [] => ([], None)
  | c :: s' =>
      if Ascii.eqb c "."%char then ([], Some s')
      else let '(a, b) := split_dot s' in (c :: a, b)
  end.

(** [float(s)] for [s] of the shape [[0-9]+\.?[0-9]*]; [None] stands for
    [ValueError].  (Python's [float] reads more shapes, none of which the
    cost patterns can capture.) *)
Definition of_string (s : string) : option Q :=
  let '(ip, fp) := split_dot (list_ascii_of_string s) in
  let fp := match fp with Some f => f | None => [] end in
  match ip with
  | [] => None
  | _ =>
      match digits 0 ip, digits 0 fp with
      | Some i, Some f =>
          let scale := Z.pow 10 (Z.of_nat (List.length fp)) in
          Some (Qred (Qmake (i * scale + f) (Z.to_pos scale)))
      | _, _ => None
      end
  end.

End PyFloat.

(** ** The methods of [WebScraper]

    A method reads [self.llm_agent], [self.timeout] and [self.max_retries]
    from [cfg] and acts on the browser through [env].  Only [book_tickets]
    writes a field of [self]; it is given its two counters explicitly. *)

Section Scraper.

Context {W : Type}.
Variable env : environment W.
Variable cfg : settings.

(** lift a pure Python operation that may raise *)
Definition lift {A} (r : exn + A) : M W A :=
  match r with
  | inr a => ret a
  | inl e => raise e
  end.

(** *** [_wait_for_page_load] (called without argument: [timeout or self.timeout]) *)
Definition _wait_for_page_load : M W unit :=
  perform env (WaitUntilReady (timeout cfg)) ;;;
  sleep (2 # 1).

(** *** [_random_delay] with its defaults 1.0 and 3.0 *)
Definition _random_delay : M W unit :=
  delay <- random_uniform env (1 # 1) (3 # 1) ;;
  sleep delay.

(** *** [_safe_click] *)
Definition max_attempts : Z := 3.

(** one round of the loop: [Some b] is [return b], [None] goes to the next round *)
Definition safe_click_round (elem : element) (attempt : Z) : M W (option bool) :=
  try_except
    (perform env (DriverExecuteScript "arguments[0].scrollIntoView(true);" [elem]) ;;;
     sleep (1 # 2) ;;;
     perform env (ElemClick elem) ;;;
     ret (Some true))
    (fun e => is_a ElementClickInterceptedException e
              || is_a ElementNotInteractableException e
              || is_a StaleElementReferenceException e)%bool
    (fun e =>
       if is_a StaleElementReferenceException e then ret (Some false)
       else
         try_except
           (perform env (DriverExecuteScript "arguments[0].click();" [elem]) ;;;
            ret (Some true))
           any_exception
           (fun _ =>
              if attempt =? max_attempts - 1 then ret (Some false)
              else sleep (1 # 1) ;;; ret None)).

Fixpoint safe_click_loop (elem : element) (attempts : list Z) : M W bool :=
  match attempts with
  | [] => ret false
  | attempt :: rest =>
      r <- safe_click_round elem attempt ;;
      match r with
      | Some b => ret b
      | None => safe_click_loop elem rest
      end
  end.

(** [range(max_attempts)] *)
Definition _safe_click (elem : element) : M W bool :=
  safe_click_loop elem (map Z.of_nat (seq 0 (Z.to_nat max_attempts))).

(** *** [_analyze_current_page] *)
Definition _analyze_current_page (url : string) : M W pyval :=
  if negb (llm_agent cfg) then ret (PDict [])
  else
    try_except
      (html_content <- perform env DriverPageSource ;;
       perform env (LlmAnalyzeWebpage html_content url "find ticket booking elements"))
      any_exception
      (fun e => log ERROR ("Page analysis failed: " ++ exn_msg e) ;;; ret (PDict [])).

(** *** [_is_ticket_page] *)
Definition ticket_indicators : list string :=
  ["ticket"; "book"; "purchase"; "buy"; "order"; "reserve";
   "quantity"; "seats"; "checkout"; "cart"].

Definition _is_ticket_page : M W bool :=
  page_source <- perform env DriverPageSource ;;
  let page_text := PyStr.lower page_source in
  ret (PyStr.any_in ticket_indicators page_text).

(** *** [_needs_navigation] *)
Definition _needs_navigation : M W bool :=
  nav_elements <- perform env
    (DriverFindElements CSS_SELECTOR
       "a[href*='ticket'], a[href*='book'], button[onclick*='ticket']") ;;
  ret (Nat.ltb 0 (List.length nav_elements)).

(** *** [_navigate_to_booking_page] *)

(** [for step in ...: if "click" in step.lower(): pass] *)
Fixpoint scan_next_steps (steps : list pyval) : M W unit :=
  match steps with
  | [] => ret tt
  | step :: rest =>
      lowered <- lift (PyVal.lower step) ;;
      (if PyStr.contains "click" lowered then ret tt (* pass *) else ret tt) ;;;
      scan_next_steps rest
  end.

(** [if page_analysis and "next_steps" in page_analysis: for ...] *)
Definition use_llm_analysis (page_analysis : pyval) : M W unit :=
  if PyVal.truthy page_analysis then
    present <- lift (PyVal.contains_str "next_steps" page_analysis) ;;
    if (present : bool) then
      next_steps <- lift (PyVal.getitem_str "next_steps" page_analysis) ;;
      steps <- lift (PyVal.iterate next_steps) ;;
      scan_next_steps steps
    else ret tt
  else ret tt.

Definition booking_selectors : list string :=
  ["a[href*='ticket']"; "a[href*='book']"; "a[href*='buy']";
   "button[onclick*='book']"; ".book-now"; ".buy-tickets";
   "[data-action*='book']"].

(** [for selector in booking_selectors: try: ...; return True
     except TimeoutException: continue], then [return False] *)
Fixpoint click_first_booking_link (selectors : list string) : M W bool :=
  match selectors with
  | [] => ret false
  | selector :: rest =>
      try_except
        (elem <- perform env (WaitUntilClickable CSS_SELECTOR selector) ;;
         _safe_click elem ;;;
         _wait_for_page_load ;;;
         ret true)
        (is_a TimeoutException)
        (fun _ => click_first_booking_link rest)
  end.

Definition _navigate_to_booking_page (page_analysis : pyval) : M W bool :=
  try_except
    (use_llm_analysis page_analysis ;;;
     click_first_booking_link booking_selectors)
    any_exception
    (fun e => log ERROR ("Navigation failed: " ++ exn_msg e) ;;; ret false).

(** *** [_extract_form_fields] *)

(** truth value of what [get_attribute] returns: [None] and [""] are false *)
Definition attr_truthy (a : option string) : bool :=
  match a with
  | Some s => PyStr.truthy s
  | None => false
  end.

(** [elem.get_attribute("name") or elem.get_attribute("id")] *)
Definition name_or_id (elem : element) : M W (option string) :=
  name <- perform env (ElemGetAttribute elem "name") ;;
  if attr_truthy name then ret name
  else perform env (ElemGetAttribute elem "id").

(** [field_type not in ["submit", "button", "hidden"]] *)
Definition not_a_button (field_type : option string) : bool :=
  match field_type with
  | Some t => negb (existsb (String.eqb t) ["submit"; "button"; "hidden"])
  | None => true
  end.

Fixpoint scan_inputs (inputs : list element) (fields : dict field_info)
  : M W (dict field_info) :=
  match inputs with
  | [] => ret fields
  | input_elem :: rest =>
      ftype <- perform env (ElemGetAttribute input_elem "type") ;;
      field_name <- name_or_id input_elem ;;
      match field_name with
      | Some name =>
          if (PyStr.truthy name && not_a_button ftype)%bool then
            required <- perform env (ElemGetAttribute input_elem "required") ;;
            let is_required := match required with Some _ => true | None => false end in
            scan_inputs rest (Dict.set name (InputField ftype input_elem is_required) fields)
          else scan_inputs rest fields
      | None => scan_inputs rest fields
      end
  end.

(** [[opt.get_attribute("value") for opt in options]] *)
Fixpoint option_values (options : list element) : M W (list (option string)) :=
  match options with
  | [] => ret []
  | opt :: rest =>
      v <- perform env (ElemGetAttribute opt "value") ;;
      vs <- option_values rest ;;
      ret (v :: vs)
  end.

Fixpoint scan_selects (selects : list element) (fields : dict field_info)
  : M W (dict field_info) :=
  match selects with
  | [] => ret fields
  | select_elem :: rest =>
      field_name <- name_or_id select_elem ;;
      match field_name with
      | Some name =>
          if PyStr.truthy name then
            options <- perform env (ElemFindElements select_elem TAG_NAME "option") ;;
            values <- option_values options ;;
            scan_selects rest (Dict.set name (SelectField select_elem values) fields)
          else scan_selects rest fields
      | None => scan_selects rest fields
      end
  end.

Definition _extract_form_fields : M W (dict field_info) :=
  try_except
    (forms <- perform env (DriverFindElements TAG_NAME "form") ;;
     match forms with
     | [] => ret []
     | form :: _ =>
         inputs <- perform env (ElemFindElements form TAG_NAME "input") ;;
         fields <- scan_inputs inputs [] ;;
         selects <- perform env (ElemFindElements form TAG_NAME "select") ;;
         scan_selects selects fields
     end)
    any_exception
    (fun e => log ERROR ("Form extraction failed: " ++ exn_msg e) ;;; ret []).

(** *** [_fill_booking_form] *)

(** the body of the inner [try] for one field: fill it and give the value used *)
Definition fill_field (generated_data : pyval) (field_name : string)
    (info : field_info) : M W pyval :=
  let elem := field_element info in
  value <- lift (PyVal.get field_name (PStr "") generated_data) ;;
  (if is_select info then
     perform env (SelectNew elem) ;;;
     try_except (perform env (SelectByValue elem value))
       any_exception
       (fun _ => perform env (SelectByVisibleText elem value))
   else
     perform env (ElemClear elem) ;;;
     perform env (ElemSendKeys elem value)) ;;;
  ret value.

Fixpoint fill_fields (generated_data : pyval) (items : dict field_info)
    (filled_data : dict pyval) : M W (dict pyval) :=
  match items with
  | [] => ret filled_data
  | (field_name, info) :: rest =>
      r <- try_except
             (value <- fill_field generated_data field_name info ;; ret (Some value))
             any_exception
             (fun e =>
                log WARNING ("Failed to fill field " ++ field_name ++ ": " ++ exn_msg e) ;;;
                ret None) ;;
      match r with
      | Some value => fill_fields generated_data rest (Dict.set field_name value filled_data)
      | None => fill_fields generated_data rest filled_data
      end
  end.

Definition _fill_booking_form (form_data : dict field_info)
    (user_info : dict string) (ticket_count : Z) : M W (dict pyval) :=
  try_except
    (generated_data <-
       (if llm_agent cfg then
          perform env (LlmGenerateFormData (Dict.keys form_data) user_info ticket_count)
        else
          ret (PDict (map (fun kv => (fst kv, PStr (snd kv)))
                        (_fallback_form_data form_data user_info ticket_count)))) ;;
     fill_fields generated_data form_data [])
    any_exception
    (fun e => log ERROR ("Form filling failed: " ++ exn_msg e) ;;; ret []).

(** *** [_handle_captcha] *)

Definition captcha_selectors : list string :=
  ["img[src*='captcha']"; ".captcha"; "#captcha"; "canvas[width]"; "[data-captcha]"].

(** [captcha_element = None; for selector in ...: try: captcha_element = find;
     break  except NoSuchElementException: continue] *)
Fixpoint find_captcha_element (selectors : list string) : M W (option element) :=
  match selectors with
  | [] => ret None
  | selector :: rest =>
      try_except
        (elem <- perform env (DriverFindElement CSS_SELECTOR selector) ;; ret (Some elem))
        (is_a NoSuchElementException)
        (fun _ => find_captcha_element rest)
  end.

Definition captcha_path : string := "/tmp/captcha.png".

Definition _handle_captcha : M W bool :=
  try_except
    (captcha_element <- find_captcha_element captcha_selectors ;;
     match captcha_element with
     | None => ret true
     | Some captcha_elem =>
         if negb (llm_agent cfg) then
           log WARNING "CAPTCHA found but no LLM agent available" ;;; ret false
         else
           perform env (ElemScreenshot captcha_elem captcha_path) ;;;
           solution <- perform env (LlmSolveCaptcha captcha_path) ;;
           if PyStr.truthy solution then
             captcha_input <- perform env
               (DriverFindElement CSS_SELECTOR
                  "input[name*='captcha'], input[id*='captcha']") ;;
             perform env (ElemClear captcha_input) ;;;
             perform env (ElemSendKeys captcha_input (PStr solution)) ;;;
             log INFO "CAPTCHA solved and entered" ;;;
             ret true
           else
             log WARNING "CAPTCHA solving failed" ;;; ret false
     end)
    any_exception
    (fun e => log ERROR ("CAPTCHA handling failed: " ++ exn_msg e) ;;; ret false).

(** *** [_verify_submission_success] *)
Definition success_indicators : list string :=
  ["confirmation"; "success"; "booked"; "purchased";
   "thank you"; "order number"; "ticket number"].

Definition _verify_submission_success : M W bool :=
  page_source <- perform env DriverPageSource ;;
  let page_text := PyStr.lower page_source in
  ret (PyStr.any_in success_indicators page_text).

(** *** [_submit_booking_form] *)
Definition submit_selectors : list string :=
  ["input[type='submit']"; "button[type='submit']";
   ".submit"; ".book-now"; ".purchase"; ".buy";
   "button[onclick*='submit']"].

Fixpoint click_first_submit (selectors : list string) : M W bool :=
  match selectors with
  | [] => ret false
  | selector :: rest =>
      try_except
        (submit_btn <- perform env (WaitUntilClickable CSS_SELECTOR selector) ;;
         _safe_click submit_btn ;;;
         sleep (3 # 1) ;;;
         _verify_submission_success)
        (is_a TimeoutException)
        (fun _ => click_first_submit rest)
  end.

Definition _submit_booking_form : M W bool :=
  try_except (click_first_submit submit_selectors)
    any_exception
    (fun e => log ERROR ("Form submission failed: " ++ exn_msg e) ;;; ret false).

(** *** [_extract_confirmation_details] *)

Definition conf_patterns : list string :=
  ["confirmation\s*(?:number|#)?\s*:?\s*([A-Z0-9]+)";
   "order\s*(?:number|#)?\s*:?\s*([A-Z0-9]+)";
   "booking\s*(?:reference|#)?\s*:?\s*([A-Z0-9]+)"].

Definition cost_patterns : list string :=
  ["total\s*:?\s*\$?([0-9]+\.?[0-9]*)";
   "amount\s*:?\s*\$?([0-9]+\.?[0-9]*)"].

Definition re_error : exn := Exn OtherException "re.error".

(** [match.group(1)] as a value *)
Definition group_value (group1 : option string) : pyval :=
  match group1 with
  | Some text => PStr text
  | None => PNone
  end.

(** [float(match.group(1))] *)
Definition float_of_group (group1 : option string) : exn + Q :=
  match group1 with
  | Some text =>
      match PyFloat.of_string text with
      | Some q => inr q
      | None =>
          inl (Exn OtherException
                 ("ValueError: could not convert string to float: " ++ text))
      end
  | None => inl (PyVal.type_error "float() argument must be a string or a number")
  end.

(** the part of the method after [page_text] is read: pure but for the
    exceptions of [BeautifulSoup], [re.search] and [float].  The soup is made
    first, so a page the parser refuses ends the method before any pattern
    is tried; its text is read last. *)
Definition confirmation_details (page_text : string) : exn + dict pyval :=
  match soup_get_text env page_text with
  | inl e => inl e
  | inr content =>
      let details : dict pyval := [] in
      match Re.first_match conf_patterns page_text with
      | Re.BadPattern => inl re_error
      | conf =>
          let details :=
            match conf with
            | Re.Match group1 => Dict.set "number" (group_value group1) details
            | _ => details
            end in
          match Re.first_match cost_patterns page_text with
          | Re.BadPattern => inl re_error
          | Re.NoMatch => inr (Dict.set "full_content" (PStr content) details)
          | Re.Match group1 =>
              match float_of_group group1 with
              | inr q =>
                  let details := Dict.set "total_cost" (PFloat q) details in
                  inr (Dict.set "full_content" (PStr content) details)
              | inl e => inl e
              end
          end
      end
  end.

Definition _extract_confirmation_details : M W (dict pyval) :=
  try_except
    (page_text <- perform env DriverPageSource ;;
     lift (confirmation_details page_text))
    any_exception
    (fun e => log ERROR ("Confirmation extraction failed: " ++ exn_msg e) ;;; ret []).

(** *** [_attempt_booking] *)

Definition is_empty {V} (d : dict V) : bool :=
  match d with [] => true | _ => false end.

(** the [try] block *)
Definition attempt_booking_body (user_info : dict string) (ticket_count : Z)
  : M W BookingResult :=
  form_data <- _extract_form_fields ;;
  if is_empty form_data then ret (failed_result "No booking form found")
  else
    _fill_booking_form form_data user_info ticket_count ;;;
    captcha_solved <- _handle_captcha ;;
    if negb captcha_solved then ret (failed_result "CAPTCHA solving failed")
    else
      ok <- _submit_booking_form ;;
      if (ok : bool) then
        confirmation <- _extract_confirmation_details ;;
        ret (mkBookingResult true ticket_count
               (Dict.get_default "number" (PStr "") confirmation)
               ""
               (Some confirmation)
               (Dict.get_default "total_cost" (PFloat 0) confirmation))
      else ret (failed_result "Form submission failed").

Definition _attempt_booking (user_info : dict string) (ticket_count : Z)
  : M W BookingResult :=
  try_except (attempt_booking_body user_info ticket_count)
    any_exception
    (fun e => ret (failed_result ("Booking error: " ++ exn_msg e))).

(** *** [book_tickets] *)

(** the two counters of [self] ([# Booking state] in [__init__]) *)
Record scraper : Type := Scraper {
  booking_attempts : Z;
  successful_bookings : Z
}.

(** a scraper as [__init__] leaves it *)
Definition fresh : scraper := Scraper 0 0.

(** the locals of [book_tickets] *)
Record session : Type := Session {
  results : list BookingResult;
  remaining_tickets : Z
}.

(** how the [try] block of an iteration ends when it raises nothing *)
Inductive page_outcome : Type :=
| Attempted (result : BookingResult)    (* [_is_ticket_page()] held *)
| Navigated (found : bool)              (* [_needs_navigation()] held; the value
                                           of [_navigate_to_booking_page] is dropped *)
| Unidentified.                         (* neither: [break] *)

(** the log line after an attempt *)
Definition report_result (result : BookingResult) : M W unit :=
  if success result then
    log INFO ("Successfully booked " ++ PyStr.str_of_Z (tickets_booked result)
              ++ " tickets")
  else log WARNING ("Booking failed: " ++ error_message result).

(** the calls of the [try] block, in order *)
Definition visit_page (website_url : string) (user_info : dict string)
    (remaining : Z) : M W page_outcome :=
  perform env (DriverGet website_url) ;;;
  _wait_for_page_load ;;;
  page_analysis <- _analyze_current_page website_url ;;
  is_ticket <- _is_ticket_page ;;
  if (is_ticket : bool) then
    result <- _attempt_booking user_info (Z.min remaining 4) ;;
    report_result result ;;;
    ret (Attempted result)
  else
    needs_nav <- _needs_navigation ;;
    if (needs_nav : bool) then
      found <- _navigate_to_booking_page page_analysis ;;
      ret (Navigated found)
    else
      log ERROR "Unable to identify page type or find booking interface" ;;;
      ret Unidentified.

Inductive control : Type := Continue | Break.

(** what the [try] block does to the locals and to [self] *)
Definition record_outcome (o : page_outcome) (sc : scraper) (ss : session)
  : control * scraper * session :=
  match o with
  | Attempted result =>
      let rs := (results ss ++ [result])%list in
      if success result then
        (Continue,
         Scraper (booking_attempts sc) (successful_bookings sc + tickets_booked result),
         Session rs (remaining_tickets ss - tickets_booked result))
      else (Continue, sc, Session rs (remaining_tickets ss))
  | Navigated _ => (Continue, sc, ss)
  | Unidentified => (Break, sc, ss)
  end.

(** [except Exception as e:] of the loop *)
Definition record_exception (e : exn) (ss : session) : session :=
  Session (results ss ++ [failed_result (exn_msg e)])%list (remaining_tickets ss).

(** [if remaining_tickets > 0: self._random_delay()] *)
Definition wait_before_retry (ss : session) : M W unit :=
  if 0 <? remaining_tickets ss then _random_delay else ret tt.

(** the condition of the [while] *)
Definition loop_guard (sc : scraper) (ss : session) : bool :=
  ((0 <? remaining_tickets ss) && (booking_attempts sc <? max_retries cfg))%bool.

(** [self.booking_attempts += 1] *)
Definition count_attempt (sc : scraper) : scraper :=
  Scraper (booking_attempts sc + 1) (successful_bookings sc).

(** [self.logger.info(f"Booking attempt {self.booking_attempts}/{self.max_retries}")] *)
Definition announce_attempt (sc : scraper) : M W unit :=
  log INFO ("Booking attempt " ++ PyStr.str_of_Z (booking_attempts sc) ++ "/"
            ++ PyStr.str_of_Z (max_retries cfg)).

(** the [try] statement of the loop: the block, and the handler that turns
    an exception into a failed result *)
Definition guarded_visit (website_url : string) (user_info : dict string)
    (sc : scraper) (ss : session) : M W (control * scraper * session) :=
  try_except
    (o <- visit_page website_url user_info (remaining_tickets ss) ;;
     ret (record_outcome o sc ss))
    any_exception
    (fun e =>
       log ERROR ("Booking attempt failed: " ++ exn_msg e) ;;;
       ret (Continue, sc, record_exception e ss)).

(** one iteration of the [while] loop; [break] leaves before the delay *)
Definition book_iteration (website_url : string) (user_info : dict string)
    (sc : scraper) (ss : session) : M W (control * scraper * session) :=
  let sc := count_attempt sc in
  announce_attempt sc ;;;
  r <- guarded_visit website_url user_info sc ss ;;
  match r with
  | (Break, _, _) => ret r
  | (Continue, _, ss') => wait_before_retry ss' ;;; ret r
  end.

(** the [while] loop, run for at most [fuel] iterations *)
Fixpoint book_loop (fuel : nat) (website_url : string) (user_info : dict string)
    (sc : scraper) (ss : session) : M W (scraper * session) :=
  match fuel with
  | O => ret (sc, ss)
  | S fuel' =>
      if loop_guard sc ss then
        r <- book_iteration website_url user_info sc ss ;;
        match r with
        | (Break, sc', ss') => ret (sc', ss')
        | (Continue, sc', ss') => book_loop fuel' website_url user_info sc' ss'
        end
      else ret (sc, ss)
  end.

(** every iteration adds one to [booking_attempts], so the loop ends within
    [max_retries - booking_attempts] iterations *)
Definition attempt_budget (sc : scraper) : nat :=
  Z.to_nat (max_retries cfg - booking_attempts sc).

(** [book_tickets]: the list it returns, and [self] as it leaves it *)
Definition book_tickets (website_url : string) (user_info : dict string)
    (ticket_count : Z) (sc : scraper) : M W (list BookingResult * scraper) :=
  r <- book_loop (attempt_budget sc) website_url user_info sc
         (Session [] ticket_count) ;;
  ret (results (snd r), fst r).

(** several calls of [book_tickets], one after the other, on one instance *)
Fixpoint book_tickets_each (calls : list (string * dict string * Z)) (sc : scraper)
  : M W (list (list BookingResult) * scraper) :=
  match calls with
  | [] => ret ([], sc)
  | (website_url, user_info, ticket_count) :: rest =>
      r <- book_tickets website_url user_info ticket_count sc ;;
      rs <- book_tickets_each rest (snd r) ;;
      ret (fst r :: fst rs, snd rs)
  end.

(** the start of the [try] block, up to the verdict of [_is_ticket_page]:
    the page loads, is analysed, and is found bookable or not *)
Definition classify_page (website_url : string) : M W (pyval * bool) :=
  perform env (DriverGet website_url) ;;;
  _wait_for_page_load ;;;
  page_analysis <- _analyze_current_page website_url ;;
  is_ticket <- _is_ticket_page ;;
  ret (page_analysis, is_ticket).

End Scraper.

(** ** A small scripted site, to run the model on

    One page with at most one form: the world is whether the form has been
    submitted since the last page load.  The knobs say what the page holds
    and which calls fail. *)

Module Site.

Record site : Type := Make {
  markup : bool -> string;          (* the page source, before and after submission *)
  get_error : option exn;           (* what [driver.get] raises, if anything *)
  links : list element;             (* what the navigation selector finds *)
  forms_error : option exn;         (* what looking for a form raises, if anything *)
  inputs : list (element * (string * string));   (* the inputs: type and name *)
  captcha : option element;         (* a CAPTCHA image, if any *)
  submit_button : option element    (* a clickable submit input, if any *)
}.

Definition the_form : element := 100%nat.

Definition no_such_element (selector : string) : exn :=
  Exn NoSuchElementException ("Message: no such element: " ++ selector).

Definition timed_out (selector : string) : exn :=
  Exn TimeoutException ("Message: timeout waiting for " ++ selector).

Definition no_agent : exn := Exn OtherException "AttributeError: no agent".

Fixpoint attribute_of (inputs : list (element * (string * string)))
    (e : element) (name : string) : option string :=
  match inputs with
  | [] => None
  | (e', (type, nm)) :: rest =>
      if Nat.eqb e e' then
        if String.eqb name "type" then Some type
        else if String.eqb name "name" then Some nm
        else None
      else attribute_of rest e name
  end.

Definition answer (p : site) (A : Type) (c : call A) (submitted : bool)
  : (exn + A) * bool :=
  match c in call T return (exn + T) * bool with
  | DriverGet _ =>
      match get_error p with
      | Some e => (inl e, submitted)
      | None => (inr tt, false)
      end
  | DriverPageSource => (inr (markup p submitted), submitted)
  | DriverExecuteScript _ _ => (inr tt, submitted)
  | DriverFindElements how value =>
      match how with
      | CSS_SELECTOR => (inr (links p), submitted)
      | TAG_NAME =>
          match forms_error p with
          | Some e => (inl e, submitted)
          | None =>
              if String.eqb value "form" then
                (inr (match inputs p with [] => [] | _ => [the_form] end), submitted)
              else (inr [], submitted)
          end
      end
  | DriverFindElement _ value =>
      match captcha p with
      | Some e =>
          if String.eqb value "img[src*='captcha']" then (inr e, submitted)
          else (inl (no_such_element value), submitted)
      | None => (inl (no_such_element value), submitted)
      end
  | WaitUntilReady _ => (inr tt, submitted)
  | WaitUntilClickable _ value =>
      match submit_button p with
      | Some e =>
          if String.eqb value "input[type='submit']" then (inr e, submitted)
          else (inl (timed_out value), submitted)
      | None => (inl (timed_out value), submitted)
      end
  | ElemFindElements _ _ value =>
      if String.eqb value "input" then (inr (map fst (inputs p)), submitted)
      else (inr [], submitted)
  | ElemGetAttribute e name => (inr (attribute_of (inputs p) e name), submitted)
  | ElemClick e =>
      match submit_button p with
      | Some b => (inr tt, if Nat.eqb e b then true else submitted)
      | None => (inr tt, submitted)
      end
  | ElemClear _ => (inr tt, submitted)
  | ElemSendKeys _ _ => (inr tt, submitted)
  | ElemScreenshot _ _ => (inr tt, submitted)
  | SelectNew _ => (inl (Exn OtherException "UnexpectedTagNameException"), submitted)
  | SelectByValue _ _ => (inl (no_such_element "option"), submitted)
  | SelectByVisibleText _ _ => (inl (no_such_element "option"), submitted)
  | LlmAnalyzeWebpage _ _ _ => (inl no_agent, submitted)
  | LlmGenerateFormData _ _ _ => (inl no_agent, submitted)
  | LlmSolveCaptcha _ => (inl no_agent, submitted)
  end.

(** the text of a page: its markup without the tags *)
Fixpoint strip_tags (inside : bool) (s : string) : string :=
  match s with
  | EmptyString => EmptyString
  | String c s' =>
      if Ascii.eqb c "<"%char then strip_tags true s'
      else if Ascii.eqb c ">"%char then strip_tags false s'
      else if inside then strip_tags inside s'
      else String c (strip_tags inside s')
  end.

(** the parser of the scripted sites: it refuses markup that holds a marked
    section, as [html.parser] does when the section has an unknown keyword
    (<![foo]>), and gives the text of any other markup *)
Definition soup (markup : string) : exn + string :=
  if PyStr.contains "<![" markup
  then inl (Exn OtherException "unknown status keyword in marked section")
  else inr (strip_tags false markup).

(** the shortest delay is always drawn *)
Definition env (p : site) : environment bool :=
  Environment bool (answer p) (fun a _ w => (a, w)) soup.

Definition start : state bool := State false [].

(** a shop whose form books at once *)
Definition shop : site := {|
  markup := fun submitted =>
    if submitted then
      "<html><body><h1>Thank you</h1><p>Your order number: AB12345 Total: $45.50</p></body></html>"
    else
      "<html><body><h1>Tickets</h1><form><input type='text' name='full_name'><input type='email' name='email_addr'><input type='number' name='qty'><input type='submit'></form></body></html>";
  get_error := None;
  links := [];
  forms_error := None;
  inputs := [(1%nat, ("text", "full_name")); (2%nat, ("email", "email_addr"));
             (3%nat, ("number", "qty")); (4%nat, ("submit", ""))];
  captcha := None;
  submit_button := Some 4%nat
|}.

(** the same shop behind a CAPTCHA image *)
Definition guarded_shop : site := {|
  markup := markup shop;
  get_error := None;
  links := [];
  forms_error := None;
  inputs := inputs shop;
  captcha := Some 9%nat;
  submit_button := Some 4%nat
|}.

(** the same shop when the browser session dies while the form is looked up *)
Definition broken_shop : site := {|
  markup := markup shop;
  get_error := None;
  links := [];
  forms_error := Some (Exn OtherException "Message: invalid session id");
  inputs := inputs shop;
  captcha := None;
  submit_button := Some 4%nat
|}.

(** a landing page whose only link is not clickable; the link is put in by
    a script, so the page source read before does not show it *)
Definition landing : site := {|
  markup := fun _ => "<html><body><p>Welcome</p></body></html>";
  get_error := None;
  links := [7%nat];
  forms_error := None;
  inputs := [];
  captcha := None;
  submit_button := None
|}.

(** a page that is nothing but a receipt *)
Definition receipt_text : string := "Your order number: AB12345 Total: $45.50".

Definition receipt : site := {|
  markup := fun _ => receipt_text;
  get_error := None;
  links := [];
  forms_error := None;
  inputs := [];
  captcha := None;
  submit_button := None
|}.

(** the same receipt under a heading *)
Definition headed_receipt_text : string :=
  "<title>Order Confirmation</title><p>Your order number: AB12345 Total: $45.50</p>".

Definition headed_receipt : site := {|
  markup := fun _ => headed_receipt_text;
  get_error := None;
  links := [];
  forms_error := None;
  inputs := [];
  captcha := None;
  submit_button := None
|}.

(** a page with nothing to act on *)
Definition blank : site := {|
  markup := fun _ => "<html><body><p>Welcome</p></body></html>";
  get_error := None;
  links := [];
  forms_error := None;
  inputs := [];
  captcha := None;
  submit_button := None
|}.

(** a site that does not answer *)
Definition offline : site := {|
  markup := fun _ => "";
  get_error := Some (Exn OtherException "Message: net::ERR_CONNECTION_REFUSED");
  links := [];
  forms_error := None;
  inputs := [];
  captcha := None;
  submit_button := None
|}.

Definition jane : dict string := [("name", "Jane Doe"); ("email", "jane@x.com")].

Definition jane_form : dict field_info :=
  [("full_name", InputField (Some "text") 1%nat false);
   ("email_addr", InputField (Some "email") 2%nat false);
   ("qty", InputField (Some "number") 3%nat false)].

Definition url : string := "https://tickets.example/event".

(** no agent, at most [n] attempts *)
Definition plain (n : Z) : settings := Settings n 30 false.

End Site.

(** ** Vocabulary of the statements *)

Section Vocabulary.

Context {W : Type}.

(** a computation that returns a value on every state: it cannot raise *)
Definition never_raises {A} (m : M W A) : Prop :=
  forall s, exists a s', m s = (inr a, s').

(** [ok] holds of every call among the events *)
Definition calls_satisfy (ok : forall A, call A -> bool) (ev : event) : Prop :=
  match ev with
  | EvCall c => ok _ c = true
  | _ => True
  end.

(** [m] only appends to the trace, and every call it makes satisfies [ok] *)
Definition emits (ok : forall A, call A -> bool) {A} (m : M W A) : Prop :=
  forall s, exists evs,
    trace (snd (m s)) = (trace s ++ evs)%list /\ Forall (calls_satisfy ok) evs.

End Vocabulary.

(** the selector never matches: looking it up raises [NoSuchElementException] *)
Definition never_matches {W} (env : environment W) (selector : string) : Prop :=
  forall w, exists e w',
    oracle env (DriverFindElement CSS_SELECTOR selector) w = (inl e, w')
    /\ exn_cls e = NoSuchElementException.

(** the selector always finds an element *)
Definition always_matches {W} (env : environment W) (selector : string) : Prop :=
  forall w, exists elem w',
    oracle env (DriverFindElement CSS_SELECTOR selector) w = (inr elem, w').

(** every call but [driver.get] *)
Definition not_a_page_load (A : Type) (c : call A) : bool :=
  match c with
  | DriverGet _ => false
  | _ => true
  end.

(** every call but those to the LLM agent *)
Definition not_an_llm_call (A : Type) (c : call A) : bool :=
  match c with
  | LlmAnalyzeWebpage _ _ _ => false
  | LlmGenerateFormData _ _ _ => false
  | LlmSolveCaptcha _ => false
  | _ => true
  end.

Definition is_page_load (ev : event) : bool :=
  match ev with
  | EvCall c => negb (not_a_page_load _ c)
  | _ => false
  end.

(** the number of [driver.get] calls in a trace: the page loads *)
Definition page_loads (evs : list event) : nat :=
  List.length (filter is_page_load evs).

(** [sum(r.tickets_booked for r in results if r.success)] *)
Fixpoint tickets_of_successes (rs : list BookingResult) : Z :=
  match rs with
  | [] => 0
  | r :: rs' =>
      (if success r then tickets_booked r else 0) + tickets_of_successes rs'
  end.

(** the messages of the failed results [_attempt_booking] builds outside its
    handler *)
Definition attempt_failure_messages : list string :=
  ["No booking form found"; "CAPTCHA solving failed"; "Form submission failed"].

(** every value [m] can return satisfies [Q] *)
Definition returns_only {W A} (Q : A -> Prop) (m : M W A) : Prop :=
  forall s a s', m s = (inr a, s') -> Q a.

(** what a result adds to [successful_bookings] and takes from
    [remaining_tickets] *)
Definition booked (r : BookingResult) : Z :=
  if success r then tickets_booked r else 0.

(** a result of an attempt for [n] tickets: all of them or none *)
Definition result_for (n : Z) (r : BookingResult) : Prop :=
  (success r = true /\ tickets_booked r = n) \/
  (success r = false /\ tickets_booked r = 0).

(** ** Further vocabulary: the run as a whole *)

(** a result as [book_tickets] lists it: a success books one to four
    tickets, a failure none *)
Definition well_formed_result (r : BookingResult) : Prop :=
  (success r = true /\ 1 <= tickets_booked r <= 4)
  \/ (success r = false /\ tickets_booked r = 0).

(** the log line that goes with the [break] of the loop *)
Definition unidentified_page : event :=
  EvLog ERROR "Unable to identify page type or find booking interface".

(** ** Further vocabulary: counting events *)

(** the number of events of a kind *)
Definition count_events (p : event -> bool) (evs : list event) : nat :=
  List.length (filter p evs).

(** [element.click()] *)
Definition is_native_click (ev : event) : bool :=
  match ev with
  | EvCall c => match c with ElemClick _ => true | _ => false end
  | _ => false
  end.

(** the click sent by script: [execute_script("arguments[0].click();", element)] *)
Definition is_script_click (ev : event) : bool :=
  match ev with
  | EvCall c =>
      match c with
      | DriverExecuteScript script _ => String.eqb script "arguments[0].click();"
      | _ => false
      end
  | _ => false
  end.

(** a click that is not on [elem]: [element.click()] on another element, or
    the click by script with other arguments than [elem] *)
Definition clicks_another (elem : element) (ev : event) : bool :=
  match ev with
  | EvCall c =>
      match c with
      | ElemClick e => negb (Nat.eqb e elem)
      | DriverExecuteScript script args =>
          (String.eqb script "arguments[0].click();"
           && match args with
              | [e] => negb (Nat.eqb e elem)
              | _ => true
              end)%bool
      | _ => false
      end
  | _ => false
  end.

(** [m] only appends to the trace, at most [n] events of the kind [p] *)
Definition adds_at_most {W A} (p : event -> bool) (n : nat) (m : M W A) : Prop :=
  forall s, exists evs,
    trace (snd (m s)) = (trace s ++ evs)%list /\ (count_events p evs <= n)%nat.

(** the three classes [_safe_click] catches *)
Definition caught_by_safe_click (e : exn) : bool :=
  (is_a ElementClickInterceptedException e
   || is_a ElementNotInteractableException e
   || is_a StaleElementReferenceException e)%bool.

(** ** Further vocabulary: submission *)

(** [self.wait.until(EC.element_to_be_clickable(...))] *)
Definition is_wait_clickable (A : Type) (c : call A) : bool :=
  match c with
  | WaitUntilClickable _ _ => true
  | _ => false
  end.

(** the only calls that time out are the waits for a clickable element *)
Definition only_waits_time_out {W} (env : environment W) : Prop :=
  forall A (c : call A) w e w',
    oracle env c w = (inl e, w') ->
    exn_cls e = TimeoutException ->
    is_wait_clickable A c = true.

(** no page source the browser gives holds a success indicator *)
Definition no_success_page {W} (env : environment W) : Prop :=
  forall w page_source w',
    oracle env DriverPageSource w = (inr page_source, w') ->
    PyStr.any_in success_indicators (PyStr.lower page_source) = false.

(** every exception [m] can raise satisfies [Q] *)
Definition raises_only {W A} (Q : exn -> Prop) (m : M W A) : Prop :=
  forall s e s', m s = (inl e, s') -> Q e.

(** an exception of another class than [TimeoutException] *)
Definition not_a_timeout (e : exn) : Prop := exn_cls e <> TimeoutException.

(** an environment that answers as [env] does, but for the calls [over]
    answers itself *)
Definition overriding {W} (over : forall A, call A -> option (exn + A))
    (env : environment W) : environment W :=
  Environment W
    (fun A c w =>
       match over A c with
       | Some r => (r, w)
       | None => oracle env c w
       end)
    (uniform env) (soup_get_text env).

(** ** Further vocabulary: forms *)

(** an entry [_extract_form_fields] may hold: a name that is not empty, and
    no input of type submit, button or hidden *)
Definition extracted_field (entry : string * field_info) : Prop :=
  fst entry <> ""
  /\ match snd entry with
     | InputField ftype _ _ => not_a_button ftype = true
     | SelectField _ _ => True
     end.

(** a dict as Python keeps it: no key twice *)
Definition distinct_keys {V} (d : dict V) : Prop := NoDup (Dict.keys d).

(** [k in d] as a proposition *)
Definition has_key {V} (k : string) (d : dict V) : Prop := In k (Dict.keys d).

(** a dict as [_extract_form_fields] builds it *)
Definition extracted_fields (d : dict field_info) : Prop :=
  distinct_keys d /\ Forall extracted_field d.

(** the call that enters [value] into a field: [send_keys] for an input;
    [select_by_value], which is tried first, for a select *)
Definition filling_call (info : field_info) (value : pyval) : call unit :=
  if is_select info then SelectByValue (field_element info) value
  else ElemSendKeys (field_element info) value.

(** how the filling of the field [k] ended, as the dict returned and the
    events of the run show it: the value is under [k] and the call that
    enters it was made, or [k] is left out and the exception that stopped
    the filling was logged as a warning *)
Definition field_outcome (k : string) (info : field_info) (value : pyval)
    (filled : dict pyval) (evs : list event) : Prop :=
  (Dict.get k filled = Some value /\ In (EvCall (filling_call info value)) evs)
  \/ (Dict.get k filled = None
      /\ exists e,
           In (EvRaise e) evs
           /\ In (EvLog WARNING ("Failed to fill field " ++ k ++ ": " ++ exn_msg e)) evs).

(** what [_navigate_to_booking_page] leaves when reading the analysis raises [e] *)
Definition navigation_failed {W} (e : exn) (s : state W) : state W :=
  State (world s)
    (trace s ++ [EvRaise e; EvLog ERROR ("Navigation failed: " ++ exn_msg e)]).

(** ** Further vocabulary: the CAPTCHA *)


(** ** [get_booking_summary]

    [now] is what [time.time()] gives.  The quotient of the two counters is
    kept as the exact rational, as the other floats are. *)

Definition success_rate (sc : scraper) : Q :=
  Qred (inject_Z (successful_bookings sc)
        / inject_Z (Z.max 1 (booking_attempts sc))).

Definition get_booking_summary (sc : scraper) (now : Q) : dict pyval :=
  [("total_attempts", PInt (booking_attempts sc));
   ("successful_bookings", PInt (successful_bookings sc));
   ("success_rate", PFloat (success_rate sc));
   ("timestamp", PFloat now)].

(** the counters of a scraper that has booked at most four tickets for each
    attempt it has made *)
Definition plausible_counters (sc : scraper) : Prop :=
  0 <= successful_bookings sc <= 4 * booking_attempts sc.

(** ** What a regular expression matches

    [matches ic r u g g']: read with the flag [ic], the expression [r]
    matches the text [u]; group 1 holds [g] before and [g'] after. *)

Inductive matches (ic : bool)
  : Re.regex -> list ascii -> option (list ascii) -> option (list ascii) -> Prop :=
| matches_empty g : matches ic Re.Empty [] g g
| matches_lit c x g :
    Re.lit_matches ic c x = true -> matches ic (Re.Lit c) [x] g g
| matches_space x g :
    Re.is_space x = true -> matches ic Re.Space [x] g g
| matches_class ranges x g :
    Re.class_matches ic ranges x = true -> matches ic (Re.Class ranges) [x] g g
| matches_seq r1 r2 u1 u2 g g1 g2 :
    matches ic r1 u1 g g1 -> matches ic r2 u2 g1 g2 ->
    matches ic (Re.Seq r1 r2) (u1 ++ u2) g g2
| matches_alt_left r1 r2 u g g' :
    matches ic r1 u g g' -> matches ic (Re.Alt r1 r2) u g g'
| matches_alt_right r1 r2 u g g' :
    matches ic r2 u g g' -> matches ic (Re.Alt r1 r2) u g g'
| matches_opt_some r u g g' :
    matches ic r u g g' -> matches ic (Re.Opt r) u g g'
| matches_opt_none r g : matches ic (Re.Opt r) [] g g
| matches_star_nil r g : matches ic (Re.Star r) [] g g
| matches_star_cons r u1 u2 g g1 g2 :
    matches ic r u1 g g1 -> matches ic (Re.Star r) u2 g1 g2 ->
    matches ic (Re.Star r) (u1 ++ u2) g g2
| matches_group r u g g1 :
    matches ic r u g g1 -> matches ic (Re.Group r) u g (Some u).

(** the group an expression ends with, if it ends with one *)
Fixpoint last_group (r : Re.regex) : option Re.regex :=
  match r with
  | Re.Group body => Some body
  | Re.Seq _ r2 => last_group r2
  | _ => None
  end.

(** what the group of a pattern holds, for a pattern that ends with its group *)
Definition group_body (pattern : string) : option Re.regex :=
  match Re.compile pattern with
  | Some r => last_group r
  | None => None
  end.

(** the group of the cost patterns *)
Definition cost_body : Re.regex :=
  Re.cat [Re.Plus (Re.Class [("0", "9")]%char);
          Re.Opt (Re.Lit ".");
          Re.Star (Re.Class [("0", "9")]%char)].

(** the group of the patterns for the confirmation number *)
Definition number_body : Re.regex :=
  Re.Plus (Re.Class [("A", "Z"); ("0", "9")]%char).

Definition is_digit (c : ascii) : Prop := PyFloat.digit c <> None.

(** the details [_extract_confirmation_details] can return for a page: the
    cost, where present, is a number that is not negative; the number,
    where present, is a text that is not empty; the text of the page is
    always there *)
Definition sound_details (page_content : string) (details : dict pyval) : Prop :=
  (forall v, Dict.get "total_cost" details = Some v ->
             exists q, v = PFloat q /\ (0 <= q)%Q)
  /\ (forall v, Dict.get "number" details = Some v ->
                exists text, v = PStr text /\ text <> "")
  /\ Dict.get "full_content" details = Some (PStr page_content).

(** the fields of a result as [_attempt_booking] fills them: a success
    carries the details read off the confirmation page, with a number that
    is a text and a cost that is not negative; a failure carries the
    defaults of the dataclass *)
Definition sound_result (r : BookingResult) : Prop :=
  if success r then
    error_message r = ""
    /\ exists details text q,
         booking_details r = Some details
         /\ confirmation_number r = PStr text
         /\ total_cost r = PFloat q /\ (0 <= q)%Q
         /\ (Dict.get "number" details = None -> text = "")
         /\ (Dict.get "total_cost" details = None -> q = 0%Q)
  else
    tickets_booked r = 0
    /\ confirmation_number r = PStr ""
    /\ booking_details r = None
    /\ total_cost r = PFloat 0.

(** ** Further scripted environments *)

Module Cases.

(** every native click finds its element gone *)
Definition stale_clicks (A : Type) (c : call A) : option (exn + A) :=
  match c in call T return option (exn + T) with
  | ElemClick _ =>
      Some (inl (Exn StaleElementReferenceException
                   "Message: stale element reference"))
  | _ => None
  end.

(** every native click kills the browser session *)
Definition fatal_clicks (A : Type) (c : call A) : option (exn + A) :=
  match c in call T return option (exn + T) with
  | ElemClick _ => Some (inl (Exn OtherException "Message: invalid session id"))
  | _ => None
  end.

(** the page shows the form again, whatever is clicked *)
Definition form_again (A : Type) (c : call A) : option (exn + A) :=
  match c in call T return option (exn + T) with
  | DriverPageSource => Some (inr (Site.markup Site.shop false))
  | _ => None
  end.


(** the receipt behind a marked section that [html.parser] refuses *)
Definition marked_receipt : string :=
  "<![foo]>Your order number: AB12345 Total: $45.50".

Definition marked_section (A : Type) (c : call A) : option (exn + A) :=
  match c in call T return option (exn + T) with
  | DriverPageSource => Some (inr marked_receipt)
  | _ => None
  end.






End Cases.

(** ** The reference and the cost by priority

    The order in which the specification has the patterns tried, written
    out pattern by pattern: the confirmation pattern where it matches
    anywhere in the page, else the order pattern, else the booking pattern;
    the total pattern where it matches, else the amount pattern. *)







(** * Around the scraper: the life of the browser and the agent

    [WebScraper.__enter__], [__exit__], [start_browser] and [close_browser]
    open and close the browser the methods above drive, and
    [TicketBookingAgent] in [src/src/ticket_booking_agent.py] runs a scraper
    inside a [with] statement and mails the outcome.  They call things the
    scraper's methods do not: the browser drivers, the clock, the mailer. *)

Inductive outer_call : Type -> Type :=
(* web_scraper.py *)
| NewUserAgent : outer_call unit                       (* UserAgent() *)
| RandomUserAgent : outer_call string                  (* self.user_agent.random *)
| NewChrome (arguments : list string)
    (experimental : list (string * pyval)) : outer_call unit
                                  (* uc.Chrome(options) or webdriver.Chrome(options) *)
| HideWebdriver : outer_call unit (* driver.execute_script("Object.defineProperty...") *)
| NewFirefox (arguments : list string)
    (preferences : list (string * pyval)) : outer_call unit
| DriverQuit : outer_call unit
(* ticket_booking_agent.py *)
| SetupLogging (debug_mode : bool) : outer_call unit   (* logging.basicConfig(...) *)
| NewLLMAgent (provider api_key : string) : outer_call unit
| SendBookingConfirmation (results : list BookingResult) : outer_call bool
| SendBookingFailureNotification (error_details : dict pyval) : outer_call bool
| SendBookingStatusUpdate (status : string) (details : dict pyval) : outer_call bool.

Inductive happening : Type :=
| HCall {A : Type} (c : outer_call A)
| HRaise (e : exn)
| HLog (lvl : log_level) (msg : string)      (* the agent's logger *)
| HScraper (ev : event).                     (* what the scraper did or logged *)

(** The surroundings of a run: the scraper's environment, the answers to
    the outer calls, [datetime.now()] as seconds, and the two ways a time is
    written. *)
Record surroundings (W : Type) : Type := Surroundings {
  inner : environment W;
  outer : forall A : Type, outer_call A -> W -> (exn + A) * W;
  clock : W -> Q * W;
  strftime : Q -> string;          (* .strftime('%Y-%m-%d %H:%M:%S') *)
  isoformat : Q -> string          (* .isoformat() *)
}.
Arguments inner {W} _.
Arguments outer {W} _ {A} _ _.
Arguments clock {W} _ _.
Arguments strftime {W} _ _.
Arguments isoformat {W} _ _.

(** the fields of a [TicketBookingAgent] that change ([# Booking state]) *)
Record agent_state : Type := AgentState {
  is_running : bool;
  booking_results : list BookingResult;
  total_tickets_booked : Z;
  start_time : option Q
}.

(** as [__init__] leaves them *)
Definition idle : agent_state := AgentState false [] 0 None.

Record stage (W : Type) : Type := Stage {
  stage_world : W;
  happened : list happening;
  self : agent_state
}.
Arguments Stage {W} _ _ _.
Arguments stage_world {W} _.
Arguments happened {W} _.
Arguments self {W} _.

(** ** The monad of the outer methods: as [M], one level up *)

Definition P (W A : Type) : Type := stage W -> (exn + A) * stage W.

Module Outer.
Section Ops.
Context {W : Type}.

Definition ret {A} (a : A) : P W A := fun st => (inr a, st).

Definition bind {A B} (m : P W A) (f : A -> P W B) : P W B :=
  fun st => match m st with
            | (inr a, st') => f a st'
            | (inl e, st') => (inl e, st')
            end.

Definition emit (h : happening) : P W unit :=
  fun st => (inr tt, Stage (stage_world st) (happened st ++ [h]) (self st)).

(** [raise e] *)
Definition raise {A} (e : exn) : P W A :=
  fun st => (inl e, Stage (stage_world st) (happened st ++ [HRaise e]) (self st)).

(** the bare [raise] of a handler: the exception caught goes on *)
Definition reraise {A} (e : exn) : P W A := fun st => (inl e, st).

Definition try_except {A} (m : P W A) (catches : exn -> bool)
    (h : exn -> P W A) : P W A :=
  fun st => match m st with
            | (inr a, st') => (inr a, st')
            | (inl e, st') => if catches e then h e st' else (inl e, st')
            end.

(** [try: m finally: f], and what a [with] statement does with [__exit__]
    when [__exit__] returns None: [f] runs whatever [m] did, and [m]'s
    result or exception stands unless [f] raises *)
Definition finally {A} (m : P W A) (f : P W unit) : P W A :=
  fun st => match m st with
            | (r, st1) =>
                match f st1 with
                | (inr _, st2) => (r, st2)
                | (inl e, st2) => (inl e, st2)
                end
            end.

(** the agent's [self.logger] *)
Definition log (lvl : log_level) (msg : string) : P W unit := emit (HLog lvl msg).

(** the scraper's [self.logger] *)
Definition scraper_log (lvl : log_level) (msg : string) : P W unit :=
  emit (HScraper (EvLog lvl msg)).

(** the fields of the agent *)
Definition get_self : P W agent_state := fun st => (inr (self st), st).

Definition set_self (a : agent_state) : P W unit :=
  fun st => (inr tt, Stage (stage_world st) (happened st) a).

Section WithSurroundings.
Variable sur : surroundings W.

Definition perform {A} (c : outer_call A) : P W A :=
  fun st =>
    let '(r, w') := outer sur c (stage_world st) in
    match r with
    | inr a => (inr a, Stage w' (happened st ++ [HCall c]) (self st))
    | inl e => (inl e, Stage w' (happened st ++ [HCall c; HRaise e]) (self st))
    end.

(** [datetime.now()] *)
Definition now : P W Q :=
  fun st => let '(t, w') := clock sur (stage_world st) in
            (inr t, Stage w' (happened st) (self st)).

(** a method of the scraper, run on the world as it is; what it appends to
    its trace is appended here *)
Definition in_scraper {A} (m : M W A) : P W A :=
  fun st =>
    let '(r, s) := m (State (stage_world st) []) in
    (r, Stage (world s) (happened st ++ map HScraper (trace s)) (self st)).

End WithSurroundings.
End Ops.
End Outer.

Declare Scope outer_scope.
Delimit Scope outer_scope with outer.
Notation "x <- m ;; k" := (Outer.bind m (fun x => k))
  (at level 61, m at next level, right associativity) : outer_scope.
Notation "m ;;; k" := (Outer.bind m (fun _ => k))
  (at level 61, right associativity) : outer_scope.

(** ** [WebScraper]: the browser *)

Section Browser.

Local Open Scope outer_scope.

Context {W : Type}.
Variable sur : surroundings W.

(** [self.headless], from [config.get('headless_browser', True)] *)
Variable headless : bool.

(** *** [_setup_chrome] *)
Definition chrome_arguments (user_agent : string) : list string :=
  ((if headless then ["--headless"] else [])
   ++ ["--no-sandbox"; "--disable-dev-shm-usage";
       "--disable-blink-features=AutomationControlled";
       ("--user-agent=" ++ user_agent)%string;
       "--disable-images"; "--disable-javascript";
       "--disable-plugins"; "--disable-extensions"])%list.

Definition _setup_chrome : P W unit :=
  user_agent <- Outer.perform sur RandomUserAgent ;;
  Outer.perform sur
    (NewChrome (chrome_arguments user_agent)
       [("excludeSwitches", PList [PStr "enable-automation"]);
        ("useAutomationExtension", PBool false)]) ;;;
  Outer.perform sur HideWebdriver.

(** *** [_setup_firefox] *)
Definition _setup_firefox : P W unit :=
  user_agent <- Outer.perform sur RandomUserAgent ;;
  Outer.perform sur
    (NewFirefox (if headless then ["--headless"] else [])
       [("general.useragent.override", PStr user_agent);
        ("dom.webdriver.enabled", PBool false);
        ("useAutomationExtension", PBool false)]).

(** *** [start_browser]; when it returns, [self.driver] is set.
    [self.wait = WebDriverWait(self.driver, self.timeout)] only builds an
    object and is not a call. *)
Definition start_browser (browser_type : string) : P W unit :=
  Outer.try_except
    ((if String.eqb (PyStr.lower browser_type) "chrome" then _setup_chrome
      else if String.eqb (PyStr.lower browser_type) "firefox" then _setup_firefox
      else Outer.raise
             (Exn OtherException ("Unsupported browser: " ++ browser_type))) ;;;
     Outer.scraper_log INFO "Browser started successfully")
    any_exception
    (fun e =>
       Outer.scraper_log ERROR ("Failed to start browser: " ++ exn_msg e) ;;;
       Outer.reraise e).

(** *** [close_browser]; [driver] is whether [self.driver] is set *)
Definition close_browser (driver : bool) : P W unit :=
  if driver then
    Outer.try_except
      (Outer.perform sur DriverQuit ;;;
       Outer.scraper_log INFO "Browser closed successfully")
      any_exception
      (fun e => Outer.scraper_log ERROR ("Error closing browser: " ++ exn_msg e))
  else Outer.ret tt.

(** *** [__enter__] and [__exit__] *)
Definition __enter__ : P W unit := start_browser "chrome".

Definition __exit__ (driver : bool) : P W unit := close_browser driver.

(** [with WebScraper(config, llm_agent) as scraper: body]: the object is
    made ([__init__] makes a [UserAgent]), [__enter__] runs, and if it
    returns, so with [self.driver] set, [body] runs and then [__exit__] *)
Definition with_WebScraper {A} (body : P W A) : P W A :=
  Outer.perform sur NewUserAgent ;;;
  __enter__ ;;;
  Outer.finally body (__exit__ true).

End Browser.

(** ** [TicketBookingAgent] *)

(** [class AgentConfig] *)
Module AgentConfig.

Record t : Type := mk {
  target_website_url : string;
  ticket_count : Z;
  max_attempts : Z;
  retry_interval : Z;
  user_name : string;
  user_email : string;
  user_phone : string;
  user_address : string;
  email_password : string;
  smtp_server : string;
  smtp_port : Z;
  llm_provider : string;
  openai_api_key : string;
  anthropic_api_key : string;
  gemini_api_key : string;
  headless_browser : bool;
  browser_timeout : Z;
  use_proxy : bool;
  proxy_url : string;
  debug_mode : bool;
  captcha_solving_service : string
}.

End AgentConfig.

(** *** [validate_configuration] *)

(** [if cond: issues.append(msg)] *)
Definition issue_if (cond : bool) (msg : string) : list string :=
  if cond then [msg] else [].

Definition validate_configuration (config : AgentConfig.t) : list string :=
  (issue_if (negb (PyStr.truthy (AgentConfig.target_website_url config)))
     "Target website URL is required"
   ++ issue_if (negb (PyStr.truthy (AgentConfig.user_email config)))
        "User email is required"
   ++ issue_if (negb (PyStr.truthy (AgentConfig.email_password config)))
        "Email password is required"
   ++ issue_if (negb (PyStr.truthy (AgentConfig.user_name config)))
        "User name is recommended for booking"
   ++ (if (String.eqb (AgentConfig.llm_provider config) "openai"
           && negb (PyStr.truthy (AgentConfig.openai_api_key config)))%bool
       then ["OpenAI API key is required for selected provider"]
       else if (String.eqb (AgentConfig.llm_provider config) "anthropic"
                && negb (PyStr.truthy (AgentConfig.anthropic_api_key config)))%bool
       then ["Anthropic API key is required for selected provider"]
       else if (String.eqb (AgentConfig.llm_provider config) "gemini"
                && negb (PyStr.truthy (AgentConfig.gemini_api_key config)))%bool
       then ["Gemini API key is required for selected provider"]
       else [])
   ++ (if AgentConfig.ticket_count config <=? 0
       then ["Ticket count must be greater than 0"]
       else if 50 <? AgentConfig.ticket_count config
       then ["Ticket count should not exceed 50 for practical reasons"]
       else []))%list.

(** *** [_get_scraper_config], as [WebScraper.__init__] reads it;
    [agent] is whether [self.llm_agent] is an agent *)
Definition _get_scraper_config (config : AgentConfig.t) (agent : bool) : settings :=
  Settings (AgentConfig.max_attempts config) (AgentConfig.browser_timeout config) agent.

(** the [user_info] of [_run_booking_process] *)
Definition user_info_of (config : AgentConfig.t) : dict string :=
  [("name", AgentConfig.user_name config); ("email", AgentConfig.user_email config);
   ("phone", AgentConfig.user_phone config); ("address", AgentConfig.user_address config)].

(** [sum(r.tickets_booked for r in results)] *)
Definition sum_tickets (rs : list BookingResult) : Z :=
  fold_right (fun r acc => tickets_booked r + acc) 0 rs.

(** [any(r.success for r in results)] *)
Definition any_success (rs : list BookingResult) : bool := existsb success rs.

Section Agent.

Local Open Scope outer_scope.

Context {W : Type}.
Variable sur : surroundings W.
Variable config : AgentConfig.t.

(** whether [self.llm_agent] is an agent *)
Variable agent : bool.

(** *** [_initialize_llm_agent]: whether an agent was made *)
Definition api_key_of : option string :=
  if String.eqb (AgentConfig.llm_provider config) "openai"
  then Some (AgentConfig.openai_api_key config)
  else if String.eqb (AgentConfig.llm_provider config) "anthropic"
  then Some (AgentConfig.anthropic_api_key config)
  else if String.eqb (AgentConfig.llm_provider config) "gemini"
  then Some (AgentConfig.gemini_api_key config)
  else None.

Definition _initialize_llm_agent : P W bool :=
  Outer.try_except
    (match api_key_of with
     | Some api_key =>
         if PyStr.truthy api_key then
           Outer.perform sur (NewLLMAgent (AgentConfig.llm_provider config) api_key) ;;;
           Outer.ret true
         else
           Outer.log WARNING ("No API key found for " ++ AgentConfig.llm_provider config
                              ++ ", LLM features disabled") ;;;
           Outer.ret false
     | None =>
         Outer.log WARNING ("No API key found for " ++ AgentConfig.llm_provider config
                            ++ ", LLM features disabled") ;;;
         Outer.ret false
     end)
    any_exception
    (fun e =>
       Outer.log ERROR ("Failed to initialize LLM agent: " ++ exn_msg e) ;;;
       Outer.ret false).

(** *** [_initialize_email_sender]: [EmailSender.__init__] refuses a
    configuration without credentials *)
Definition _initialize_email_sender : P W unit :=
  if (negb (PyStr.truthy (AgentConfig.user_email config))
      || negb (PyStr.truthy (AgentConfig.email_password config)))%bool
  then Outer.raise (Exn OtherException "Email credentials not configured")
  else Outer.ret tt.

(** *** [__init__]: whether the agent it makes has an LLM agent *)
Definition __init__ : P W bool :=
  Outer.perform sur (SetupLogging (AgentConfig.debug_mode config)) ;;;
  Outer.log INFO "Ticket Booking Agent initialized" ;;;
  has_agent <- _initialize_llm_agent ;;
  _initialize_email_sender ;;;
  Outer.set_self idle ;;;
  Outer.ret has_agent.

(** *** the three mails *)

Definition _send_booking_confirmation (results : list BookingResult) : P W unit :=
  Outer.try_except
    (Outer.perform sur (SendBookingConfirmation results) ;;; Outer.ret tt)
    any_exception
    (fun e => Outer.log ERROR ("Failed to send booking confirmation: " ++ exn_msg e)).

(** [error_message or "Booking process failed"] *)
Definition message_or_default (error_message : option string) : string :=
  match error_message with
  | Some msg => if PyStr.truthy msg then msg else "Booking process failed"
  | None => "Booking process failed"
  end.

Definition _send_failure_notification (error_message : option string) : P W unit :=
  Outer.try_except
    (me <- Outer.get_self ;;
     runtime_seconds <-
       match start_time me with
       | Some t0 => t <- Outer.now sur ;; Outer.ret (PFloat (Qred (t - t0)))
       | None => Outer.ret (PInt 0)
       end ;;
     Outer.perform sur
       (SendBookingFailureNotification
          [("website_url", PStr (AgentConfig.target_website_url config));
           ("ticket_count", PInt (AgentConfig.ticket_count config));
           ("total_attempts", PInt (Z.of_nat (List.length (booking_results me))));
           ("error_message", PStr (message_or_default error_message));
           ("runtime_seconds", runtime_seconds)]) ;;;
     Outer.ret tt)
    any_exception
    (fun e => Outer.log ERROR ("Failed to send failure notification: " ++ exn_msg e)).

Definition _send_status_update (status : string) (details : dict pyval) : P W unit :=
  Outer.try_except
    (Outer.perform sur (SendBookingStatusUpdate status details) ;;; Outer.ret tt)
    any_exception
    (fun e => Outer.log ERROR ("Failed to send status update: " ++ exn_msg e)).

(** *** [_run_booking_process] *)

(** the body of the [with] statement *)
Definition booking_body : P W bool :=
  r <- Outer.in_scraper
         (book_tickets (inner sur) (_get_scraper_config config agent)
            (AgentConfig.target_website_url config) (user_info_of config)
            (AgentConfig.ticket_count config)
            fresh) ;;
  let results := fst r in
  me <- Outer.get_self ;;
  Outer.set_self
    (AgentState (is_running me) (booking_results me ++ results)
       (sum_tickets results) (start_time me)) ;;;
  match results with
  | _ :: _ =>
      if any_success results then _send_booking_confirmation results
      else _send_failure_notification None
  | [] => _send_failure_notification None
  end ;;;
  Outer.log INFO ("Booking process completed. Total tickets booked: "
                  ++ PyStr.str_of_Z (sum_tickets results)) ;;;
  Outer.ret true.

(** the [try] block *)
Definition booking_process : P W bool :=
  Outer.log INFO ("Attempting to book " ++ PyStr.str_of_Z (AgentConfig.ticket_count config)
                  ++ " tickets from " ++ AgentConfig.target_website_url config) ;;;
  t <- Outer.now sur ;;
  _send_status_update "Booking Started"
    [("target_website", PStr (AgentConfig.target_website_url config));
     ("ticket_count", PInt (AgentConfig.ticket_count config));
     ("start_time", PStr (strftime sur t))] ;;;
  with_WebScraper sur (AgentConfig.headless_browser config) booking_body.

(** [self.is_running = False] *)
Definition stop_running : P W unit :=
  me <- Outer.get_self ;;
  Outer.set_self
    (AgentState false (booking_results me) (total_tickets_booked me) (start_time me)).

Definition _run_booking_process : P W bool :=
  Outer.finally
    (Outer.try_except booking_process
       any_exception
       (fun e =>
          Outer.log ERROR ("Booking process failed: " ++ exn_msg e) ;;;
          _send_failure_notification (Some (exn_msg e)) ;;;
          Outer.ret false))
    stop_running.

(** *** [start_booking(async_mode=False)]: the process runs in the calling
    thread *)

Fixpoint log_issues (issues : list string) : P W unit :=
  match issues with
  | [] => Outer.ret tt
  | issue :: rest => Outer.log ERROR ("  - " ++ issue) ;;; log_issues rest
  end.

Definition start_booking : P W bool :=
  let issues := validate_configuration config in
  match issues with
  | _ :: _ =>
      Outer.log ERROR "Configuration validation failed:" ;;;
      log_issues issues ;;;
      Outer.ret false
  | [] =>
      me <- Outer.get_self ;;
      if is_running me then
        Outer.log WARNING "Booking process is already running" ;;;
        Outer.ret false
      else
        Outer.log INFO "Starting ticket booking process..." ;;;
        t <- Outer.now sur ;;
        Outer.set_self (AgentState true [] 0 (Some t)) ;;;
        _run_booking_process
  end.

End Agent.

(** *** [get_booking_status] *)

Section Status.

Local Open Scope outer_scope.

Context {W : Type}.
Variable sur : surroundings W.
Variable config : AgentConfig.t.

(** [min(100, (total / count) * 100)]: the second argument is returned only
    when it is the smaller one; the quotient is kept exact *)
Definition progress_percentage (total count : Z) : pyval :=
  let x := Qred (inject_Z total / inject_Z count * 100) in
  if Qle_bool 100 x then PInt 100 else PFloat x.

Definition get_booking_status : P W (dict pyval) :=
  me <- Outer.get_self ;;
  runtime <-
    match start_time me with
    | Some t0 => t <- Outer.now sur ;; Outer.ret (PFloat (Qred (t - t0)))
    | None => Outer.ret PNone
    end ;;
  progress <-
    (if AgentConfig.ticket_count config =? 0
     then Outer.raise (Exn OtherException "division by zero")
     else Outer.ret (progress_percentage (total_tickets_booked me)
                       (AgentConfig.ticket_count config))) ;;
  last_attempt_time <-
    match booking_results me with
    | _ :: _ => t <- Outer.now sur ;; Outer.ret (PStr (isoformat sur t))
    | [] => Outer.ret PNone
    end ;;
  Outer.ret
    [("is_running", PBool (is_running me));
     ("total_attempts", PInt (Z.of_nat (List.length (booking_results me))));
     ("successful_bookings",
      PInt (Z.of_nat (List.length (filter success (booking_results me)))));
     ("total_tickets_booked", PInt (total_tickets_booked me));
     ("target_ticket_count", PInt (AgentConfig.ticket_count config));
     ("progress_percentage", progress);
     ("runtime_seconds", runtime);
     ("start_time",
      match start_time me with
      | Some t0 => PStr (isoformat sur t0)
      | None => PNone
      end);
     ("last_attempt_time", last_attempt_time)].

End Status.

(** ** Vocabulary of the statements about a run of the agent *)

(** the steps of a run that matter to its owner *)
Inductive milestone : Type :=
| Launch              (* a browser driver is asked for *)
| Browsed             (* the scraper calls the browser or the LLM agent *)
| QuitBrowser                (* [driver.quit()] *)
| StatusMail
| ConfirmationMail
| FailureMail.

Definition milestone_of (h : happening) : option milestone :=
  match h with
  | HCall c =>
      match c with
      | NewChrome _ _ => Some Launch
      | NewFirefox _ _ => Some Launch
      | DriverQuit => Some QuitBrowser
      | SendBookingStatusUpdate _ _ => Some StatusMail
      | SendBookingConfirmation _ => Some ConfirmationMail
      | SendBookingFailureNotification _ => Some FailureMail
      | _ => None
      end
  | HScraper (EvCall _) => Some Browsed
  | _ => None
  end.

Fixpoint milestones (evs : list happening) : list milestone :=
  match evs with
  | [] => []
  | h :: rest =>
      match milestone_of h with
      | Some m => m :: milestones rest
      | None => milestones rest
      end
  end.

(** the mail that ends a run that got its browser *)
Definition closing_mail (rs : list BookingResult) : milestone :=
  if any_success rs then ConfirmationMail else FailureMail.

(** the fields after a run that appended the results [rs] *)
Definition with_results (me : agent_state) (rs : list BookingResult) : agent_state :=
  AgentState (is_running me) (booking_results me ++ rs) (sum_tickets rs)
    (start_time me).

(** the fields once [self.is_running = False] *)
Definition stopped (me : agent_state) : agent_state :=
  AgentState false (booking_results me) (total_tickets_booked me) (start_time me).

(** a configuration [validate_configuration] has nothing against *)
Definition valid_configuration (config : AgentConfig.t) : Prop :=
  AgentConfig.target_website_url config <> ""
  /\ AgentConfig.user_email config <> ""
  /\ AgentConfig.email_password config <> ""
  /\ AgentConfig.user_name config <> ""
  /\ (AgentConfig.llm_provider config = "openai" -> AgentConfig.openai_api_key config <> "")
  /\ (AgentConfig.llm_provider config = "anthropic" ->
      AgentConfig.anthropic_api_key config <> "")
  /\ (AgentConfig.llm_provider config = "gemini" -> AgentConfig.gemini_api_key config <> "")
  /\ 1 <= AgentConfig.ticket_count config <= 50.

(** ** [LLMAgent._fallback_form_data] in [src/src/llm_agent.py]

    What [generate_form_data] returns when the query to the model fails. *)

Module LLMAgent.

Definition fallback_value (user_info : dict string) (ticket_count : Z)
    (field : string) : string :=
  let field_lower := PyStr.lower field in
  if PyStr.contains "name" field_lower then
    Dict.get_default "name" "John Doe" user_info
  else if PyStr.contains "email" field_lower then
    Dict.get_default "email" "user@example.com" user_info
  else if PyStr.contains "phone" field_lower then
    Dict.get_default "phone" "+1234567890" user_info
  else if (PyStr.contains "quantity" field_lower
           || PyStr.contains "ticket" field_lower)%bool then
    PyStr.str_of_Z ticket_count
  else "".

Definition _fallback_form_data (form_fields : list string)
    (user_info : dict string) (ticket_count : Z) : dict string :=
  fold_left
    (fun data field => Dict.set field (fallback_value user_info ticket_count field) data)
    form_fields [].

End LLMAgent.


(** ** Vocabulary: a browser that starts and is not quit *)

(** the call [_setup_chrome] makes for its driver *)
Definition chrome_driver (headless : bool) (user_agent : string) : outer_call unit :=
  NewChrome (chrome_arguments headless user_agent)
    [("excludeSwitches", PList [PStr "enable-automation"]);
     ("useAutomationExtension", PBool false)].

(** what happens when the driver is made and the script after it raises [e] *)
Definition abandoned_start (headless : bool) (user_agent : string) (e : exn)
  : list happening :=
  [HCall NewUserAgent; HCall RandomUserAgent;
   HCall (chrome_driver headless user_agent);
   HCall HideWebdriver; HRaise e;
   HScraper (EvLog ERROR ("Failed to start browser: " ++ exn_msg e))].

(** ** Scripted surroundings *)

Module Office.

(** every outer call goes well, but the script that hides the automation
    flag, which raises [hide_error] if there is one; no agent can be made *)
Definition answer (hide_error : option exn) (A : Type) (c : outer_call A) (w : bool)
  : (exn + A) * bool :=
  match c in outer_call T return (exn + T) * bool with
  | NewUserAgent => (inr tt, w)
  | RandomUserAgent => (inr "Mozilla/5.0", w)
  | NewChrome _ _ => (inr tt, w)
  | HideWebdriver =>
      match hide_error with
      | Some e => (inl e, w)
      | None => (inr tt, w)
      end
  | NewFirefox _ _ => (inr tt, w)
  | DriverQuit => (inr tt, w)
  | SetupLogging _ => (inr tt, w)
  | NewLLMAgent _ _ =>
      (inl (Exn OtherException "OpenAI package not installed"), w)
  | SendBookingConfirmation _ => (inr true, w)
  | SendBookingFailureNotification _ => (inr true, w)
  | SendBookingStatusUpdate _ _ => (inr true, w)
  end.

(** the site [p] seen from an office whose clock stands still *)
Definition desk (p : Site.site) (hide_error : option exn) : surroundings bool :=
  Surroundings bool (Site.env p) (answer hide_error) (fun w => (0%Q, w))
    (fun _ => "2024-01-01 00:00:00") (fun _ => "2024-01-01T00:00:00").

Definition javascript_error : exn :=
  Exn OtherException "Message: javascript error: Cannot redefine property: webdriver".

(** three tickets for Jane, five attempts, no LLM provider *)
Definition jane_config : AgentConfig.t := {|
  AgentConfig.target_website_url := Site.url;
  AgentConfig.ticket_count := 3;
  AgentConfig.max_attempts := 5;
  AgentConfig.retry_interval := 5;
  AgentConfig.user_name := "Jane Doe";
  AgentConfig.user_email := "jane@x.com";
  AgentConfig.user_phone := "";
  AgentConfig.user_address := "";
  AgentConfig.email_password := "app-password";
  AgentConfig.smtp_server := "smtp.gmail.com";
  AgentConfig.smtp_port := 587;
  AgentConfig.llm_provider := "none";
  AgentConfig.openai_api_key := "";
  AgentConfig.anthropic_api_key := "";
  AgentConfig.gemini_api_key := "";
  AgentConfig.headless_browser := true;
  AgentConfig.browser_timeout := 30;
  AgentConfig.use_proxy := false;
  AgentConfig.proxy_url := "";
  AgentConfig.debug_mode := false;
  AgentConfig.captcha_solving_service := "none"
|}.

(** the agent before anything happened *)
Definition start : stage bool := Stage false [] idle.


End Office.

(** * Properties *)

(** ** The monad *)

Section MonadFacts.

Context {W : Type}.
Variable env : environment W.

Lemma never_raises_ret {A} (a : A) : never_raises (W := W) (ret a).
Proof. intros s. exists a, s. reflexivity. Qed.

Lemma never_raises_emit (ev : event) : never_raises (W := W) (emit ev).
Proof. intros s. eexists _, _. reflexivity. Qed.

Lemma never_raises_bind {A B} (m : M W A) (f : A -> M W B) :
  never_raises m -> (forall a, never_raises (f a)) -> never_raises (bind m f).
Proof.
  intros Hm Hf s. unfold bind.
  destruct (Hm s) as (a & s1 & ->). apply Hf.
Qed.

(** a [try] whose handler catches everything and returns cannot raise *)
Lemma never_raises_try {A} (m : M W A) (h : exn -> M W A) :
  (forall e, never_raises (h e)) -> never_raises (try_except m any_exception h).
Proof.
  intros Hh s. unfold try_except.
  destruct (m s) as [[e | a] s1]; simpl.
  - apply Hh.
  - eexists _, _. reflexivity.
Qed.

(** *** What a computation adds to the trace *)

Section Emits.

Variable ok : forall A, call A -> bool.

Lemma emits_ret {A} (a : A) : emits (W := W) ok (ret a).
Proof. intros s. exists []. simpl. rewrite app_nil_r. auto. Qed.

Lemma emits_emit (ev : event) : calls_satisfy ok ev -> emits (W := W) ok (emit ev).
Proof. intros H s. exists [ev]. simpl. auto. Qed.

Lemma emits_log lvl msg : emits (W := W) ok (log lvl msg).
Proof. apply emits_emit. exact I. Qed.

Lemma emits_sleep d : emits (W := W) ok (sleep d).
Proof. apply emits_emit. exact I. Qed.

Lemma emits_raise {A} (e : exn) : emits ok (@raise W A e).
Proof. intros s. exists [EvRaise e]. simpl. split; [reflexivity | repeat constructor]. Qed.

Lemma emits_perform {A} (c : call A) : ok A c = true -> emits ok (perform env c).
Proof.
  intros H s. unfold perform.
  destruct (oracle env c (world s)) as [[e | a] w'].
  - exists [EvCall c; EvRaise e]. simpl. repeat constructor. exact H.
  - exists [EvCall c]. simpl. repeat constructor. exact H.
Qed.

Lemma emits_random_uniform a b : emits ok (random_uniform env a b).
Proof.
  intros s. unfold random_uniform.
  destruct (uniform env a b (world s)) as [q w']. exists []. simpl.
  rewrite app_nil_r. auto.
Qed.

Lemma emits_bind {A B} (m : M W A) (f : A -> M W B) :
  emits ok m -> (forall a, emits ok (f a)) -> emits ok (bind m f).
Proof.
  intros Hm Hf s. unfold bind.
  destruct (Hm s) as (evs1 & E1 & F1).
  destruct (m s) as [[e | a] s1]; simpl in *.
  - exists evs1. auto.
  - destruct (Hf a s1) as (evs2 & E2 & F2).
    exists (evs1 ++ evs2)%list. rewrite E2, E1, app_assoc. split; [reflexivity|].
    apply Forall_app. auto.
Qed.

Lemma emits_try_except {A} (m : M W A) catches (h : exn -> M W A) :
  emits ok m -> (forall e, emits ok (h e)) -> emits ok (try_except m catches h).
Proof.
  intros Hm Hh s. unfold try_except.
  destruct (Hm s) as (evs1 & E1 & F1).
  destruct (m s) as [[e | a] s1]; simpl in *.
  - destruct (catches e).
    + destruct (Hh e s1) as (evs2 & E2 & F2).
      exists (evs1 ++ evs2)%list. rewrite E2, E1, app_assoc. split; [reflexivity|].
      apply Forall_app. auto.
    + exists evs1. auto.
  - exists evs1. auto.
Qed.

End Emits.

End MonadFacts.

Create HintDb emits_db.
#[export] Hint Resolve emits_ret emits_log emits_sleep emits_raise
  emits_random_uniform : emits_db.

(** break an [emits] goal down along the structure of the computation *)
Ltac emits_step :=
  match goal with
  | |- @emits _ _ _ (bind _ _) => apply emits_bind; [ | intros ]
  | |- @emits _ _ _ (try_except _ _ _) => apply emits_try_except; [ | intros ]
  | |- @emits _ _ _ (perform _ _) => apply emits_perform; reflexivity
  | |- @emits _ _ _ (lift ?r) => destruct r; simpl
  | |- @emits _ _ _ (match ?x with _ => _ end) => destruct x
  | |- @emits _ _ _ _ => solve [ auto with emits_db ]
  end.

Ltac emits_auto := repeat emits_step.

(** ** The helper methods never load a page *)

Section Helpers.

Context {W : Type}.
Variable env : environment W.
Variable cfg : settings.

Lemma quiet_wait_for_page_load : emits not_a_page_load (_wait_for_page_load env cfg).
Proof. unfold _wait_for_page_load. emits_auto. Qed.

Lemma quiet_random_delay : emits not_a_page_load (_random_delay env).
Proof. unfold _random_delay. emits_auto. Qed.

Lemma quiet_safe_click_round elem attempt : emits not_a_page_load (safe_click_round env elem attempt).
Proof. unfold safe_click_round. emits_auto. Qed.

Lemma quiet_safe_click_loop elem attempts : emits not_a_page_load (safe_click_loop env elem attempts).
Proof.
  induction attempts as [| attempt rest IH]; simpl.
  - emits_auto.
  - apply emits_bind; [apply quiet_safe_click_round |].
    intros [b |]; [emits_auto | exact IH].
Qed.

Lemma quiet_safe_click elem : emits not_a_page_load (_safe_click env elem).
Proof. apply quiet_safe_click_loop. Qed.

Lemma quiet_analyze_current_page url : emits not_a_page_load (_analyze_current_page env cfg url).
Proof. unfold _analyze_current_page. emits_auto. Qed.

Lemma quiet_is_ticket_page : emits not_a_page_load (_is_ticket_page env).
Proof. unfold _is_ticket_page. emits_auto. Qed.

Lemma quiet_needs_navigation : emits not_a_page_load (_needs_navigation env).
Proof. unfold _needs_navigation. emits_auto. Qed.

Lemma quiet_scan_next_steps steps : emits not_a_page_load (scan_next_steps (W := W) steps).
Proof.
  induction steps as [| step rest IH]; simpl.
  - emits_auto.
  - apply emits_bind; [emits_auto |].
    intros lowered. apply emits_bind; [emits_auto | intros _; exact IH].
Qed.

Lemma quiet_use_llm_analysis page_analysis :
  emits not_a_page_load (use_llm_analysis (W := W) page_analysis).
Proof.
  unfold use_llm_analysis.
  destruct (PyVal.truthy page_analysis); [| emits_auto].
  apply emits_bind; [emits_auto |]. intros [|]; [| emits_auto].
  apply emits_bind; [emits_auto |]. intros next_steps.
  apply emits_bind; [emits_auto |]. intros steps.
  apply quiet_scan_next_steps.
Qed.

Lemma quiet_click_first_booking_link selectors :
  emits not_a_page_load (click_first_booking_link env cfg selectors).
Proof.
  induction selectors as [| selector rest IH]; simpl.
  - emits_auto.
  - apply emits_try_except; [| intros _; exact IH].
    apply emits_bind; [emits_auto |]. intros elem.
    apply emits_bind; [apply quiet_safe_click |]. intros _.
    apply emits_bind; [apply quiet_wait_for_page_load |]. intros _.
    emits_auto.
Qed.

Lemma quiet_navigate_to_booking_page page_analysis :
  emits not_a_page_load (_navigate_to_booking_page env cfg page_analysis).
Proof.
  unfold _navigate_to_booking_page.
  apply emits_try_except; [| intros; emits_auto].
  apply emits_bind; [apply quiet_use_llm_analysis |]. intros _.
  apply quiet_click_first_booking_link.
Qed.

Lemma quiet_name_or_id elem : emits not_a_page_load (name_or_id env elem).
Proof. unfold name_or_id. emits_auto. Qed.

Lemma quiet_scan_inputs inputs : forall fields, emits not_a_page_load (scan_inputs env inputs fields).
Proof.
  induction inputs as [| input_elem rest IH]; intros fields; simpl.
  - emits_auto.
  - apply emits_bind; [emits_auto |]. intros ftype.
    apply emits_bind; [apply quiet_name_or_id |]. intros [name |]; [| apply IH].
    destruct (PyStr.truthy name && not_a_button ftype)%bool; [| apply IH].
    apply emits_bind; [emits_auto |]. intros required. apply IH.
Qed.

Lemma quiet_option_values options : emits not_a_page_load (option_values env options).
Proof.
  induction options as [| opt rest IH]; simpl.
  - emits_auto.
  - apply emits_bind; [emits_auto |]. intros v.
    apply emits_bind; [exact IH |]. intros vs. emits_auto.
Qed.

Lemma quiet_scan_selects selects : forall fields, emits not_a_page_load (scan_selects env selects fields).
Proof.
  induction selects as [| select_elem rest IH]; intros fields; simpl.
  - emits_auto.
  - apply emits_bind; [apply quiet_name_or_id |]. intros [name |]; [| apply IH].
    destruct (PyStr.truthy name); [| apply IH].
    apply emits_bind; [emits_auto |]. intros options.
    apply emits_bind; [apply quiet_option_values |]. intros values. apply IH.
Qed.

Lemma quiet_extract_form_fields : emits not_a_page_load (_extract_form_fields env).
Proof.
  unfold _extract_form_fields.
  apply emits_try_except; [| intros; emits_auto].
  apply emits_bind; [emits_auto |]. intros [| form forms]; [emits_auto |].
  apply emits_bind; [emits_auto |]. intros inputs.
  apply emits_bind; [apply quiet_scan_inputs |]. intros fields.
  apply emits_bind; [emits_auto |]. intros selects.
  apply quiet_scan_selects.
Qed.

Lemma quiet_fill_field generated_data field_name info :
  emits not_a_page_load (fill_field env generated_data field_name info).
Proof. unfold fill_field. emits_auto. Qed.

Lemma quiet_fill_fields generated_data items :
  forall filled_data, emits not_a_page_load (fill_fields env generated_data items filled_data).
Proof.
  induction items as [| [field_name info] rest IH]; intros filled_data; simpl.
  - emits_auto.
  - apply emits_bind.
    + apply emits_try_except; [| intros; emits_auto].
      apply emits_bind; [apply quiet_fill_field | intros; emits_auto].
    + intros [value |]; apply IH.
Qed.

Lemma quiet_fill_booking_form form_data user_info ticket_count :
  emits not_a_page_load (_fill_booking_form env cfg form_data user_info ticket_count).
Proof.
  unfold _fill_booking_form.
  apply emits_try_except; [| intros; emits_auto].
  apply emits_bind; [emits_auto |]. intros generated_data.
  apply quiet_fill_fields.
Qed.

Lemma quiet_find_captcha_element selectors :
  emits not_a_page_load (find_captcha_element env selectors).
Proof.
  induction selectors as [| selector rest IH]; simpl.
  - emits_auto.
  - apply emits_try_except; [emits_auto | intros _; exact IH].
Qed.

Lemma quiet_handle_captcha : emits not_a_page_load (_handle_captcha env cfg).
Proof.
  unfold _handle_captcha.
  apply emits_try_except; [| intros; emits_auto].
  apply emits_bind; [apply quiet_find_captcha_element |].
  intros [captcha_elem |]; emits_auto.
Qed.

Lemma quiet_verify_submission_success : emits not_a_page_load (_verify_submission_success env).
Proof. unfold _verify_submission_success. emits_auto. Qed.

Lemma quiet_click_first_submit selectors : emits not_a_page_load (click_first_submit env selectors).
Proof.
  induction selectors as [| selector rest IH]; simpl.
  - emits_auto.
  - apply emits_try_except; [| intros _; exact IH].
    apply emits_bind; [emits_auto |]. intros submit_btn.
    apply emits_bind; [apply quiet_safe_click |]. intros _.
    apply emits_bind; [emits_auto |]. intros _.
    apply quiet_verify_submission_success.
Qed.

Lemma quiet_submit_booking_form : emits not_a_page_load (_submit_booking_form env).
Proof.
  unfold _submit_booking_form.
  apply emits_try_except; [apply quiet_click_first_submit | intros; emits_auto].
Qed.

Lemma quiet_extract_confirmation_details : emits not_a_page_load (_extract_confirmation_details env).
Proof. unfold _extract_confirmation_details. emits_auto. Qed.

Lemma quiet_attempt_booking user_info ticket_count :
  emits not_a_page_load (_attempt_booking env cfg user_info ticket_count).
Proof.
  unfold _attempt_booking, attempt_booking_body.
  apply emits_try_except; [| intros; emits_auto].
  apply emits_bind; [apply quiet_extract_form_fields |]. intros form_data.
  destruct (is_empty form_data); [emits_auto |].
  apply emits_bind; [apply quiet_fill_booking_form |]. intros _.
  apply emits_bind; [apply quiet_handle_captcha |]. intros [|]; simpl; [| emits_auto].
  apply emits_bind; [apply quiet_submit_booking_form |]. intros [|]; [| emits_auto].
  apply emits_bind; [apply quiet_extract_confirmation_details | intros; emits_auto].
Qed.

End Helpers.

(** ** One attempt and one iteration *)

Section Iteration.

Context {W : Type}.
Variable env : environment W.
Variable cfg : settings.

Lemma returns_only_ret {A} (Q : A -> Prop) (a : A) :
  Q a -> returns_only (W := W) Q (ret a).
Proof. intros H s a' s' E. inversion E. subst. exact H. Qed.

Lemma returns_only_bind {A B} (Q : B -> Prop) (m : M W A) (f : A -> M W B) :
  (forall a, returns_only Q (f a)) -> returns_only Q (bind m f).
Proof.
  intros Hf s b s' E. unfold bind in E.
  destruct (m s) as [[e | a] s1]; [discriminate |]. exact (Hf a s1 b s' E).
Qed.

Lemma returns_only_try {A} (Q : A -> Prop) (m : M W A) catches h :
  returns_only Q m -> (forall e, returns_only Q (h e)) ->
  returns_only Q (try_except m catches h).
Proof.
  intros Hm Hh s a s' E. unfold try_except in E.
  destruct (m s) as [[e | a1] s1] eqn:Em.
  - destruct (catches e); [exact (Hh e s1 a s' E) | discriminate].
  - inversion E. subst. exact (Hm s a s' Em).
Qed.

Lemma result_for_failed n msg : result_for n (failed_result msg).
Proof. right. split; reflexivity. Qed.

(** an attempt books all the tickets it was asked for, or none *)
Lemma attempt_booking_result user_info ticket_count :
  returns_only (result_for ticket_count) (_attempt_booking env cfg user_info ticket_count).
Proof.
  unfold _attempt_booking, attempt_booking_body.
  apply returns_only_try;
    [| intros e; apply returns_only_ret, result_for_failed].
  apply returns_only_bind. intros form_data.
  destruct (is_empty form_data); [apply returns_only_ret, result_for_failed |].
  apply returns_only_bind. intros _.
  apply returns_only_bind. intros [|]; simpl;
    [| apply returns_only_ret, result_for_failed].
  apply returns_only_bind. intros [|];
    [| apply returns_only_ret, result_for_failed].
  apply returns_only_bind. intros confirmation.
  apply returns_only_ret. left. split; reflexivity.
Qed.

(** an attempt never raises *)
Lemma attempt_booking_never_raises user_info ticket_count :
  never_raises (_attempt_booking env cfg user_info ticket_count).
Proof. apply never_raises_try. intros e. apply never_raises_ret. Qed.

(** the navigation step never raises *)
Lemma navigate_never_raises page_analysis :
  never_raises (_navigate_to_booking_page env cfg page_analysis).
Proof.
  apply never_raises_try. intros e.
  apply never_raises_bind; [apply never_raises_emit | intros; apply never_raises_ret].
Qed.

Lemma tickets_of_successes_app rs r :
  tickets_of_successes (rs ++ [r]) = tickets_of_successes rs + booked r.
Proof.
  induction rs as [| r0 rs IH]; simpl.
  - unfold booked. lia.
  - rewrite IH. lia.
Qed.

Lemma page_loads_app evs1 evs2 :
  page_loads (evs1 ++ evs2) = (page_loads evs1 + page_loads evs2)%nat.
Proof. unfold page_loads. rewrite filter_app, length_app. reflexivity. Qed.

Lemma page_loads_quiet evs :
  Forall (calls_satisfy not_a_page_load) evs -> page_loads evs = 0%nat.
Proof.
  induction 1 as [| ev evs Hev _ IH]; [reflexivity |].
  unfold page_loads in *. simpl.
  destruct ev as [A c | | |]; simpl in *; try exact IH.
  rewrite Hev. exact IH.
Qed.

(** what the [try] block of an iteration returns *)
Lemma visit_page_outcome website_url user_info remaining :
  returns_only
    (fun o => match o with
              | Attempted r => result_for (Z.min remaining 4) r
              | _ => True
              end)
    (visit_page env cfg website_url user_info remaining).
Proof.
  unfold visit_page.
  do 4 (apply returns_only_bind; intros ?).
  destruct a2.
  - intros s o s' E. unfold bind in E.
    destruct (_attempt_booking env cfg user_info (Z.min remaining 4) s)
      as [[e | r] s1] eqn:Ea; [discriminate |].
    apply attempt_booking_result in Ea.
    destruct (report_result r s1) as [[e | u] s2]; [discriminate |].
    inversion E. subst. exact Ea.
  - apply returns_only_bind. intros [|].
    + apply returns_only_bind. intros found. apply returns_only_ret. exact I.
    + apply returns_only_bind. intros _. apply returns_only_ret. exact I.
Qed.

(** the [try] block loads the page once, first of all *)
Lemma visit_page_trace website_url user_info remaining s :
  exists evs,
    trace (snd (visit_page env cfg website_url user_info remaining s))
    = (trace s ++ EvCall (DriverGet website_url) :: evs)%list
    /\ Forall (calls_satisfy not_a_page_load) evs.
Proof.
  unfold visit_page, bind at 1, perform.
  destruct (oracle env (DriverGet website_url) (world s)) as [[e | []] w1].
  - exists [EvRaise e]. simpl. split; [reflexivity | repeat constructor].
  - match goal with |- context [?rest (State w1 ?t)] =>
      assert (Hq : emits not_a_page_load rest)
    end.
    { apply emits_bind; [apply quiet_wait_for_page_load |]. intros _.
      apply emits_bind; [apply quiet_analyze_current_page |]. intros page_analysis.
      apply emits_bind; [apply quiet_is_ticket_page |]. intros [|].
      - apply emits_bind; [apply quiet_attempt_booking |]. intros r.
        apply emits_bind; [unfold report_result; emits_auto | intros; emits_auto].
      - apply emits_bind; [apply quiet_needs_navigation |]. intros [|].
        + apply emits_bind; [apply quiet_navigate_to_booking_page | intros; emits_auto].
        + emits_auto. }
    destruct (Hq (State w1 (trace s ++ [EvCall (DriverGet website_url)])%list))
      as (evs & E & F).
    exists evs. split; [| exact F].
    simpl in E. rewrite <- app_assoc in E. exact E.
Qed.

Lemma page_loads_visit_page website_url user_info remaining s :
  page_loads (trace (snd (visit_page env cfg website_url user_info remaining s)))
  = S (page_loads (trace s)).
Proof.
  destruct (visit_page_trace website_url user_info remaining s) as (evs & -> & F).
  rewrite page_loads_app.
  change (page_loads (EvCall (DriverGet website_url) :: evs)) with (S (page_loads evs)).
  rewrite (page_loads_quiet evs F). lia.
Qed.

Lemma page_loads_log lvl msg (s : state W) :
  page_loads (trace (snd (log lvl msg s))) = page_loads (trace s).
Proof. simpl. rewrite page_loads_app. unfold page_loads at 2. simpl. lia. Qed.

Lemma random_delay_returns s :
  exists s', _random_delay env s = (inr tt, s')
             /\ page_loads (trace s') = page_loads (trace s).
Proof.
  unfold _random_delay, bind, random_uniform, sleep, emit.
  destruct (uniform env (1 # 1) (3 # 1) (world s)) as [q w']. simpl.
  eexists. split; [reflexivity |]. simpl.
  rewrite page_loads_app. unfold page_loads at 2. simpl. lia.
Qed.

Lemma wait_before_retry_returns ss s :
  exists s', wait_before_retry env ss s = (inr tt, s')
             /\ page_loads (trace s') = page_loads (trace s).
Proof.
  unfold wait_before_retry. destruct (0 <? remaining_tickets ss).
  - apply random_delay_returns.
  - exists s. split; reflexivity.
Qed.

(** the [try] statement of the loop returns, whatever its block does *)
Lemma guarded_visit_effect website_url user_info sc ss s :
  exists ctl sc' ss' s',
    guarded_visit env cfg website_url user_info sc ss s = (inr (ctl, sc', ss'), s')
    /\ booking_attempts sc' = booking_attempts sc
    /\ page_loads (trace s') = S (page_loads (trace s))
    /\ ((exists r,
           ctl = Continue
           /\ results ss' = (results ss ++ [r])%list
           /\ (result_for (Z.min (remaining_tickets ss) 4) r \/ result_for 0 r)
           /\ remaining_tickets ss' = remaining_tickets ss - booked r
           /\ successful_bookings sc' = successful_bookings sc + booked r)
        \/ (results ss' = results ss
            /\ remaining_tickets ss' = remaining_tickets ss
            /\ successful_bookings sc' = successful_bookings sc)).
Proof.
  unfold guarded_visit, try_except, bind.
  pose proof (page_loads_visit_page website_url user_info (remaining_tickets ss) s) as Hv.
  pose proof (visit_page_outcome website_url user_info (remaining_tickets ss) s) as Ho.
  destruct (visit_page env cfg website_url user_info (remaining_tickets ss) s)
    as [[e | o] s1]; simpl in Hv.
  - (* the handler of the loop *)
    match goal with |- context [log ERROR ?msg s1] =>
      pose proof (page_loads_log ERROR msg s1) as Hl1;
      destruct (log ERROR msg s1) as [[e1 | u1] s2] eqn:El; [discriminate El |]
    end.
    simpl in Hl1. do 4 eexists. split; [reflexivity |]. simpl.
    split; [reflexivity |]. split; [lia |].
    left. exists (failed_result (exn_msg e)).
    repeat split; try reflexivity.
    + right. apply result_for_failed.
    + unfold booked. simpl. lia.
    + unfold booked. simpl. lia.
  - specialize (Ho o s1 eq_refl).
    destruct o as [r | found |]; simpl.
    + destruct (success r) eqn:Hs; do 4 eexists; (split; [reflexivity |]); simpl;
        (split; [reflexivity |]); (split; [exact Hv |]);
        left; exists r; unfold booked; rewrite Hs; repeat split; auto; lia.
    + do 4 eexists. split; [reflexivity |]. simpl. auto 10.
    + do 4 eexists. split; [reflexivity |]. simpl. auto 10.
Qed.

(** what one iteration does to the counters, the locals and the trace;
    in particular it returns: no exception leaves an iteration *)
Lemma book_iteration_effect website_url user_info sc ss s :
  exists ctl sc' ss' s',
    book_iteration env cfg website_url user_info sc ss s = (inr (ctl, sc', ss'), s')
    /\ booking_attempts sc' = booking_attempts sc + 1
    /\ page_loads (trace s') = S (page_loads (trace s))
    /\ ((exists r,
           ctl = Continue
           /\ results ss' = (results ss ++ [r])%list
           /\ (result_for (Z.min (remaining_tickets ss) 4) r \/ result_for 0 r)
           /\ remaining_tickets ss' = remaining_tickets ss - booked r
           /\ successful_bookings sc' = successful_bookings sc + booked r)
        \/ (results ss' = results ss
            /\ remaining_tickets ss' = remaining_tickets ss
            /\ successful_bookings sc' = successful_bookings sc)).
Proof.
  unfold book_iteration, bind at 1, announce_attempt.
  match goal with |- context [log INFO ?msg s] =>
    pose proof (page_loads_log INFO msg s) as Hl;
    destruct (log INFO msg s) as [[e0 | u] s0] eqn:El; [discriminate El |]
  end.
  simpl in Hl. unfold bind.
  destruct (guarded_visit_effect website_url user_info (count_attempt sc) ss s0)
    as (ctl & sc' & ss' & s1 & -> & Ha & Hp & Hr).
  simpl in Ha, Hr.
  destruct ctl.
  - destruct (wait_before_retry_returns ss' s1) as (s2 & -> & Hw).
    exists Continue, sc', ss', s2.
    split; [reflexivity |]. split; [exact Ha |]. split; [lia |]. exact Hr.
  - exists Break, sc', ss', s1.
    split; [reflexivity |]. split; [exact Ha |]. split; [lia |]. exact Hr.
Qed.

End Iteration.

(** ** The loop *)

Section Loop.

Context {W : Type}.
Variable env : environment W.
Variable cfg : settings.

(** with the guard false the loop is over: nothing runs *)
Lemma book_loop_stop fuel website_url user_info sc ss s :
  loop_guard cfg sc ss = false ->
  book_loop env cfg fuel website_url user_info sc ss s = (inr (sc, ss), s).
Proof. intros Hg. destruct fuel; simpl; [| rewrite Hg]; reflexivity. Qed.

(** one more round of the loop *)
Lemma book_loop_step fuel website_url user_info sc ss s ctl sc' ss' s' :
  loop_guard cfg sc ss = true ->
  book_iteration env cfg website_url user_info sc ss s = (inr (ctl, sc', ss'), s') ->
  book_loop env cfg (S fuel) website_url user_info sc ss s
  = match ctl with
    | Break => (inr (sc', ss'), s')
    | Continue => book_loop env cfg fuel website_url user_info sc' ss' s'
    end.
Proof.
  intros Hg Hi. simpl. rewrite Hg. unfold bind. rewrite Hi.
  destruct ctl; reflexivity.
Qed.

(** what any number of rounds does *)
Lemma book_loop_effect website_url user_info fuel :
  forall sc ss s,
  exists sc' ss' s',
    book_loop env cfg fuel website_url user_info sc ss s = (inr (sc', ss'), s')
    /\ booking_attempts sc <= booking_attempts sc'
    /\ booking_attempts sc' <= Z.max (booking_attempts sc) (max_retries cfg)
    /\ Z.of_nat (page_loads (trace s'))
       = Z.of_nat (page_loads (trace s)) + (booking_attempts sc' - booking_attempts sc)
    /\ remaining_tickets ss' + successful_bookings sc'
       = remaining_tickets ss + successful_bookings sc
    /\ tickets_of_successes (results ss') - tickets_of_successes (results ss)
       = successful_bookings sc' - successful_bookings sc
    /\ (0 <= remaining_tickets ss -> 0 <= remaining_tickets ss')
    /\ Z.of_nat (List.length (results ss'))
       <= Z.of_nat (List.length (results ss)) + (booking_attempts sc' - booking_attempts sc).
Proof.
  induction fuel as [| fuel IH]; intros sc ss s.
  - exists sc, ss, s. simpl. repeat split; lia.
  - destruct (loop_guard cfg sc ss) eqn:Hg.
    + destruct (book_iteration_effect env cfg website_url user_info sc ss s)
        as (ctl & sc1 & ss1 & s1 & Hi & Ha & Hp & Hr).
      rewrite (book_loop_step fuel _ _ _ _ _ _ _ _ _ Hg Hi).
      unfold loop_guard in Hg. apply andb_prop in Hg. destruct Hg as [Hrem Hatt].
      apply Z.ltb_lt in Hrem. apply Z.ltb_lt in Hatt.
      assert (Hstep :
        remaining_tickets ss1 + successful_bookings sc1
        = remaining_tickets ss + successful_bookings sc
        /\ tickets_of_successes (results ss1) - tickets_of_successes (results ss)
           = successful_bookings sc1 - successful_bookings sc
        /\ 0 <= remaining_tickets ss1
        /\ Z.of_nat (List.length (results ss1)) <= Z.of_nat (List.length (results ss)) + 1).
      { destruct Hr as [(r & _ & Hres & Hfor & Hrm & Hsb) | (Hres & Hrm & Hsb)].
        - rewrite Hres, tickets_of_successes_app, length_app, Hrm, Hsb. simpl.
          assert (0 <= booked r <= remaining_tickets ss).
          { unfold booked.
            destruct Hfor as [[[Hs Ht] | [Hs Ht]] | [[Hs Ht] | [Hs Ht]]];
              rewrite Hs; lia. }
          repeat split; lia.
        - rewrite Hres, Hrm, Hsb. repeat split; lia. }
      destruct Hstep as (H1 & H2 & H3 & H4).
      destruct ctl.
      * destruct (IH sc1 ss1 s1) as (sc' & ss' & s' & -> & I1 & I2 & I3 & I4 & I5 & I6 & I7).
        exists sc', ss', s'. split; [reflexivity |].
        repeat split; try lia.
      * exists sc1, ss1, s1. split; [reflexivity |].
        repeat split; try lia.
    + rewrite (book_loop_stop _ _ _ _ _ _ Hg).
      exists sc, ss, s. split; [reflexivity |]. repeat split; lia.
Qed.

(** the budget is enough: more rounds change nothing *)
Lemma book_loop_enough website_url user_info fuel :
  forall sc ss s,
    (attempt_budget cfg sc <= fuel)%nat ->
    book_loop env cfg (S fuel) website_url user_info sc ss s
    = book_loop env cfg fuel website_url user_info sc ss s.
Proof.
  induction fuel as [| fuel IH]; intros sc ss s Hb.
  - assert (Hg : loop_guard cfg sc ss = false).
    { unfold attempt_budget in Hb. unfold loop_guard.
      apply andb_false_iff. right. apply Z.ltb_ge. lia. }
    rewrite !(book_loop_stop _ _ _ _ _ _ Hg). reflexivity.
  - destruct (loop_guard cfg sc ss) eqn:Hg.
    + destruct (book_iteration_effect env cfg website_url user_info sc ss s)
        as (ctl & sc1 & ss1 & s1 & Hi & Ha & _).
      rewrite !(book_loop_step _ _ _ _ _ _ _ _ _ _ Hg Hi).
      destruct ctl; [| reflexivity].
      apply IH. unfold attempt_budget in *. rewrite Ha. lia.
    + rewrite !(book_loop_stop _ _ _ _ _ _ Hg). reflexivity.
Qed.

Lemma book_loop_budget website_url user_info sc ss s extra :
  book_loop env cfg (attempt_budget cfg sc + extra) website_url user_info sc ss s
  = book_loop env cfg (attempt_budget cfg sc) website_url user_info sc ss s.
Proof.
  induction extra as [| extra IH].
  - rewrite Nat.add_0_r. reflexivity.
  - rewrite Nat.add_succ_r, book_loop_enough; [exact IH | lia].
Qed.

End Loop.

(** * The claims *)

(** ** C2: the fallback form filler *)

(** C2 (counterexample).  On the fields full_name, email_addr and qty, with
    Jane Doe's name and email and three tickets, the fallback filler does
    not produce the mapping that gives qty the value "3". *)
Lemma C2_qty_is_not_filled :
  _fallback_form_data Site.jane_form Site.jane 3
  <> [("full_name", "Jane Doe"); ("email_addr", "jane@x.com"); ("qty", "3")].
Proof. vm_compute. discriminate. Qed.

(** C2 (amended).  On those fields the fallback filler produces exactly
    full_name: "Jane Doe", email_addr: "jane@x.com", qty: "": the name qty
    contains none of quantity, ticket and count, so it is an unmatched field
    and gets the empty string. *)
Theorem C2_fallback_form_data :
  _fallback_form_data Site.jane_form Site.jane 3
  = [("full_name", "Jane Doe"); ("email_addr", "jane@x.com"); ("qty", "")]
  /\ PyStr.any_in ["quantity"; "ticket"; "count"] (PyStr.lower "qty") = false.
Proof. split; vm_compute; reflexivity. Qed.

(** ** C6: nothing to book *)

Section NothingToBook.

Context {W : Type}.
Variable env : environment W.
Variable cfg : settings.

(** C6.  Called for zero tickets, [book_tickets] returns the empty list and
    leaves the scraper, the world and the trace as they were: no page is
    loaded, nothing is called, nothing is logged. *)
Theorem C6_zero_tickets website_url user_info sc s :
  book_tickets env cfg website_url user_info 0 sc s = (inr ([], sc), s).
Proof.
  unfold book_tickets, bind.
  rewrite book_loop_stop; [reflexivity |].
  unfold loop_guard. reflexivity.
Qed.

End NothingToBook.

(** ** C8: the confirmation extractor *)

(** the patterns are read as the source writes them *)
Lemma conf_patterns_compile :
  map Re.compile conf_patterns
  = map (fun kw =>
           Some (Re.after_word (fst kw)
                   (Re.cat [Re.Star Re.Space;
                            Re.Opt (Re.Alt (Re.word (snd kw)) (Re.Lit "#"));
                            Re.Star Re.Space; Re.Opt (Re.Lit ":"); Re.Star Re.Space;
                            Re.Group (Re.Plus (Re.Class [("A", "Z"); ("0", "9")]%char))])))
        [("confirmation", "number"); ("order", "number"); ("booking", "reference")].
Proof. vm_compute. reflexivity. Qed.

Lemma cost_patterns_compile :
  map Re.compile cost_patterns
  = map (fun kw =>
           Some (Re.after_word kw
                   (Re.cat [Re.Star Re.Space; Re.Opt (Re.Lit ":");
                            Re.Star Re.Space; Re.Opt (Re.Lit "$");
                            Re.Group (Re.cat [Re.Plus (Re.Class [("0", "9")]%char);
                                              Re.Opt (Re.Lit ".");
                                              Re.Star (Re.Class [("0", "9")]%char)])])))
        ["total"; "amount"].
Proof. vm_compute. reflexivity. Qed.

(** the first pattern that matches decides; the patterns after it are not tried *)
Lemma first_match_wins pattern rest text group1 :
  Re.search pattern text = Re.Match group1 ->
  Re.first_match (pattern :: rest) text = Re.Match group1.
Proof. intros H. simpl. rewrite H. reflexivity. Qed.

(** a pattern that does not match hands over to the next one *)
Lemma first_match_next pattern rest text :
  Re.search pattern text = Re.NoMatch ->
  Re.first_match (pattern :: rest) text = Re.first_match rest text.
Proof. intros H. simpl. rewrite H. reflexivity. Qed.


(** the page the scripted shop shows after a booking holds the receipt under
    a heading that no pattern matches: there the number is found *)
Lemma thank_you_page_details :
  fst (lift (W := bool)
         (confirmation_details (Site.env Site.shop) (Site.markup Site.shop true))
         Site.start)
  = inr [("number", PStr "AB12345");
         ("total_cost", PFloat (91 # 2));
         ("full_content", PStr "Thank youYour order number: AB12345 Total: $45.50")].
Proof. vm_compute. reflexivity. Qed.

(** ** C7: the CAPTCHA handler *)

Section Captcha.

Context {W : Type}.
Variable env : environment W.
Variable cfg : settings.

(** the detection loop makes no call to the LLM agent *)
Lemma find_captcha_element_no_llm selectors :
  emits not_an_llm_call (find_captcha_element env selectors).
Proof.
  induction selectors as [| selector rest IH]; simpl.
  - emits_auto.
  - apply emits_try_except; [emits_auto | intros _; exact IH].
Qed.

Lemma find_captcha_element_none selectors :
  (forall selector, In selector selectors -> never_matches env selector) ->
  forall s, exists s', find_captcha_element env selectors s = (inr None, s').
Proof.
  induction selectors as [| selector rest IH]; intros Hno s; simpl.
  - exists s. reflexivity.
  - unfold try_except, bind, perform.
    destruct (Hno selector (or_introl eq_refl) (world s)) as (e & w' & -> & Hcls).
    unfold is_a. rewrite Hcls. simpl.
    apply IH. intros sel Hin. apply Hno. right. exact Hin.
Qed.

Lemma find_captcha_element_some selectors :
  (exists selector, In selector selectors /\ always_matches env selector) ->
  forall s, (exists elem s', find_captcha_element env selectors s = (inr (Some elem), s'))
            \/ (exists e s', find_captcha_element env selectors s = (inl e, s')).
Proof.
  induction selectors as [| selector rest IH]; intros (sel & Hin & Hyes) s.
  - destruct Hin.
  - simpl. unfold try_except, bind, perform.
    destruct (oracle env (DriverFindElement CSS_SELECTOR selector) (world s))
      as [[e | elem] w'] eqn:Eo.
    + destruct (is_a NoSuchElementException e).
      * apply IH. destruct Hin as [<- | Hin].
        -- destruct (Hyes (world s)) as (elem & w'' & Eo'). congruence.
        -- exists sel. auto.
      * right. eexists _, _. reflexivity.
    + left. eexists _, _. reflexivity.
Qed.

(** C7.  When none of the CAPTCHA selectors matches, [_handle_captcha]
    returns true and what it adds to the trace holds no call to the LLM
    agent.  When some selector finds an element and no agent is configured,
    it returns false. *)
Theorem C7_handle_captcha :
  ((forall selector, In selector captcha_selectors -> never_matches env selector) ->
   forall s, exists s' evs,
     _handle_captcha env cfg s = (inr true, s')
     /\ trace s' = (trace s ++ evs)%list
     /\ Forall (calls_satisfy not_an_llm_call) evs)
  /\ (llm_agent cfg = false ->
      (exists selector, In selector captcha_selectors /\ always_matches env selector) ->
      forall s, exists s', _handle_captcha env cfg s = (inr false, s')).
Proof.
  split.
  - intros Hno s.
    destruct (find_captcha_element_none captcha_selectors Hno s) as (s' & Ef).
    destruct (find_captcha_element_no_llm captcha_selectors s) as (evs & Et & Fq).
    rewrite Ef in Et. simpl in Et.
    exists s', evs. split; [| split; assumption].
    unfold _handle_captcha, try_except, bind. rewrite Ef. reflexivity.
  - intros Hllm Hyes s.
    unfold _handle_captcha, try_except, bind.
    destruct (find_captcha_element_some captcha_selectors Hyes s)
      as [(elem & s' & ->) | (e & s' & ->)].
    + rewrite Hllm. simpl. eexists. reflexivity.
    + simpl. eexists. reflexivity.
Qed.

End Captcha.

Lemma C7_handle_captcha_witness :
  fst (_handle_captcha (Site.env Site.shop) (Site.plain 5) Site.start) = inr true
  /\ fst (_handle_captcha (Site.env Site.guarded_shop) (Site.plain 5) Site.start)
     = inr false.
Proof.
  split.
  - destruct (C7_handle_captcha (Site.env Site.shop) (Site.plain 5)) as [Hnone _].
    destruct (Hnone
                (fun selector _ w =>
                   ex_intro _ (Site.no_such_element selector)
                     (ex_intro _ w (conj eq_refl eq_refl)))
                Site.start) as (s' & evs & E & _).
    rewrite E. reflexivity.
  - destruct (C7_handle_captcha (Site.env Site.guarded_shop) (Site.plain 5))
      as [_ Hfound].
    destruct (Hfound eq_refl
                (ex_intro _ "img[src*='captcha']"
                   (conj (or_introl eq_refl)
                      (fun w => ex_intro _ 9%nat (ex_intro _ w eq_refl))))
                Site.start) as (s' & E).
    rewrite E. reflexivity.
Defined.

(** ** The orchestrator: C1, C3, C9 *)

Section Orchestrator.

Context {W : Type}.
Variable env : environment W.
Variable cfg : settings.

Lemma report_result_returns r (s : state W) :
  exists s', report_result r s = (inr tt, s').
Proof. unfold report_result. destruct (success r); eexists; reflexivity. Qed.

(** on a page found bookable the [try] block is one attempt, for
    [min(remaining_tickets, 4)] tickets *)
Lemma visit_page_bookable website_url user_info remaining s page_analysis s_cls :
  classify_page env cfg website_url s = (inr (page_analysis, true), s_cls) ->
  exists r s_att s1,
    _attempt_booking env cfg user_info (Z.min remaining 4) s_cls = (inr r, s_att)
    /\ report_result r s_att = (inr tt, s1)
    /\ visit_page env cfg website_url user_info remaining s = (inr (Attempted r), s1).
Proof.
  intros Hc. unfold classify_page, visit_page, bind in *.
  destruct (perform env (DriverGet website_url) s) as [[e | []] s1]; [discriminate |].
  destruct (_wait_for_page_load env cfg s1) as [[e | []] s2]; [discriminate |].
  destruct (_analyze_current_page env cfg website_url s2) as [[e | pa] s3];
    [discriminate |].
  destruct (_is_ticket_page env s3) as [[e | b] s4]; [discriminate |].
  injection Hc as -> -> ->.
  destruct (attempt_booking_never_raises env cfg user_info (Z.min remaining 4) s_cls)
    as (r & s_att & Ha).
  destruct (report_result_returns r s_att) as (s5 & Hr).
  exists r, s_att, s5. rewrite Ha, Hr. auto.
Qed.

(** on a page not found bookable the [try] block goes on with the
    navigation check *)
Lemma visit_page_not_bookable website_url user_info remaining s page_analysis s_cls :
  classify_page env cfg website_url s = (inr (page_analysis, false), s_cls) ->
  visit_page env cfg website_url user_info remaining s
  = match _needs_navigation env s_cls with
    | (inr true, s_nav) =>
        match _navigate_to_booking_page env cfg page_analysis s_nav with
        | (inr found, s_end) => (inr (Navigated found), s_end)
        | (inl e, s_end) => (inl e, s_end)
        end
    | (inr false, s_nav) =>
        (inr Unidentified,
         snd (log ERROR "Unable to identify page type or find booking interface" s_nav))
    | (inl e, s_nav) => (inl e, s_nav)
    end.
Proof.
  intros Hc. unfold classify_page, visit_page, bind in *.
  destruct (perform env (DriverGet website_url) s) as [[e | []] s1]; [discriminate |].
  destruct (_wait_for_page_load env cfg s1) as [[e | []] s2]; [discriminate |].
  destruct (_analyze_current_page env cfg website_url s2) as [[e | pa] s3];
    [discriminate |].
  destruct (_is_ticket_page env s3) as [[e | b] s4]; [discriminate |].
  injection Hc as -> -> ->.
  destruct (_needs_navigation env s_cls) as [[e | [|]] s_nav]; reflexivity.
Qed.

Lemma bind_returns {A B} (m : M W A) (f : A -> M W B) s a s1 :
  m s = (inr a, s1) -> bind m f s = f a s1.
Proof. intros H. unfold bind. rewrite H. reflexivity. Qed.

Lemma announce_attempt_returns sc (s : state W) :
  announce_attempt cfg sc s = (inr tt, snd (announce_attempt cfg sc s)).
Proof. reflexivity. Qed.

(** an iteration whose [try] block ends without exception *)
Lemma book_iteration_of_outcome website_url user_info sc ss s o s1 :
  visit_page env cfg website_url user_info (remaining_tickets ss)
    (snd (announce_attempt cfg (count_attempt sc) s)) = (inr o, s1) ->
  exists s',
    book_iteration env cfg website_url user_info sc ss s
    = (inr (record_outcome o (count_attempt sc) ss), s')
    /\ (fst (fst (record_outcome o (count_attempt sc) ss)) = Break -> s' = s1).
Proof.
  intros Hv. unfold book_iteration.
  rewrite (bind_returns _ _ _ _ _ (announce_attempt_returns (count_attempt sc) s)).
  assert (Hg : guarded_visit env cfg website_url user_info (count_attempt sc) ss
                 (snd (announce_attempt cfg (count_attempt sc) s))
               = (inr (record_outcome o (count_attempt sc) ss), s1)).
  { unfold guarded_visit, try_except.
    rewrite (bind_returns _ _ _ _ _ Hv). reflexivity. }
  rewrite (bind_returns _ _ _ _ _ Hg).
  destruct (record_outcome o (count_attempt sc) ss) as [[[|] sc'] ss'].
  - destruct (wait_before_retry_returns env ss' s1) as (s' & Hw & _).
    rewrite (bind_returns _ _ _ _ _ Hw).
    exists s'. split; [reflexivity | discriminate].
  - exists s1. split; reflexivity.
Qed.

(** an iteration whose [try] block raises *)
Lemma book_iteration_of_exception website_url user_info sc ss s e s1 :
  visit_page env cfg website_url user_info (remaining_tickets ss)
    (snd (announce_attempt cfg (count_attempt sc) s)) = (inl e, s1) ->
  exists s',
    book_iteration env cfg website_url user_info sc ss s
    = (inr (Continue, count_attempt sc, record_exception e ss), s').
Proof.
  intros Hv. unfold book_iteration.
  rewrite (bind_returns _ _ _ _ _ (announce_attempt_returns (count_attempt sc) s)).
  assert (Hg : exists s2,
             guarded_visit env cfg website_url user_info (count_attempt sc) ss
               (snd (announce_attempt cfg (count_attempt sc) s))
             = (inr (Continue, count_attempt sc, record_exception e ss), s2)).
  { unfold guarded_visit, try_except, bind at 1. rewrite Hv.
    eexists. reflexivity. }
  destruct Hg as (s2 & Hg).
  rewrite (bind_returns _ _ _ _ _ Hg).
  destruct (wait_before_retry_returns env (record_exception e ss) s2) as (s' & Hw & _).
  rewrite (bind_returns _ _ _ _ _ Hw).
  exists s'. reflexivity.
Qed.

Lemma book_iteration_never_raises website_url user_info sc ss :
  never_raises (book_iteration env cfg website_url user_info sc ss).
Proof.
  intros s.
  destruct (book_iteration_effect env cfg website_url user_info sc ss s)
    as (ctl & sc' & ss' & s' & E & _).
  eexists _, _. exact E.
Qed.

Lemma book_tickets_never_raises website_url user_info ticket_count sc :
  never_raises (book_tickets env cfg website_url user_info ticket_count sc).
Proof.
  intros s. unfold book_tickets, bind.
  destruct (book_loop_effect env cfg website_url user_info (attempt_budget cfg sc)
              sc (Session [] ticket_count) s) as (sc' & ss' & s' & -> & _).
  eexists _, _. reflexivity.
Qed.

(** every helper step of an attempt catches what is raised inside it *)
Lemma log_then_ret_never_raises {A} lvl msg (a : A) :
  never_raises (W := W) (log lvl msg ;;; ret a).
Proof.
  apply never_raises_bind; [apply never_raises_emit | intros; apply never_raises_ret].
Qed.

Lemma extract_form_fields_never_raises : never_raises (_extract_form_fields env).
Proof. apply never_raises_try. intros e. apply log_then_ret_never_raises. Qed.

Lemma fill_booking_form_never_raises form_data user_info ticket_count :
  never_raises (_fill_booking_form env cfg form_data user_info ticket_count).
Proof. apply never_raises_try. intros e. apply log_then_ret_never_raises. Qed.

Lemma handle_captcha_never_raises : never_raises (_handle_captcha env cfg).
Proof. apply never_raises_try. intros e. apply log_then_ret_never_raises. Qed.

Lemma submit_booking_form_never_raises : never_raises (_submit_booking_form env).
Proof. apply never_raises_try. intros e. apply log_then_ret_never_raises. Qed.

Lemma extract_confirmation_details_never_raises :
  never_raises (_extract_confirmation_details env).
Proof. apply never_raises_try. intros e. apply log_then_ret_never_raises. Qed.

Lemma analyze_current_page_never_raises website_url :
  never_raises (_analyze_current_page env cfg website_url).
Proof.
  unfold _analyze_current_page. destruct (llm_agent cfg); simpl.
  - apply never_raises_try. intros e. apply log_then_ret_never_raises.
  - apply never_raises_ret.
Qed.

(** so the [try] block of an attempt never raises, and its handler never runs *)
Lemma attempt_booking_body_never_raises user_info ticket_count :
  never_raises (attempt_booking_body env cfg user_info ticket_count).
Proof.
  unfold attempt_booking_body.
  apply never_raises_bind; [apply extract_form_fields_never_raises |].
  intros form_data. destruct (is_empty form_data); [apply never_raises_ret |].
  apply never_raises_bind; [apply fill_booking_form_never_raises |]. intros _.
  apply never_raises_bind; [apply handle_captcha_never_raises |].
  intros [|]; simpl; [| apply never_raises_ret].
  apply never_raises_bind; [apply submit_booking_form_never_raises |].
  intros [|]; [| apply never_raises_ret].
  apply never_raises_bind; [apply extract_confirmation_details_never_raises |].
  intros confirmation. apply never_raises_ret.
Qed.

Lemma attempt_booking_is_its_body user_info ticket_count s :
  _attempt_booking env cfg user_info ticket_count s
  = attempt_booking_body env cfg user_info ticket_count s.
Proof.
  unfold _attempt_booking, try_except.
  destruct (attempt_booking_body_never_raises user_info ticket_count s)
    as (r & s' & ->).
  reflexivity.
Qed.

(** a failed attempt carries one of three fixed messages *)
Lemma attempt_booking_messages user_info ticket_count :
  returns_only
    (fun r => success r = false -> In (error_message r) attempt_failure_messages)
    (_attempt_booking env cfg user_info ticket_count).
Proof.
  intros s r s' E. rewrite attempt_booking_is_its_body in E. revert s r s' E.
  change (returns_only
            (fun r => success r = false -> In (error_message r) attempt_failure_messages)
            (attempt_booking_body env cfg user_info ticket_count)).
  unfold attempt_booking_body, attempt_failure_messages.
  apply returns_only_bind. intros form_data.
  destruct (is_empty form_data);
    [apply returns_only_ret; intros _; simpl; auto |].
  apply returns_only_bind. intros _.
  apply returns_only_bind. intros [|]; simpl;
    [| apply returns_only_ret; intros _; simpl; auto].
  apply returns_only_bind. intros [|];
    [| apply returns_only_ret; intros _; simpl; auto].
  apply returns_only_bind. intros confirmation.
  apply returns_only_ret. simpl. discriminate.
Qed.

(** C1 (amended).  On a page found not bookable but in need of navigation,
    the value of the navigation step is dropped: whatever the analysis of
    the page suggests and whether or not a link was found and clicked, the
    iteration appends no result, does not break, and the loop goes on with
    the next attempt while tickets remain and the budget lasts.  The loop
    breaks at once on a page that is neither bookable nor in need of
    navigation. *)
Theorem C1_navigation_result_is_dropped
    website_url user_info sc ss s page_analysis s_cls s_nav fuel :
  classify_page env cfg website_url (snd (announce_attempt cfg (count_attempt sc) s))
  = (inr (page_analysis, false), s_cls) ->
  loop_guard cfg sc ss = true ->
  (forall found s_end,
      _needs_navigation env s_cls = (inr true, s_nav) ->
      _navigate_to_booking_page env cfg page_analysis s_nav = (inr found, s_end) ->
      exists s',
        book_iteration env cfg website_url user_info sc ss s
        = (inr (Continue, count_attempt sc, ss), s')
        /\ book_loop env cfg (S fuel) website_url user_info sc ss s
           = book_loop env cfg fuel website_url user_info (count_attempt sc) ss s')
  /\ (_needs_navigation env s_cls = (inr false, s_nav) ->
      exists s',
        book_iteration env cfg website_url user_info sc ss s
        = (inr (Break, count_attempt sc, ss), s')
        /\ book_loop env cfg (S fuel) website_url user_info sc ss s
           = (inr (count_attempt sc, ss), s')).
Proof.
  intros Hc Hg.
  pose proof (visit_page_not_bookable website_url user_info (remaining_tickets ss)
                _ _ _ Hc) as Hv.
  split.
  - intros found s_end Hn Hnav. rewrite Hn, Hnav in Hv.
    destruct (book_iteration_of_outcome _ _ sc ss s _ _ Hv) as (s' & Hi & _).
    simpl in Hi. exists s'. split; [exact Hi |].
    rewrite (book_loop_step env cfg fuel _ _ _ _ _ _ _ _ _ Hg Hi). reflexivity.
  - intros Hn. rewrite Hn in Hv.
    destruct (book_iteration_of_outcome _ _ sc ss s _ _ Hv) as (s' & Hi & _).
    simpl in Hi. exists s'. split; [exact Hi |].
    rewrite (book_loop_step env cfg fuel _ _ _ _ _ _ _ _ _ Hg Hi). reflexivity.
Qed.

(** C3 (amended).  No exception leaves an attempt, an iteration or
    [book_tickets].  An exception that reaches the handler of the loop (one
    raised while the page is loaded, awaited or classified) becomes a failed
    result with no ticket and the message of the exception, and the loop
    continues.  An exception raised inside a helper step of an attempt is
    caught by that helper: a failed attempt carries one of three fixed
    messages, not the message of an exception. *)
Theorem C3_exceptions_are_absorbed website_url user_info sc ss :
  (forall ticket_count, never_raises (_attempt_booking env cfg user_info ticket_count))
  /\ never_raises (book_iteration env cfg website_url user_info sc ss)
  /\ (forall ticket_count,
        never_raises (book_tickets env cfg website_url user_info ticket_count sc))
  /\ (forall s e s1,
        visit_page env cfg website_url user_info (remaining_tickets ss)
          (snd (announce_attempt cfg (count_attempt sc) s)) = (inl e, s1) ->
        exists s',
          book_iteration env cfg website_url user_info sc ss s
          = (inr (Continue, count_attempt sc,
                  Session (results ss ++ [mkBookingResult false 0 (PStr "") (exn_msg e)
                                            None (PFloat 0)])
                    (remaining_tickets ss)), s'))
  /\ (never_raises (_extract_form_fields env)
      /\ (forall form_data ticket_count,
            never_raises (_fill_booking_form env cfg form_data user_info ticket_count))
      /\ never_raises (_handle_captcha env cfg)
      /\ never_raises (_submit_booking_form env)
      /\ never_raises (_extract_confirmation_details env)
      /\ never_raises (_analyze_current_page env cfg website_url)
      /\ (forall page_analysis,
            never_raises (_navigate_to_booking_page env cfg page_analysis)))
  /\ (forall ticket_count s r s',
        _attempt_booking env cfg user_info ticket_count s = (inr r, s') ->
        success r = false ->
        In (error_message r)
           ["No booking form found"; "CAPTCHA solving failed"; "Form submission failed"]).
Proof.
  split; [intros; apply attempt_booking_never_raises |].
  split; [apply book_iteration_never_raises |].
  split; [intros; apply book_tickets_never_raises |].
  split; [intros s e s1 Hv; exact (book_iteration_of_exception _ _ _ _ _ _ _ Hv) |].
  split.
  - split; [apply extract_form_fields_never_raises |].
    split; [intros; apply fill_booking_form_never_raises |].
    split; [apply handle_captcha_never_raises |].
    split; [apply submit_booking_form_never_raises |].
    split; [apply extract_confirmation_details_never_raises |].
    split; [apply analyze_current_page_never_raises |].
    intros; apply navigate_never_raises.
  - intros ticket_count s r s' E. exact (attempt_booking_messages _ _ _ _ _ E).
Qed.

(** C9.  On a page found bookable the iteration makes one attempt, for
    exactly [min(remaining_tickets, 4)] tickets, and appends its result.  A
    successful result reports that many tickets booked, and that number is
    taken from [remaining_tickets] (and added to [successful_bookings]); a
    failed one leaves both as they were. *)
Theorem C9_bookable_page_attempt website_url user_info sc ss s page_analysis s_cls :
  classify_page env cfg website_url (snd (announce_attempt cfg (count_attempt sc) s))
  = (inr (page_analysis, true), s_cls) ->
  let quantity := Z.min (remaining_tickets ss) 4 in
  exists r s_att s',
    _attempt_booking env cfg user_info quantity s_cls = (inr r, s_att)
    /\ (success r = true ->
        tickets_booked r = quantity
        /\ book_iteration env cfg website_url user_info sc ss s
           = (inr (Continue,
                   Scraper (booking_attempts sc + 1) (successful_bookings sc + quantity),
                   Session (results ss ++ [r]) (remaining_tickets ss - quantity)), s'))
    /\ (success r = false ->
        book_iteration env cfg website_url user_info sc ss s
        = (inr (Continue,
                Scraper (booking_attempts sc + 1) (successful_bookings sc),
                Session (results ss ++ [r]) (remaining_tickets ss)), s')).
Proof.
  intros Hc quantity.
  destruct (visit_page_bookable website_url user_info (remaining_tickets ss) _ _ _ Hc)
    as (r & s_att & s1 & Ha & _ & Hv).
  destruct (book_iteration_of_outcome _ _ sc ss s _ _ Hv) as (s' & Hi & _).
  exists r, s_att, s'. split; [exact Ha |].
  pose proof (attempt_booking_result env cfg user_info quantity s_cls r s_att Ha) as Hr.
  simpl in Hi. split; intros Hs; rewrite Hs in Hi.
  - destruct Hr as [[_ Ht] | [Hs' _]]; [| congruence].
    split; [exact Ht |]. rewrite Ht in Hi. exact Hi.
  - exact Hi.
Qed.

End Orchestrator.

(** C1 (counterexample).  A landing page that needs navigation and whose
    link is never clickable: the navigation step finds nothing, yet the
    iteration continues and the run makes all three attempts. *)
Lemma C1_run_goes_on_after_failed_navigation :
  fst (visit_page (Site.env Site.landing) (Site.plain 3) Site.url Site.jane 2
         (snd (announce_attempt (Site.plain 3) (count_attempt fresh) Site.start)))
  = inr (Navigated false)
  /\ fst (book_iteration (Site.env Site.landing) (Site.plain 3) Site.url Site.jane
            fresh (Session [] 2) Site.start)
     = inr (Continue, Scraper 1 0, Session [] 2)
  /\ fst (book_tickets (Site.env Site.landing) (Site.plain 3) Site.url Site.jane 2
            fresh Site.start)
     = inr ([], Scraper 3 0)
  /\ page_loads (trace (snd (book_tickets (Site.env Site.landing) (Site.plain 3)
                                Site.url Site.jane 2 fresh Site.start))) = 3%nat.
Proof. repeat split; vm_compute; reflexivity. Qed.

Lemma C1_navigation_result_is_dropped_witness :
  fst (book_iteration (Site.env Site.landing) (Site.plain 3) Site.url Site.jane
         fresh (Session [] 2) Site.start)
  = inr (Continue, Scraper 1 0, Session [] 2)
  /\ fst (book_iteration (Site.env Site.blank) (Site.plain 3) Site.url Site.jane
            fresh (Session [] 2) Site.start)
     = inr (Break, Scraper 1 0, Session [] 2).
Proof.
  split.
  - pose (s0 := snd (announce_attempt (W := bool) (Site.plain 3) (count_attempt fresh)
                       Site.start)).
    pose (s_cls := snd (classify_page (Site.env Site.landing) (Site.plain 3) Site.url s0)).
    pose (s_nav := snd (_needs_navigation (Site.env Site.landing) s_cls)).
    destruct (C1_navigation_result_is_dropped (Site.env Site.landing) (Site.plain 3)
                Site.url Site.jane fresh (Session [] 2) Site.start (PDict []) s_cls s_nav
                0%nat eq_refl eq_refl) as [Hnav _].
    destruct (Hnav false
                (snd (_navigate_to_booking_page (Site.env Site.landing) (Site.plain 3)
                        (PDict []) s_nav)) eq_refl eq_refl) as (s' & E & _).
    rewrite E. reflexivity.
  - pose (s0 := snd (announce_attempt (W := bool) (Site.plain 3) (count_attempt fresh)
                       Site.start)).
    pose (s_cls := snd (classify_page (Site.env Site.blank) (Site.plain 3) Site.url s0)).
    pose (s_nav := snd (_needs_navigation (Site.env Site.blank) s_cls)).
    destruct (C1_navigation_result_is_dropped (Site.env Site.blank) (Site.plain 3)
                Site.url Site.jane fresh (Session [] 2) Site.start (PDict []) s_cls s_nav
                0%nat eq_refl eq_refl) as [_ Hnone].
    destruct (Hnone eq_refl) as (s' & E & _).
    rewrite E. reflexivity.
Defined.

(** C3 (counterexample).  The browser session dies while the form is looked
    up: the exception is raised inside the iteration, and the result that is
    appended carries the message "No booking form found", not the message
    of the exception. *)
Lemma C3_helper_hides_the_exception :
  let run := book_iteration (Site.env Site.broken_shop) (Site.plain 2) Site.url Site.jane
               fresh (Session [] 2) Site.start in
  In (EvRaise (Exn OtherException "Message: invalid session id")) (trace (snd run))
  /\ fst run
     = inr (Continue, Scraper 1 0, Session [failed_result "No booking form found"] 2)
  /\ "No booking form found" <> "Message: invalid session id".
Proof.
  split; [| split].
  - vm_compute. do 6 right. left. reflexivity.
  - vm_compute. reflexivity.
  - discriminate.
Qed.

Lemma C3_exceptions_are_absorbed_witness :
  fst (book_iteration (Site.env Site.offline) (Site.plain 2) Site.url Site.jane
         fresh (Session [] 2) Site.start)
  = inr (Continue, Scraper 1 0,
         Session [failed_result "Message: net::ERR_CONNECTION_REFUSED"] 2).
Proof.
  destruct (C3_exceptions_are_absorbed (Site.env Site.offline) (Site.plain 2)
              Site.url Site.jane fresh (Session [] 2)) as (_ & _ & _ & H & _).
  destruct (H Site.start (Exn OtherException "Message: net::ERR_CONNECTION_REFUSED")
              (snd (visit_page (Site.env Site.offline) (Site.plain 2) Site.url Site.jane 2
                      (snd (announce_attempt (Site.plain 2) (count_attempt fresh)
                              Site.start))))
              eq_refl) as (s' & E).
  rewrite E. reflexivity.
Defined.

Lemma C9_bookable_page_attempt_witness :
  exists r,
    fst (book_iteration (Site.env Site.shop) (Site.plain 5) Site.url Site.jane
           fresh (Session [] 6) Site.start)
    = inr (Continue, Scraper 1 4, Session [r] 2)
    /\ success r = true /\ tickets_booked r = 4.
Proof.
  pose (s0 := snd (announce_attempt (W := bool) (Site.plain 5) (count_attempt fresh)
                     Site.start)).
  destruct (C9_bookable_page_attempt (Site.env Site.shop) (Site.plain 5)
              Site.url Site.jane fresh (Session [] 6) Site.start (PDict [])
              (snd (classify_page (Site.env Site.shop) (Site.plain 5) Site.url s0))
              eq_refl) as (r & s_att & s' & Ha & Hok & _).
  vm_compute in Ha. injection Ha as <- _.
  destruct (Hok eq_refl) as [Ht E].
  eexists. split; [rewrite E; reflexivity |]. split; reflexivity.
Defined.

(** ** The counters: C4, C5, C10 *)

Section Counters.

Context {W : Type}.
Variable env : environment W.
Variable cfg : settings.

(** C4.  On a scraper that has booked nothing yet, after any number of
    iterations [remaining_tickets + successful_bookings] is the number of
    tickets asked for, and [successful_bookings] is the sum of
    [tickets_booked] over the successful results; [remaining_tickets] never
    goes below zero, so the successful results of a run never add up to more
    than was asked. *)
Theorem C4_ticket_accounting website_url user_info ticket_count sc s :
  successful_bookings sc = 0 ->
  (forall fuel, exists sc' ss' s',
      book_loop env cfg fuel website_url user_info sc (Session [] ticket_count) s
      = (inr (sc', ss'), s')
      /\ remaining_tickets ss' + successful_bookings sc' = ticket_count
      /\ tickets_of_successes (results ss') = successful_bookings sc'
      /\ (0 <= ticket_count -> 0 <= remaining_tickets ss'))
  /\ (0 <= ticket_count ->
      exists rs sc' s',
        book_tickets env cfg website_url user_info ticket_count sc s
        = (inr (rs, sc'), s')
        /\ tickets_of_successes rs <= ticket_count).
Proof.
  intros Hfresh.
  assert (Hloop : forall fuel, exists sc' ss' s',
      book_loop env cfg fuel website_url user_info sc (Session [] ticket_count) s
      = (inr (sc', ss'), s')
      /\ remaining_tickets ss' + successful_bookings sc' = ticket_count
      /\ tickets_of_successes (results ss') = successful_bookings sc'
      /\ (0 <= ticket_count -> 0 <= remaining_tickets ss')).
  { intros fuel.
    destruct (book_loop_effect env cfg website_url user_info fuel sc
                (Session [] ticket_count) s)
      as (sc' & ss' & s' & E & _ & _ & _ & Hsum & Hres & Hpos & _).
    simpl in Hsum, Hres, Hpos.
    exists sc', ss', s'. split; [exact E |]. split; [lia |]. split; [lia | exact Hpos]. }
  split; [exact Hloop |].
  intros Hcount.
  destruct (Hloop (attempt_budget cfg sc)) as (sc' & ss' & s' & E & Hsum & Hres & Hpos).
  specialize (Hpos Hcount).
  exists (results ss'), sc', s'. split.
  - unfold book_tickets. rewrite (bind_returns _ _ _ _ _ E). reflexivity.
  - lia.
Qed.

(** C5.  The list [book_tickets] returns is no longer than [max_retries]:
    every iteration adds one to [booking_attempts] and appends at most one
    result, and no iteration starts once [booking_attempts] has reached
    [max_retries].  (The loop is over within its budget of
    [max_retries - booking_attempts] rounds: allowing more changes nothing.) *)
Theorem C5_results_bounded_by_attempts website_url user_info :
  (forall ticket_count sc s,
      0 <= booking_attempts sc ->
      0 <= max_retries cfg ->
      exists rs sc' s',
        book_tickets env cfg website_url user_info ticket_count sc s
        = (inr (rs, sc'), s')
        /\ Z.of_nat (List.length rs) <= max_retries cfg)
  /\ (forall sc ss s, exists ctl sc' ss' s',
        book_iteration env cfg website_url user_info sc ss s
        = (inr (ctl, sc', ss'), s')
        /\ booking_attempts sc' = booking_attempts sc + 1
        /\ (results ss' = results ss
            \/ exists r, results ss' = (results ss ++ [r])%list))
  /\ (forall fuel sc ss s,
        max_retries cfg <= booking_attempts sc ->
        book_loop env cfg fuel website_url user_info sc ss s = (inr (sc, ss), s))
  /\ (forall extra sc ss s,
        book_loop env cfg (attempt_budget cfg sc + extra) website_url user_info sc ss s
        = book_loop env cfg (attempt_budget cfg sc) website_url user_info sc ss s).
Proof.
  split; [| split; [| split]]; [| | | intros; apply book_loop_budget].
  - intros ticket_count sc s Hatt Hmax.
    destruct (book_loop_effect env cfg website_url user_info (attempt_budget cfg sc) sc
                (Session [] ticket_count) s)
      as (sc' & ss' & s' & E & Hmono & Hcap & _ & _ & _ & _ & Hlen).
    simpl in Hlen.
    exists (results ss'), sc', s'. split.
    + unfold book_tickets. rewrite (bind_returns _ _ _ _ _ E). reflexivity.
    + lia.
  - intros sc ss s.
    destruct (book_iteration_effect env cfg website_url user_info sc ss s)
      as (ctl & sc1 & ss1 & s1 & E & Ha & _ & Hr).
    exists ctl, sc1, ss1, s1. split; [exact E |]. split; [exact Ha |].
    destruct Hr as [(r & _ & Hres & _) | (Hres & _)]; [right; exists r | left]; exact Hres.
  - intros fuel sc ss s Hfull. apply book_loop_stop.
    unfold loop_guard. apply andb_false_iff. right. apply Z.ltb_ge. exact Hfull.
Qed.

(** what one call does to the attempt counter *)
Lemma book_tickets_effect website_url user_info ticket_count sc s :
  exists rs sc' s',
    book_tickets env cfg website_url user_info ticket_count sc s = (inr (rs, sc'), s')
    /\ booking_attempts sc <= booking_attempts sc'
    /\ booking_attempts sc' <= Z.max (booking_attempts sc) (max_retries cfg)
    /\ Z.of_nat (page_loads (trace s')) - Z.of_nat (page_loads (trace s))
       = booking_attempts sc' - booking_attempts sc.
Proof.
  destruct (book_loop_effect env cfg website_url user_info (attempt_budget cfg sc) sc
              (Session [] ticket_count) s)
    as (sc' & ss' & s' & E & Hmono & Hcap & Hloads & _).
  exists (results ss'), sc', s'. split.
  - unfold book_tickets. rewrite (bind_returns _ _ _ _ _ E). reflexivity.
  - repeat split; lia.
Qed.

(** what a series of calls does to it *)
Lemma book_tickets_each_effect calls :
  forall sc s, exists rss sc' s',
    book_tickets_each env cfg calls sc s = (inr (rss, sc'), s')
    /\ booking_attempts sc <= booking_attempts sc'
    /\ booking_attempts sc' <= Z.max (booking_attempts sc) (max_retries cfg)
    /\ Z.of_nat (page_loads (trace s')) - Z.of_nat (page_loads (trace s))
       = booking_attempts sc' - booking_attempts sc.
Proof.
  induction calls as [| [[website_url user_info] ticket_count] rest IH]; intros sc s.
  - exists [], sc, s. simpl. repeat split; lia.
  - destruct (book_tickets_effect website_url user_info ticket_count sc s)
      as (rs & sc1 & s1 & E1 & M1 & C1 & L1).
    destruct (IH sc1 s1) as (rss & sc2 & s2 & E2 & M2 & C2 & L2).
    exists (rs :: rss), sc2, s2. split.
    + simpl. rewrite (bind_returns _ _ _ _ _ E1). simpl.
      rewrite (bind_returns _ _ _ _ _ E2). reflexivity.
    + repeat split; lia.
Qed.

(** C10.  [booking_attempts] belongs to the scraper and [book_tickets]
    never resets it.  A call leaves it no smaller, runs as many iterations
    (page loads) as it adds to it, and so leaves a budget no larger.  Over
    any series of calls on a new scraper the iterations number at most
    [max_retries].  A call that finds the budget used up returns the empty
    list at once, whatever the number of tickets asked for. *)
Theorem C10_attempts_are_never_reset :
  (forall website_url user_info ticket_count sc s, exists rs sc' s',
      book_tickets env cfg website_url user_info ticket_count sc s = (inr (rs, sc'), s')
      /\ booking_attempts sc <= booking_attempts sc'
      /\ Z.of_nat (page_loads (trace s')) - Z.of_nat (page_loads (trace s))
         = booking_attempts sc' - booking_attempts sc
      /\ (attempt_budget cfg sc' <= attempt_budget cfg sc)%nat)
  /\ (forall calls s,
        0 <= max_retries cfg ->
        exists rss sc' s',
          book_tickets_each env cfg calls fresh s = (inr (rss, sc'), s')
          /\ Z.of_nat (page_loads (trace s')) - Z.of_nat (page_loads (trace s))
             = booking_attempts sc'
          /\ booking_attempts sc' <= max_retries cfg)
  /\ (forall website_url user_info ticket_count sc s,
        max_retries cfg <= booking_attempts sc ->
        book_tickets env cfg website_url user_info ticket_count sc s = (inr ([], sc), s)).
Proof.
  split; [| split].
  - intros website_url user_info ticket_count sc s.
    destruct (book_tickets_effect website_url user_info ticket_count sc s)
      as (rs & sc' & s' & E & Hmono & Hcap & Hloads).
    exists rs, sc', s'. split; [exact E |].
    repeat split; try lia. unfold attempt_budget. lia.
  - intros calls s Hmax.
    destruct (book_tickets_each_effect calls fresh s)
      as (rss & sc' & s' & E & Hmono & Hcap & Hloads).
    simpl in Hmono, Hcap, Hloads.
    exists rss, sc', s'. split; [exact E |]. split; lia.
  - intros website_url user_info ticket_count sc s Hfull.
    unfold book_tickets.
    rewrite (bind_returns _ _ _ (sc, Session [] ticket_count) s); [reflexivity |].
    apply book_loop_stop.
    unfold loop_guard. apply andb_false_iff. right. apply Z.ltb_ge. exact Hfull.
Qed.

End Counters.

Lemma C4_ticket_accounting_witness :
  exists rs sc' s',
    book_tickets (Site.env Site.shop) (Site.plain 5) Site.url Site.jane 6 fresh Site.start
    = (inr (rs, sc'), s')
    /\ tickets_of_successes rs <= 6.
Proof.
  refine (proj2 (C4_ticket_accounting (Site.env Site.shop) (Site.plain 5)
                   Site.url Site.jane 6 fresh Site.start _) _); [reflexivity | lia].
Defined.

Lemma C5_results_bounded_by_attempts_witness :
  exists rs sc' s',
    book_tickets (Site.env Site.offline) (Site.plain 2) Site.url Site.jane 6 fresh
      Site.start = (inr (rs, sc'), s')
    /\ Z.of_nat (List.length rs) <= 2.
Proof.
  refine (proj1 (C5_results_bounded_by_attempts (Site.env Site.offline) (Site.plain 2)
                   Site.url Site.jane) 6 fresh Site.start _ _); simpl; lia.
Defined.

Lemma C10_attempts_are_never_reset_witness :
  (exists rss sc' s',
     book_tickets_each (Site.env Site.shop) (Site.plain 2)
       [(Site.url, Site.jane, 8); (Site.url, Site.jane, 3)] fresh Site.start
     = (inr (rss, sc'), s')
     /\ Z.of_nat (page_loads (trace s')) - Z.of_nat (page_loads (trace Site.start))
        = booking_attempts sc'
     /\ booking_attempts sc' <= 2)
  /\ book_tickets (Site.env Site.shop) (Site.plain 2) Site.url Site.jane 3
       (Scraper 2 8) Site.start
     = (inr ([], Scraper 2 8), Site.start).
Proof.
  destruct (C10_attempts_are_never_reset (Site.env Site.shop) (Site.plain 2))
    as (_ & Hseries & Hspent).
  split.
  - apply Hseries. simpl. lia.
  - apply Hspent. simpl. lia.
Defined.

(** * Further properties *)

(** ** The results of a run *)

Section Run.

Context {W : Type}.
Variable env : environment W.
Variable cfg : settings.

(** what one iteration appends, when tickets remain *)
Lemma book_iteration_appends website_url user_info sc ss s :
  0 < remaining_tickets ss ->
  exists ctl sc' ss' s',
    book_iteration env cfg website_url user_info sc ss s = (inr (ctl, sc', ss'), s')
    /\ (results ss' = results ss
        \/ exists r, results ss' = (results ss ++ [r])%list /\ well_formed_result r).
Proof.
  intros Hrem.
  pose proof (visit_page_outcome env cfg website_url user_info (remaining_tickets ss)
                (snd (announce_attempt cfg (count_attempt sc) s))) as Ho.
  destruct (visit_page env cfg website_url user_info (remaining_tickets ss)
              (snd (announce_attempt cfg (count_attempt sc) s)))
    as [[e | o] s1] eqn:Hv.
  - destruct (book_iteration_of_exception env cfg _ _ _ _ _ _ _ Hv) as (s' & ->).
    do 4 eexists. split; [reflexivity |].
    right. exists (failed_result (exn_msg e)). split; [reflexivity |].
    right. split; reflexivity.
  - specialize (Ho o s1 eq_refl).
    destruct (book_iteration_of_outcome env cfg _ _ _ _ _ _ _ Hv) as (s' & -> & _).
    destruct o as [r | found |]; simpl.
    + destruct Ho as [[Hs Ht] | [Hs Ht]]; rewrite Hs;
        do 4 eexists; (split; [reflexivity |]); right; exists r;
        (split; [reflexivity |]); [left | right]; split; auto; lia.
    + do 4 eexists. split; [reflexivity |]. left. reflexivity.
    + do 4 eexists. split; [reflexivity |]. left. reflexivity.
Qed.

Lemma book_loop_results website_url user_info fuel :
  forall sc ss s,
    Forall well_formed_result (results ss) ->
    exists sc' ss' s',
      book_loop env cfg fuel website_url user_info sc ss s = (inr (sc', ss'), s')
      /\ Forall well_formed_result (results ss').
Proof.
  induction fuel as [| fuel IH]; intros sc ss s Hwf.
  - exists sc, ss, s. split; [reflexivity | exact Hwf].
  - destruct (loop_guard cfg sc ss) eqn:Hg.
    + assert (Hrem : 0 < remaining_tickets ss).
      { unfold loop_guard in Hg. apply andb_prop in Hg. apply Z.ltb_lt, Hg. }
      destruct (book_iteration_appends website_url user_info sc ss s Hrem)
        as (ctl & sc1 & ss1 & s1 & Hi & Hres).
      rewrite (book_loop_step env cfg fuel _ _ _ _ _ _ _ _ _ Hg Hi).
      assert (Hwf1 : Forall well_formed_result (results ss1)).
      { destruct Hres as [-> | (r & -> & Hr)]; [exact Hwf |].
        apply Forall_app. split; [exact Hwf | constructor; [exact Hr | constructor]]. }
      destruct ctl.
      * apply IH. exact Hwf1.
      * exists sc1, ss1, s1. split; [reflexivity | exact Hwf1].
    + rewrite (book_loop_stop env cfg _ _ _ _ _ _ Hg).
      exists sc, ss, s. split; [reflexivity | exact Hwf].
Qed.

Lemma tickets_of_well_formed rs :
  Forall well_formed_result rs ->
  0 <= tickets_of_successes rs <= 4 * Z.of_nat (List.length rs).
Proof.
  induction 1 as [| r rs Hr _ IH]; simpl tickets_of_successes.
  - simpl. lia.
  - change (List.length (r :: rs)) with (S (List.length rs)).
    destruct Hr as [[Hs Ht] | [Hs Ht]]; rewrite Hs; lia.
Qed.

(** X1.  Every result [book_tickets] returns is a success for one to four
    tickets or a failure for none. *)
Theorem book_tickets_results_well_formed website_url user_info ticket_count sc s :
  exists rs sc' s',
    book_tickets env cfg website_url user_info ticket_count sc s = (inr (rs, sc'), s')
    /\ Forall well_formed_result rs.
Proof.
  destruct (book_loop_results website_url user_info (attempt_budget cfg sc) sc
              (Session [] ticket_count) s (Forall_nil _))
    as (sc' & ss' & s' & E & Hwf).
  exists (results ss'), sc', s'. split; [| exact Hwf].
  unfold book_tickets. rewrite (bind_returns _ _ _ _ _ E). reflexivity.
Qed.

(** X2.  A run books at most four tickets for each iteration it makes: on
    a scraper that has made no attempt yet, at most [4 * max_retries] in
    all, whatever number was asked for. *)
Theorem book_tickets_at_most_four_per_attempt website_url user_info ticket_count sc s :
  exists rs sc' s',
    book_tickets env cfg website_url user_info ticket_count sc s = (inr (rs, sc'), s')
    /\ tickets_of_successes rs <= 4 * (booking_attempts sc' - booking_attempts sc)
    /\ (booking_attempts sc = 0 -> 0 <= max_retries cfg ->
        tickets_of_successes rs <= 4 * max_retries cfg).
Proof.
  destruct (book_loop_results website_url user_info (attempt_budget cfg sc) sc
              (Session [] ticket_count) s (Forall_nil _))
    as (sc' & ss' & s' & E & Hwf).
  destruct (book_loop_effect env cfg website_url user_info (attempt_budget cfg sc) sc
              (Session [] ticket_count) s)
    as (sc2 & ss2 & s2 & E2 & Hmono & Hcap & _ & _ & _ & _ & Hlen).
  rewrite E in E2. injection E2 as <- <- <-.
  simpl in Hlen. apply tickets_of_well_formed in Hwf.
  exists (results ss'), sc', s'. split.
  - unfold book_tickets. rewrite (bind_returns _ _ _ _ _ E). reflexivity.
  - split; [lia |]. intros Hzero Hmax. lia.
Qed.

(** the [try] block ends on [Unidentified] right after the log line of the
    [break] *)
Lemma visit_page_unidentified website_url user_info remaining s s1 :
  visit_page env cfg website_url user_info remaining s = (inr Unidentified, s1) ->
  exists evs, trace s1 = (evs ++ [unidentified_page])%list.
Proof.
  unfold visit_page, bind. intros H.
  destruct (perform env (DriverGet website_url) s) as [[e | []] s2]; [discriminate |].
  destruct (_wait_for_page_load env cfg s2) as [[e | []] s3]; [discriminate |].
  destruct (_analyze_current_page env cfg website_url s3) as [[e | pa] s4];
    [discriminate |].
  destruct (_is_ticket_page env s4) as [[e | [|]] s5]; [discriminate | |].
  - destruct (_attempt_booking env cfg user_info (Z.min remaining 4) s5)
      as [[e | r] s6]; [discriminate |].
    destruct (report_result r s6) as [[e | []] s7]; discriminate.
  - destruct (_needs_navigation env s5) as [[e | [|]] s6]; [discriminate | |].
    + destruct (_navigate_to_booking_page env cfg pa s6) as [[e | found] s7];
        discriminate.
    + simpl in H. injection H as <-. exists (trace s6). reflexivity.
Qed.

(** an iteration that breaks ends on that log line *)
Lemma book_iteration_break website_url user_info sc ss s sc' ss' s' :
  book_iteration env cfg website_url user_info sc ss s = (inr (Break, sc', ss'), s') ->
  exists evs, trace s' = (evs ++ [unidentified_page])%list.
Proof.
  intros Hi.
  destruct (visit_page env cfg website_url user_info (remaining_tickets ss)
              (snd (announce_attempt cfg (count_attempt sc) s)))
    as [[e | o] s1] eqn:Hv.
  - destruct (book_iteration_of_exception env cfg _ _ _ _ _ _ _ Hv) as (s2 & E).
    rewrite E in Hi. discriminate.
  - destruct (book_iteration_of_outcome env cfg _ _ _ _ _ _ _ Hv) as (s2 & E & Hb).
    rewrite E in Hi. injection Hi as Ho <-.
    rewrite Ho in Hb. specialize (Hb eq_refl). subst s2.
    destruct o as [r | found |].
    + simpl in Ho. destruct (success r); discriminate.
    + discriminate.
    + exact (visit_page_unidentified _ _ _ _ _ Hv).
Qed.

(** the loop, given its budget, ends with its condition false or on a [break] *)
Lemma book_loop_ends website_url user_info fuel :
  forall sc ss s,
    (attempt_budget cfg sc <= fuel)%nat ->
    exists sc' ss' s',
      book_loop env cfg fuel website_url user_info sc ss s = (inr (sc', ss'), s')
      /\ (loop_guard cfg sc' ss' = false
          \/ exists evs, trace s' = (evs ++ [unidentified_page])%list).
Proof.
  induction fuel as [| fuel IH]; intros sc ss s Hb.
  - exists sc, ss, s. split; [reflexivity |]. left.
    unfold attempt_budget in Hb. unfold loop_guard.
    apply andb_false_iff. right. apply Z.ltb_ge. lia.
  - destruct (loop_guard cfg sc ss) eqn:Hg.
    + destruct (book_iteration_effect env cfg website_url user_info sc ss s)
        as (ctl & sc1 & ss1 & s1 & Hi & Ha & _).
      rewrite (book_loop_step env cfg fuel _ _ _ _ _ _ _ _ _ Hg Hi).
      destruct ctl.
      * apply IH. unfold attempt_budget in *.
        unfold loop_guard in Hg. apply andb_prop in Hg. destruct Hg as [_ Hatt].
        apply Z.ltb_lt in Hatt. lia.
      * exists sc1, ss1, s1. split; [reflexivity |]. right.
        exact (book_iteration_break _ _ _ _ _ _ _ _ Hi).
    + rewrite (book_loop_stop env cfg _ _ _ _ _ _ Hg).
      exists sc, ss, s. split; [reflexivity |]. left. exact Hg.
Qed.

(** X3.  [book_tickets] returns for one of three reasons: the tickets booked
    cover the number asked for, the attempts have reached [max_retries], or
    the last page could not be identified (the run ends on the log line of
    the [break]). *)
Theorem book_tickets_stops_for_a_reason website_url user_info ticket_count sc s :
  successful_bookings sc = 0 ->
  exists rs sc' s',
    book_tickets env cfg website_url user_info ticket_count sc s = (inr (rs, sc'), s')
    /\ (ticket_count <= tickets_of_successes rs
        \/ max_retries cfg <= booking_attempts sc'
        \/ exists evs, trace s' = (evs ++ [unidentified_page])%list).
Proof.
  intros Hfresh.
  destruct (book_loop_ends website_url user_info (attempt_budget cfg sc) sc
              (Session [] ticket_count) s (Nat.le_refl _))
    as (sc' & ss' & s' & E & Hend).
  destruct (book_loop_effect env cfg website_url user_info (attempt_budget cfg sc) sc
              (Session [] ticket_count) s)
    as (sc2 & ss2 & s2 & E2 & _ & _ & _ & Hsum & Hres & _).
  rewrite E in E2. injection E2 as <- <- <-. simpl in Hsum, Hres.
  exists (results ss'), sc', s'. split.
  - unfold book_tickets. rewrite (bind_returns _ _ _ _ _ E). reflexivity.
  - destruct Hend as [Hg | Hbreak]; [| right; right; exact Hbreak].
    unfold loop_guard in Hg. apply andb_false_iff in Hg.
    destruct Hg as [Hrem | Hatt].
    + left. apply Z.ltb_ge in Hrem. lia.
    + right. left. apply Z.ltb_ge in Hatt. exact Hatt.
Qed.

End Run.

Lemma book_tickets_at_most_four_per_attempt_witness :
  exists rs sc' s',
    book_tickets (Site.env Site.shop) (Site.plain 2) Site.url Site.jane 10 fresh
      Site.start = (inr (rs, sc'), s')
    /\ tickets_of_successes rs <= 8.
Proof.
  destruct (book_tickets_at_most_four_per_attempt (Site.env Site.shop) (Site.plain 2)
              Site.url Site.jane 10 fresh Site.start)
    as (rs & sc' & s' & E & _ & H).
  exists rs, sc', s'. split; [exact E |]. apply H; [reflexivity | simpl; lia].
Defined.

Lemma book_tickets_stops_for_a_reason_witness :
  exists rs sc' s',
    book_tickets (Site.env Site.blank) (Site.plain 5) Site.url Site.jane 3 fresh
      Site.start = (inr (rs, sc'), s')
    /\ (3 <= tickets_of_successes rs
        \/ 5 <= booking_attempts sc'
        \/ exists evs, trace s' = (evs ++ [unidentified_page])%list).
Proof.
  exact (book_tickets_stops_for_a_reason (Site.env Site.blank) (Site.plain 5)
           Site.url Site.jane 3 fresh Site.start eq_refl).
Defined.

(** ** Clicking: [_safe_click] *)

Section Counting.

Context {W : Type}.
Variable env : environment W.
Variable p : event -> bool.
Hypothesis p_raise : forall e, p (EvRaise e) = false.
Hypothesis p_sleep : forall d, p (EvSleep d) = false.
Hypothesis p_log : forall lvl msg, p (EvLog lvl msg) = false.

Lemma count_events_app evs1 evs2 :
  count_events p (evs1 ++ evs2) = (count_events p evs1 + count_events p evs2)%nat.
Proof. unfold count_events. rewrite filter_app, length_app. reflexivity. Qed.

Lemma adds_ret {A} (a : A) : adds_at_most (W := W) p 0 (ret a).
Proof. intros s. exists []. simpl. rewrite app_nil_r. auto. Qed.

Lemma adds_sleep d : adds_at_most (W := W) p 0 (sleep d).
Proof.
  intros s. exists [EvSleep d]. split; [reflexivity |].
  unfold count_events. simpl. rewrite p_sleep. simpl. lia.
Qed.

Lemma adds_log lvl msg : adds_at_most (W := W) p 0 (log lvl msg).
Proof.
  intros s. exists [EvLog lvl msg]. split; [reflexivity |].
  unfold count_events. simpl. rewrite p_log. simpl. lia.
Qed.

Lemma adds_perform {A} (c : call A) :
  adds_at_most p (if p (EvCall c) then 1 else 0) (perform env c).
Proof.
  intros s. unfold perform.
  destruct (oracle env c (world s)) as [[e | a] w'].
  - exists [EvCall c; EvRaise e]. split; [reflexivity |].
    unfold count_events. simpl. rewrite p_raise. destruct (p (EvCall c)); simpl; lia.
  - exists [EvCall c]. split; [reflexivity |].
    unfold count_events. simpl. destruct (p (EvCall c)); simpl; lia.
Qed.

Lemma adds_weaken {A} n n' (m : M W A) :
  (n <= n')%nat -> adds_at_most p n m -> adds_at_most p n' m.
Proof.
  intros Hle Hm s. destruct (Hm s) as (evs & E & Hc). exists evs. split; [exact E | lia].
Qed.

Lemma adds_bind {A B} n1 n2 (m : M W A) (f : A -> M W B) :
  adds_at_most p n1 m -> (forall a, adds_at_most p n2 (f a)) ->
  adds_at_most p (n1 + n2) (bind m f).
Proof.
  intros Hm Hf s. unfold bind.
  destruct (Hm s) as (evs1 & E1 & C1).
  destruct (m s) as [[e | a] s1]; simpl in *.
  - exists evs1. split; [exact E1 | lia].
  - destruct (Hf a s1) as (evs2 & E2 & C2).
    exists (evs1 ++ evs2)%list. rewrite E2, E1, app_assoc. split; [reflexivity |].
    rewrite count_events_app. lia.
Qed.

Lemma adds_try {A} n1 n2 (m : M W A) catches (h : exn -> M W A) :
  adds_at_most p n1 m -> (forall e, adds_at_most p n2 (h e)) ->
  adds_at_most p (n1 + n2) (try_except m catches h).
Proof.
  intros Hm Hh s. unfold try_except.
  destruct (Hm s) as (evs1 & E1 & C1).
  destruct (m s) as [[e | a] s1]; simpl in *.
  - destruct (catches e).
    + destruct (Hh e s1) as (evs2 & E2 & C2).
      exists (evs1 ++ evs2)%list. rewrite E2, E1, app_assoc. split; [reflexivity |].
      rewrite count_events_app. lia.
    + exists evs1. split; [exact E1 | lia].
  - exists evs1. split; [exact E1 | lia].
Qed.

(** a round of [_safe_click] that calls [c1] then [c2] in its [try] and [c3]
    in its handler adds what these three add *)
Lemma adds_safe_click_round elem attempt :
  adds_at_most p
    ((if p (EvCall (DriverExecuteScript "arguments[0].scrollIntoView(true);" [elem]))
      then 1 else 0)
     + (if p (EvCall (ElemClick elem)) then 1 else 0)
     + (if p (EvCall (DriverExecuteScript "arguments[0].click();" [elem]))
        then 1 else 0))
    (safe_click_round env elem attempt).
Proof.
  unfold safe_click_round.
  set (a := if p (EvCall (DriverExecuteScript "arguments[0].scrollIntoView(true);" [elem]))
            then 1%nat else 0%nat).
  set (b := if p (EvCall (ElemClick elem)) then 1%nat else 0%nat).
  set (c := if p (EvCall (DriverExecuteScript "arguments[0].click();" [elem]))
            then 1%nat else 0%nat).
  apply (adds_weaken ((a + (0 + (b + 0))) + (c + 0))); [lia |].
  apply adds_try.
  - apply adds_bind; [apply adds_perform |]. intros _.
    apply adds_bind; [apply adds_sleep |]. intros _.
    apply adds_bind; [apply adds_perform |]. intros _.
    apply adds_ret.
  - intros e. destruct (is_a StaleElementReferenceException e).
    + apply (adds_weaken 0); [lia | apply adds_ret].
    + apply adds_try.
      * apply (adds_weaken (c + 0)); [lia |].
        apply adds_bind; [apply adds_perform | intros; apply adds_ret].
      * intros _. destruct (attempt =? max_attempts - 1).
        -- apply adds_ret.
        -- apply (adds_weaken (0 + 0)); [lia |].
           apply adds_bind; [apply adds_sleep | intros; apply adds_ret].
Qed.

Lemma adds_safe_click_loop elem n attempts :
  (forall attempt, adds_at_most p n (safe_click_round env elem attempt)) ->
  adds_at_most p (List.length attempts * n) (safe_click_loop env elem attempts).
Proof.
  intros Hround. induction attempts as [| attempt rest IH]; simpl.
  - apply adds_ret.
  - apply adds_bind; [apply Hround |].
    intros [b |]; [| exact IH].
    apply (adds_weaken 0); [lia | apply adds_ret].
Qed.

End Counting.

Section SafeClick.

Context {W : Type}.
Variable env : environment W.

(** X4.  [_safe_click] tries the native click at most three times and the
    click by script at most three times, whatever the browser answers. *)
Theorem safe_click_bounded elem s :
  exists evs,
    trace (snd (_safe_click env elem s)) = (trace s ++ evs)%list
    /\ (count_events is_native_click evs <= 3)%nat
    /\ (count_events is_script_click evs <= 3)%nat.
Proof.
  assert (Hn : adds_at_most is_native_click 3 (_safe_click env elem)).
  { apply (adds_safe_click_loop env is_native_click elem 1 [0; 1; 2]).
    intros attempt.
    exact (adds_safe_click_round env is_native_click
             (fun _ => eq_refl) (fun _ => eq_refl) elem attempt). }
  assert (Hs : adds_at_most is_script_click 3 (_safe_click env elem)).
  { apply (adds_safe_click_loop env is_script_click elem 1 [0; 1; 2]).
    intros attempt.
    exact (adds_safe_click_round env is_script_click
             (fun _ => eq_refl) (fun _ => eq_refl) elem attempt). }
  destruct (Hn s) as (evs & E & Cn). destruct (Hs s) as (evs' & E' & Cs).
  rewrite E in E'. apply app_inv_head in E'. subst evs'.
  exists evs. auto.
Qed.

(** X5.  [_safe_click] retries only a click that was intercepted or not
    interactable.  When the first native click raises a stale-element error
    it returns False at once; when it raises an exception of any other
    class, that exception goes to the caller.  In both cases nothing more is
    tried: no click by script, no second round. *)
Theorem safe_click_gives_up elem s w1 e w2 :
  oracle env (DriverExecuteScript "arguments[0].scrollIntoView(true);" [elem]) (world s)
  = (inr tt, w1) ->
  oracle env (ElemClick elem) w1 = (inl e, w2) ->
  let tried :=
    [EvCall (DriverExecuteScript "arguments[0].scrollIntoView(true);" [elem]);
     EvSleep (1 # 2); EvCall (ElemClick elem); EvRaise e] in
  (exn_cls e = StaleElementReferenceException ->
   _safe_click env elem s = (inr false, State w2 (trace s ++ tried)))
  /\ (caught_by_safe_click e = false ->
      _safe_click env elem s = (inl e, State w2 (trace s ++ tried))).
Proof.
  intros Hscroll Hclick tried.
  assert (Hbody :
    forall catches h,
      try_except
        (perform env (DriverExecuteScript "arguments[0].scrollIntoView(true);" [elem]) ;;;
         sleep (1 # 2) ;;; perform env (ElemClick elem) ;;; ret (Some true))
        catches h s
      = if catches e then h e (State w2 (trace s ++ tried))
        else (inl e, State w2 (trace s ++ tried))).
  { intros catches h. unfold try_except, bind, perform, sleep, emit. rewrite Hscroll.
    simpl. rewrite Hclick. subst tried. simpl. rewrite <- !app_assoc. reflexivity. }
  split.
  - intros Hcls. unfold _safe_click. simpl. unfold bind at 1.
    unfold safe_click_round. rewrite Hbody.
    unfold is_a. rewrite Hcls. simpl. reflexivity.
  - intros Hnot. unfold _safe_click. simpl. unfold bind at 1.
    unfold safe_click_round. rewrite Hbody.
    unfold caught_by_safe_click in Hnot. rewrite Hnot. reflexivity.
Qed.

End SafeClick.

(** ** Submitting: [_submit_booking_form] and [_verify_submission_success] *)

Section Submit.

Context {W : Type}.
Variable env : environment W.

Lemma verify_submission_fails :
  no_success_page env ->
  returns_only (fun ok => ok = false) (_verify_submission_success env).
Proof.
  intros Hno s ok s' E. unfold _verify_submission_success, bind, perform in E.
  destruct (oracle env DriverPageSource (world s)) as [[e | src] w'] eqn:Eo;
    [discriminate |].
  injection E as <- _. exact (Hno _ _ _ Eo).
Qed.

Lemma click_first_submit_fails selectors :
  no_success_page env ->
  returns_only (fun ok => ok = false) (click_first_submit env selectors).
Proof.
  intros Hno. induction selectors as [| selector rest IH]; simpl.
  - apply returns_only_ret. reflexivity.
  - apply returns_only_try; [| intros _; exact IH].
    do 3 (apply returns_only_bind; intros ?).
    apply verify_submission_fails. exact Hno.
Qed.

(** X6.  A submission is judged by the page alone: when no page the browser
    shows holds a success indicator, [_submit_booking_form] returns False,
    whether or not a submit control was found and clicked. *)
Theorem submit_fails_without_success_page s :
  no_success_page env ->
  exists s', _submit_booking_form env s = (inr false, s').
Proof.
  intros Hno.
  destruct (submit_booking_form_never_raises env s) as (ok & s' & E).
  exists s'. rewrite E. f_equal. f_equal.
  assert (Hr : returns_only (fun ok => ok = false) (_submit_booking_form env)).
  { unfold _submit_booking_form. apply returns_only_try.
    - apply click_first_submit_fails. exact Hno.
    - intros e. apply returns_only_bind. intros _. apply returns_only_ret. reflexivity. }
  exact (Hr s ok s' E).
Qed.

(** *** At most one control is clicked *)

Lemma raises_only_ret {A} Q (a : A) : raises_only (W := W) Q (ret a).
Proof. intros s e s' E. discriminate. Qed.

Lemma raises_only_sleep Q d : raises_only (W := W) Q (sleep d).
Proof. intros s e s' E. discriminate. Qed.

Lemma raises_only_bind {A B} Q (m : M W A) (f : A -> M W B) :
  raises_only Q m -> (forall a, raises_only Q (f a)) -> raises_only Q (bind m f).
Proof.
  intros Hm Hf s e s' E. unfold bind in E.
  destruct (m s) as [[e1 | a] s1] eqn:Em.
  - injection E as <- <-. exact (Hm _ _ _ Em).
  - exact (Hf a _ _ _ E).
Qed.

Lemma raises_only_try {A} Q (m : M W A) catches h :
  raises_only Q m -> (forall e, raises_only Q (h e)) ->
  raises_only Q (try_except m catches h).
Proof.
  intros Hm Hh s e s' E. unfold try_except in E.
  destruct (m s) as [[e1 | a] s1] eqn:Em; [| discriminate].
  destruct (catches e1).
  - exact (Hh e1 _ _ _ E).
  - injection E as <- <-. exact (Hm _ _ _ Em).
Qed.

Lemma raises_only_perform {A} (c : call A) :
  only_waits_time_out env ->
  is_wait_clickable A c = false ->
  raises_only not_a_timeout (perform env c).
Proof.
  intros Honly Hc s e s' E. unfold perform in E.
  destruct (oracle env c (world s)) as [[e1 | a] w'] eqn:Eo; [| discriminate].
  injection E as <- _. intros Hcls.
  pose proof (Honly _ _ _ _ _ Eo Hcls). congruence.
Qed.

Lemma safe_click_round_no_timeout elem attempt :
  only_waits_time_out env ->
  raises_only not_a_timeout (safe_click_round env elem attempt).
Proof.
  intros Honly. unfold safe_click_round.
  apply raises_only_try.
  - apply raises_only_bind; [apply raises_only_perform; auto |]. intros _.
    apply raises_only_bind; [apply raises_only_sleep |]. intros _.
    apply raises_only_bind; [apply raises_only_perform; auto |]. intros _.
    apply raises_only_ret.
  - intros e. destruct (is_a StaleElementReferenceException e);
      [apply raises_only_ret |].
    apply raises_only_try.
    + apply raises_only_bind; [apply raises_only_perform; auto |]. intros _.
      apply raises_only_ret.
    + intros _. destruct (attempt =? max_attempts - 1); [apply raises_only_ret |].
      apply raises_only_bind; [apply raises_only_sleep | intros; apply raises_only_ret].
Qed.

Lemma safe_click_no_timeout elem :
  only_waits_time_out env ->
  raises_only not_a_timeout (_safe_click env elem).
Proof.
  intros Honly. unfold _safe_click.
  generalize (map Z.of_nat (seq 0 (Z.to_nat max_attempts))).
  induction l as [| attempt rest IH]; simpl.
  - apply raises_only_ret.
  - apply raises_only_bind; [apply safe_click_round_no_timeout, Honly |].
    intros [b |]; [apply raises_only_ret | exact IH].
Qed.

(** what follows the wait, for one control *)
Lemma click_and_verify_no_timeout elem :
  only_waits_time_out env ->
  raises_only not_a_timeout
    (_safe_click env elem ;;; sleep (3 # 1) ;;; _verify_submission_success env).
Proof.
  intros Honly.
  apply raises_only_bind; [apply safe_click_no_timeout, Honly |]. intros _.
  apply raises_only_bind; [apply raises_only_sleep |]. intros _.
  unfold _verify_submission_success.
  apply raises_only_bind; [apply raises_only_perform; auto |]. intros src.
  apply raises_only_ret.
Qed.

Lemma click_and_verify_clicks elem :
  adds_at_most is_native_click 3
    (_safe_click env elem ;;; sleep (3 # 1) ;;; _verify_submission_success env).
Proof.
  apply (adds_weaken is_native_click (3 + (0 + (0 + 0)))); [lia |].
  apply adds_bind.
  - apply (adds_safe_click_loop env is_native_click elem 1 [0; 1; 2]).
    intros attempt.
    exact (adds_safe_click_round env is_native_click
             (fun _ => eq_refl) (fun _ => eq_refl) elem attempt).
  - intros _. apply adds_bind; [apply adds_sleep; reflexivity |]. intros _.
    unfold _verify_submission_success.
    apply adds_bind.
    + exact (adds_perform env is_native_click (fun _ => eq_refl) DriverPageSource).
    + intros src. apply adds_ret.
Qed.

(** the clicks of [_safe_click] are all on its element *)
Lemma click_and_verify_same elem :
  adds_at_most (clicks_another elem) 0
    (_safe_click env elem ;;; sleep (3 # 1) ;;; _verify_submission_success env).
Proof.
  assert (Hround : forall attempt,
             adds_at_most (clicks_another elem) 0 (safe_click_round env elem attempt)).
  { intros attempt.
    pose proof (adds_safe_click_round env (clicks_another elem)
                  (fun _ => eq_refl) (fun _ => eq_refl) elem attempt) as H.
    cbn [clicks_another] in H. rewrite Nat.eqb_refl in H. exact H. }
  apply (adds_weaken (clicks_another elem) (0 + (0 + (0 + 0)))); [lia |].
  apply adds_bind.
  - exact (adds_safe_click_loop env (clicks_another elem) elem 0 [0; 1; 2] Hround).
  - intros _. apply adds_bind; [apply adds_sleep; reflexivity |]. intros _.
    unfold _verify_submission_success.
    apply adds_bind.
    + exact (adds_perform env (clicks_another elem) (fun _ => eq_refl) DriverPageSource).
    + intros src. apply adds_ret.
Qed.

(** the loop over the selectors clicks the first control it finds clickable
    and no other *)
Lemma click_first_submit_one_control selectors :
  only_waits_time_out env ->
  forall s, exists evs elem,
    trace (snd (click_first_submit env selectors s)) = (trace s ++ evs)%list
    /\ (count_events is_native_click evs <= 3)%nat
    /\ count_events (clicks_another elem) evs = 0%nat.
Proof.
  intros Honly. induction selectors as [| selector rest IH]; simpl.
  - intros s. exists [], 0%nat. simpl. rewrite app_nil_r.
    split; [reflexivity |]. split; [unfold count_events; simpl; lia | reflexivity].
  - intros s. unfold try_except, bind at 1, perform.
    destruct (oracle env (WaitUntilClickable CSS_SELECTOR selector) (world s))
      as [[e | elem] w'].
    + destruct (is_a TimeoutException e).
      * match goal with |- context [click_first_submit env rest ?s1] =>
          destruct (IH s1) as (evs & elem & E & C & C')
        end.
        exists ([EvCall (WaitUntilClickable CSS_SELECTOR selector); EvRaise e] ++ evs)%list,
          elem.
        rewrite E. simpl. rewrite <- app_assoc. split; [reflexivity |].
        unfold count_events in *. simpl. split; [exact C | exact C'].
      * exists [EvCall (WaitUntilClickable CSS_SELECTOR selector); EvRaise e], 0%nat.
        split; [reflexivity |]. unfold count_events. simpl. split; [lia | reflexivity].
    + match goal with |- context [bind ?m ?f ?s1] =>
        pose proof (click_and_verify_clicks elem s1) as (evs & E & C);
        pose proof (click_and_verify_same elem s1) as (evs' & E' & C');
        pose proof (click_and_verify_no_timeout elem Honly s1) as Hr;
        change (bind m f s1)
          with ((_safe_click env elem ;;; sleep (3 # 1) ;;;
                 _verify_submission_success env) s1) in *;
        destruct ((_safe_click env elem ;;; sleep (3 # 1) ;;;
                   _verify_submission_success env) s1) as [[e | ok] s2] eqn:Eb
      end.
      * assert (Hcatch : is_a TimeoutException e = false).
        { specialize (Hr e s2 eq_refl). unfold not_a_timeout in Hr. unfold is_a.
          destruct (exn_cls e); try reflexivity. congruence. }
        assert (evs' = evs) by (rewrite E in E'; exact (app_inv_head _ _ _ (eq_sym E'))).
        subst evs'. rewrite Hcatch.
        exists (EvCall (WaitUntilClickable CSS_SELECTOR selector) :: evs), elem.
        simpl in E. simpl snd. rewrite E, <- app_assoc. split; [reflexivity |].
        unfold count_events in *. simpl. split; [exact C | lia].
      * assert (evs' = evs) by (rewrite E in E'; exact (app_inv_head _ _ _ (eq_sym E'))).
        subst evs'.
        exists (EvCall (WaitUntilClickable CSS_SELECTOR selector) :: evs), elem.
        simpl in E. simpl snd. rewrite E, <- app_assoc. split; [reflexivity |].
        unfold count_events in *. simpl. split; [exact C | lia].
Qed.

(** X7.  When no call but the waits for a clickable element times out, a
    submission clicks one control at most: some element [elem] is the target
    of every click [_submit_booking_form] makes, native or by script, and of
    these at most three are native. *)
Theorem submit_clicks_one_control s :
  only_waits_time_out env ->
  exists evs elem,
    trace (snd (_submit_booking_form env s)) = (trace s ++ evs)%list
    /\ (count_events is_native_click evs <= 3)%nat
    /\ count_events (clicks_another elem) evs = 0%nat.
Proof.
  intros Honly.
  destruct (click_first_submit_one_control submit_selectors Honly s)
    as (evs & elem & E & C & C').
  unfold _submit_booking_form, try_except.
  destruct (click_first_submit env submit_selectors s) as [[e | ok] s1].
  - change (any_exception e) with true. cbv iota.
    exists (evs ++ [EvLog ERROR ("Form submission failed: " ++ exn_msg e)])%list, elem.
    simpl in E. unfold bind, log, emit. simpl. rewrite E, <- app_assoc.
    split; [reflexivity |].
    unfold count_events in *. rewrite !filter_app, !length_app. simpl. lia.
  - exists evs, elem. auto.
Qed.

End Submit.

(** ** Dicts *)

Section DictFacts.

Context {V : Type}.

Lemma dict_get_set (k k' : string) (v : V) (d : dict V) :
  Dict.get k (Dict.set k' v d) = if String.eqb k k' then Some v else Dict.get k d.
Proof.
  induction d as [| [k0 v0] d IH]; simpl.
  - reflexivity.
  - destruct (String.eqb k' k0) eqn:E0; simpl.
    + apply String.eqb_eq in E0. subst k0.
      destruct (String.eqb k k'); reflexivity.
    + destruct (String.eqb k k0) eqn:E1.
      * apply String.eqb_eq in E1. subst k0.
        rewrite String.eqb_sym, E0. reflexivity.
      * exact IH.
Qed.

Lemma dict_keys_set (k : string) (v : V) (d : dict V) :
  Dict.keys (Dict.set k v d)
  = if Dict.mem k d then Dict.keys d else (Dict.keys d ++ [k])%list.
Proof.
  unfold Dict.mem. induction d as [| [k0 v0] d IH]; simpl.
  - reflexivity.
  - destruct (String.eqb k k0) eqn:E0; simpl; [reflexivity |].
    rewrite IH. unfold Dict.keys. destruct (Dict.get k d); reflexivity.
Qed.

Lemma dict_get_none (k : string) (d : dict V) :
  Dict.get k d = None <-> ~ has_key k d.
Proof.
  unfold has_key, Dict.keys. induction d as [| [k0 v0] d IH]; simpl.
  - split; [intros _ [] | reflexivity].
  - destruct (String.eqb k k0) eqn:E0.
    + apply String.eqb_eq in E0. subst k0. split; [discriminate |].
      intros H. exfalso. apply H. left. reflexivity.
    + apply String.eqb_neq in E0. rewrite IH. split.
      * intros H [Heq | Hin]; [congruence | exact (H Hin)].
      * intros H Hin. apply H. right. exact Hin.
Qed.

Lemma dict_get_in (k : string) (v : V) (d : dict V) :
  Dict.get k d = Some v -> In (k, v) d.
Proof.
  induction d as [| [k0 v0] d IH]; simpl; [discriminate |].
  destruct (String.eqb k k0) eqn:E0.
  - apply String.eqb_eq in E0. subst k0. intros [= ->]. left. reflexivity.
  - intros H. right. exact (IH H).
Qed.

Lemma dict_in_set (k0 : string) (v0 : V) (d : dict V) entry :
  In entry (Dict.set k0 v0 d) -> entry = (k0, v0) \/ In entry d.
Proof.
  induction d as [| [k1 v1] d IH]; simpl.
  - intros [<- | []]. left. reflexivity.
  - destruct (String.eqb k0 k1) eqn:E0; simpl.
    + apply String.eqb_eq in E0. subst k1.
      intros [<- | Hin]; [left; reflexivity | right; right; exact Hin].
    + intros [<- | Hin]; [right; left; reflexivity |].
      destruct (IH Hin) as [-> | Hin']; [left; reflexivity | right; right; exact Hin'].
Qed.

Lemma distinct_keys_set (k : string) (v : V) (d : dict V) :
  distinct_keys d -> distinct_keys (Dict.set k v d).
Proof.
  unfold distinct_keys. intros Hd. rewrite dict_keys_set.
  unfold Dict.mem. destruct (Dict.get k d) eqn:Eg; [exact Hd |].
  apply dict_get_none in Eg.
  apply NoDup_app; [exact Hd | repeat constructor; intros [] | ].
  intros x Hin [<- | []]. exact (Eg Hin).
Qed.

End DictFacts.

(** ** Forms: [_fallback_form_data], [_extract_form_fields], [_fill_booking_form] *)

Section Fallback.

Variable user_info : dict string.
Variable ticket_count : Z.

Lemma fallback_fold_get (names : list string) :
  forall (data : dict string) k,
    Dict.get k
      (fold_left
         (fun data field_name =>
            Dict.set field_name (fallback_value user_info ticket_count field_name) data)
         names data)
    = if existsb (String.eqb k) names
      then Some (fallback_value user_info ticket_count k)
      else Dict.get k data.
Proof.
  induction names as [| name rest IH]; intros data k; simpl.
  - reflexivity.
  - rewrite IH, dict_get_set.
    destruct (String.eqb k name) eqn:E0; simpl.
    + apply String.eqb_eq in E0. subst name.
      destruct (existsb (String.eqb k) rest); reflexivity.
    + reflexivity.
Qed.

Lemma fallback_fold_keys (names : list string) :
  forall data : dict string,
    distinct_keys data ->
    NoDup names ->
    (forall k, In k names -> ~ has_key k data) ->
    Dict.keys
      (fold_left
         (fun data field_name =>
            Dict.set field_name (fallback_value user_info ticket_count field_name) data)
         names data)
    = (Dict.keys data ++ names)%list.
Proof.
  induction names as [| name rest IH]; intros data Hd Hn Hfresh; simpl.
  - rewrite app_nil_r. reflexivity.
  - assert (Hk : Dict.keys (Dict.set name (fallback_value user_info ticket_count name) data)
                 = (Dict.keys data ++ [name])%list).
    { rewrite dict_keys_set. unfold Dict.mem.
      destruct (Dict.get name data) eqn:Eg; [| reflexivity].
      exfalso. apply (Hfresh name (or_introl eq_refl)).
      unfold has_key, Dict.keys. apply dict_get_in in Eg.
      apply (in_map fst) in Eg. exact Eg. }
    inversion Hn as [| ? ? Hnotin Hrest]; subst.
    rewrite IH.
    + rewrite Hk, <- app_assoc. reflexivity.
    + apply distinct_keys_set, Hd.
    + exact Hrest.
    + intros k Hin. unfold has_key. rewrite Hk. intros Hin'.
      apply in_app_or in Hin'. destruct Hin' as [Hin' | [<- | []]].
      * exact (Hfresh k (or_intror Hin) Hin').
      * exact (Hnotin Hin).
Qed.

(** X8.  The fallback filler gives every field of the form, and no other
    key, a value: the one its keyword rule picks for the field's name.  The
    fields keep their order. *)
Theorem fallback_form_data_lookup (form_data : dict field_info) :
  (forall k,
      Dict.get k (_fallback_form_data form_data user_info ticket_count)
      = if existsb (String.eqb k) (Dict.keys form_data)
        then Some (fallback_value user_info ticket_count k)
        else None)
  /\ (distinct_keys form_data ->
      Dict.keys (_fallback_form_data form_data user_info ticket_count)
      = Dict.keys form_data).
Proof.
  split.
  - intros k. unfold _fallback_form_data. rewrite fallback_fold_get. reflexivity.
  - intros Hd. unfold _fallback_form_data.
    rewrite fallback_fold_keys; [reflexivity | constructor | exact Hd |].
    intros k _ [].
Qed.

End Fallback.

Section Forms.

Context {W : Type}.
Variable env : environment W.
Variable cfg : settings.

Lemma truthy_not_empty name : PyStr.truthy name = true -> name <> "".
Proof. destruct name; [discriminate | intros _; discriminate]. Qed.

Lemma extracted_fields_set name info fields :
  extracted_fields fields ->
  extracted_field (name, info) ->
  extracted_fields (Dict.set name info fields).
Proof.
  intros [Hd Hf] He. split.
  - apply distinct_keys_set, Hd.
  - apply Forall_forall. intros entry Hin.
    destruct (dict_in_set _ _ _ _ Hin) as [-> | Hin']; [exact He |].
    rewrite Forall_forall in Hf. exact (Hf entry Hin').
Qed.

Lemma scan_inputs_fields inputs :
  forall fields,
    extracted_fields fields ->
    returns_only extracted_fields (scan_inputs env inputs fields).
Proof.
  induction inputs as [| input_elem rest IH]; intros fields Hf; simpl.
  - apply returns_only_ret, Hf.
  - apply returns_only_bind. intros ftype.
    apply returns_only_bind. intros [name |]; [| apply IH, Hf].
    destruct (PyStr.truthy name) eqn:Hname; simpl; [| apply IH, Hf].
    destruct (not_a_button ftype) eqn:Hbutton; [| apply IH, Hf].
    apply returns_only_bind. intros required.
    apply IH, extracted_fields_set; [exact Hf |].
    split; [apply truthy_not_empty, Hname | exact Hbutton].
Qed.

Lemma scan_selects_fields selects :
  forall fields,
    extracted_fields fields ->
    returns_only extracted_fields (scan_selects env selects fields).
Proof.
  induction selects as [| select_elem rest IH]; intros fields Hf; simpl.
  - apply returns_only_ret, Hf.
  - apply returns_only_bind. intros [name |]; [| apply IH, Hf].
    destruct (PyStr.truthy name) eqn:Hname; [| apply IH, Hf].
    apply returns_only_bind. intros options.
    apply returns_only_bind. intros values.
    apply IH, extracted_fields_set; [exact Hf |].
    split; [apply truthy_not_empty, Hname | exact I].
Qed.

Lemma extracted_fields_nil : extracted_fields [].
Proof. split; constructor. Qed.

(** X9.  [_extract_form_fields] always returns a dict, whatever the page
    does.  No field name in it is empty, none comes twice, and no entry is
    an input of type submit, button or hidden. *)
Theorem extract_form_fields_entries s :
  exists fields s',
    _extract_form_fields env s = (inr fields, s') /\ extracted_fields fields.
Proof.
  destruct (extract_form_fields_never_raises env s) as (fields & s' & E).
  exists fields, s'. split; [exact E |].
  revert s fields s' E.
  change (returns_only extracted_fields (_extract_form_fields env)).
  unfold _extract_form_fields. apply returns_only_try.
  - apply returns_only_bind. intros [| form forms].
    + apply returns_only_ret, extracted_fields_nil.
    + apply returns_only_bind. intros inputs.
      intros s fields s' E. unfold bind in E.
      destruct (scan_inputs env inputs [] s) as [[e | fields1] s1] eqn:E1;
        [discriminate |].
      pose proof (scan_inputs_fields inputs [] extracted_fields_nil _ _ _ E1) as H1.
      destruct (perform env (ElemFindElements form TAG_NAME "select") s1)
        as [[e | selects] s2]; [discriminate |].
      exact (scan_selects_fields selects fields1 H1 _ _ _ E).
  - intros e. apply returns_only_bind. intros _.
    apply returns_only_ret, extracted_fields_nil.
Qed.

(** *** Filling *)

Lemma returns_only_then {A B} (P : A -> Prop) (Q : B -> Prop) (m : M W A)
    (f : A -> M W B) :
  returns_only P m -> (forall a, P a -> returns_only Q (f a)) ->
  returns_only Q (bind m f).
Proof.
  intros Hm Hf s b s' E. unfold bind in E.
  destruct (m s) as [[e | a] s1] eqn:Em; [discriminate |].
  exact (Hf a (Hm _ _ _ Em) s1 b s' E).
Qed.

(** the value [fill_field] returns is what [generated_data.get] gives *)
Lemma fill_field_value generated_data field_name info :
  returns_only
    (fun value => PyVal.get field_name (PStr "") generated_data = inr value)
    (fill_field env generated_data field_name info).
Proof.
  unfold fill_field.
  destruct (PyVal.get field_name (PStr "") generated_data) as [e | value]; simpl.
  - intros s a s' E. discriminate.
  - intros s a s' E. unfold bind at 1, ret at 1 in E.
    unfold bind at 1 in E.
    match type of E with
    | context [match ?m with _ => _ end] =>
        destruct m as [[e | u] s1]; [discriminate |]
    end.
    injection E as <- _. reflexivity.
Qed.

(** the keys [fill_fields] adds are names of the items, and the value under
    each is what [generated_data.get] gives for it *)
Lemma fill_fields_values generated_data (Q : string -> pyval -> Prop) items :
  (forall field_name info, In (field_name, info) items ->
     forall value, PyVal.get field_name (PStr "") generated_data = inr value ->
                   Q field_name value) ->
  forall filled,
    (forall k v, Dict.get k filled = Some v -> Q k v) ->
    returns_only (fun filled' => forall k v, Dict.get k filled' = Some v -> Q k v)
      (fill_fields env generated_data items filled).
Proof.
  induction items as [| [field_name info] rest IH]; intros Hitems filled Hfilled; simpl.
  - apply returns_only_ret, Hfilled.
  - apply (returns_only_then
             (fun r => match r with
                       | Some value =>
                           PyVal.get field_name (PStr "") generated_data = inr value
                       | None => True
                       end)).
    + apply returns_only_try.
      * apply (returns_only_then _ _ _ _ (fill_field_value generated_data field_name info)).
        intros value Hv. apply returns_only_ret. exact Hv.
      * intros e. apply returns_only_bind. intros _. apply returns_only_ret. exact I.
    + intros [value |] Hv.
      * apply IH.
        -- intros fn i Hin. apply (Hitems fn i). right. exact Hin.
        -- intros k v. rewrite dict_get_set.
           destruct (String.eqb k field_name) eqn:Ek.
           ++ apply String.eqb_eq in Ek. subst k. intros [= <-].
              exact (Hitems field_name info (or_introl eq_refl) value Hv).
           ++ apply Hfilled.
      * apply IH; [| exact Hfilled].
        intros fn i Hin. apply (Hitems fn i). right. exact Hin.
Qed.

Lemma dict_get_map {A B} (f : A -> B) k (d : dict A) :
  Dict.get k (map (fun kv => (fst kv, f (snd kv))) d) = option_map f (Dict.get k d).
Proof.
  induction d as [| [k0 v0] d IH]; simpl; [reflexivity |].
  destruct (String.eqb k k0); [reflexivity | exact IH].
Qed.

(** without an agent, what the dict returned holds are fallback values
    under names of the form *)
Lemma fill_booking_form_values form_data user_info ticket_count :
  llm_agent cfg = false ->
  returns_only
    (fun filled => forall k v,
       Dict.get k filled = Some v ->
       has_key k form_data
       /\ v = PStr (fallback_value user_info ticket_count k))
    (_fill_booking_form env cfg form_data user_info ticket_count).
Proof.
  intros Hllm.
  unfold _fill_booking_form. rewrite Hllm.
  apply returns_only_try.
  - intros s filled s' E. unfold bind at 1, ret at 1 in E.
    refine (fill_fields_values _
              (fun k v => has_key k form_data
                          /\ v = PStr (fallback_value user_info ticket_count k))
              form_data _ [] _ s filled s' E).
    + intros field_name info Hin value Hv.
      assert (Hk : has_key field_name form_data).
      { unfold has_key, Dict.keys. apply (in_map fst) in Hin. exact Hin. }
      split; [exact Hk |].
      simpl in Hv. unfold Dict.get_default in Hv.
      rewrite dict_get_map in Hv.
      unfold _fallback_form_data in Hv. rewrite fallback_fold_get in Hv.
      assert (Hex : existsb (String.eqb field_name) (Dict.keys form_data) = true).
      { apply existsb_exists. exists field_name. split; [exact Hk |].
        apply String.eqb_refl. }
      rewrite Hex in Hv. simpl in Hv. injection Hv as <-. reflexivity.
    + intros k v Hget. discriminate.
  - intros e. apply returns_only_bind. intros _.
    apply returns_only_ret. intros k v Hget. discriminate.
Qed.

(** the fallback data holds a value for every field of the form *)
Lemma fallback_data_get form_data user_info ticket_count field_name :
  has_key field_name form_data ->
  PyVal.get field_name (PStr "")
    (PDict (map (fun kv => (fst kv, PStr (snd kv)))
              (_fallback_form_data form_data user_info ticket_count)))
  = inr (PStr (fallback_value user_info ticket_count field_name)).
Proof.
  intros Hk. simpl. unfold Dict.get_default.
  rewrite dict_get_map.
  unfold _fallback_form_data. rewrite fallback_fold_get.
  assert (Hex : existsb (String.eqb field_name) (Dict.keys form_data) = true).
  { apply existsb_exists. exists field_name. split; [exact Hk |].
    apply String.eqb_refl. }
  rewrite Hex. reflexivity.
Qed.

(** one turn of the loop: the value is entered and kept, or an exception
    is logged and the field left out *)
Lemma fill_one generated_data field_name info value s :
  PyVal.get field_name (PStr "") generated_data = inr value ->
  exists r s' evs,
    try_except
      (value <- fill_field env generated_data field_name info ;; ret (Some value))
      any_exception
      (fun e =>
         log WARNING ("Failed to fill field " ++ field_name ++ ": " ++ exn_msg e) ;;;
         ret None) s
    = (inr r, s')
    /\ trace s' = (trace s ++ evs)%list
    /\ ((r = Some value /\ In (EvCall (filling_call info value)) evs)
        \/ (r = None
            /\ exists e,
                 In (EvRaise e) evs
                 /\ In (EvLog WARNING
                          ("Failed to fill field " ++ field_name ++ ": " ++ exn_msg e))
                       evs)).
Proof.
  intros Hv.
  unfold fill_field, filling_call, try_except, bind, perform, lift, ret, log, emit.
  rewrite Hv. destruct (is_select info); cbv beta iota.
  - destruct (oracle env (SelectNew (field_element info)) (world s))
      as [[e | []] w1]; cbn [world trace fst snd].
    + do 3 eexists. split; [reflexivity |]. rewrite <- !app_assoc.
      split; [reflexivity |]. right. split; [reflexivity |].
      exists e. simpl. auto.
    + destruct (oracle env (SelectByValue (field_element info) value) w1)
        as [[e | []] w2]; cbn [world trace fst snd].
      * change (any_exception e) with true. cbv iota. cbn [world trace fst snd].
        destruct (oracle env (SelectByVisibleText (field_element info) value) w2)
          as [[e' | []] w3]; cbn [world trace fst snd].
        -- do 3 eexists. split; [reflexivity |]. rewrite <- !app_assoc.
           split; [reflexivity |]. right. split; [reflexivity |].
           exists e'. simpl. auto 10.
        -- do 3 eexists. split; [reflexivity |]. rewrite <- !app_assoc.
           split; [reflexivity |]. left. split; [reflexivity |]. simpl. auto.
      * do 3 eexists. split; [reflexivity |]. rewrite <- !app_assoc.
        split; [reflexivity |]. left. split; [reflexivity |]. simpl. auto.
  - destruct (oracle env (ElemClear (field_element info)) (world s))
      as [[e | []] w1]; cbn [world trace fst snd].
    + do 3 eexists. split; [reflexivity |]. rewrite <- !app_assoc.
      split; [reflexivity |]. right. split; [reflexivity |].
      exists e. simpl. auto.
    + destruct (oracle env (ElemSendKeys (field_element info) value) w1)
        as [[e | []] w2]; cbn [world trace fst snd].
      * do 3 eexists. split; [reflexivity |]. rewrite <- !app_assoc.
        split; [reflexivity |]. right. split; [reflexivity |].
        exists e. simpl. auto 10.
      * do 3 eexists. split; [reflexivity |]. rewrite <- !app_assoc.
        split; [reflexivity |]. left. split; [reflexivity |]. simpl. auto.
Qed.

Lemma field_outcome_later k info value filled evs1 evs2 :
  field_outcome k info value filled evs2 ->
  field_outcome k info value filled (evs1 ++ evs2).
Proof.
  intros [[Hg Hin] | (Hg & e & Hr & Hl)].
  - left. split; [exact Hg | apply in_or_app; auto].
  - right. split; [exact Hg |]. exists e. split; apply in_or_app; auto.
Qed.

(** the loop over the fields: every field of the form ends in one of the
    two ways; the keys of other fields are left as they were *)
Lemma fill_fields_each generated_data (val : string -> pyval) items :
  distinct_keys items ->
  (forall k, has_key k items ->
             PyVal.get k (PStr "") generated_data = inr (val k)) ->
  forall filled s,
    (forall k, has_key k items -> Dict.get k filled = None) ->
    exists filled' s' evs,
      fill_fields env generated_data items filled s = (inr filled', s')
      /\ trace s' = (trace s ++ evs)%list
      /\ (forall k, ~ has_key k items -> Dict.get k filled' = Dict.get k filled)
      /\ forall k info, In (k, info) items ->
           field_outcome k info (val k) filled' evs.
Proof.
  induction items as [| [field_name info] rest IH]; intros Hd Hval filled s Hnew.
  - exists filled, s, []. simpl. rewrite app_nil_r.
    split; [reflexivity |]. split; [reflexivity |]. split; [reflexivity |].
    intros k i [].
  - unfold distinct_keys in Hd. simpl in Hd. inversion Hd as [| x l Hnotin Hd']; subst.
    assert (Hv : PyVal.get field_name (PStr "") generated_data = inr (val field_name))
      by (apply Hval; left; reflexivity).
    destruct (fill_one generated_data field_name info (val field_name) s Hv)
      as (r & s1 & evs1 & E1 & T1 & Hr).
    cbn [fill_fields]. unfold bind at 1. rewrite E1.
    set (filled1 := match r with
                    | Some value => Dict.set field_name value filled
                    | None => filled
                    end).
    assert (Hnew1 : forall k, has_key k rest -> Dict.get k filled1 = None).
    { intros k Hk. assert (Hne : String.eqb k field_name = false).
      { apply String.eqb_neq. intros ->. exact (Hnotin Hk). }
      unfold filled1. destruct r.
      - rewrite dict_get_set, Hne. apply Hnew. right. exact Hk.
      - apply Hnew. right. exact Hk. }
    destruct (IH Hd' (fun k Hk => Hval k (or_intror Hk)) filled1 s1 Hnew1)
      as (filled' & s' & evs2 & E2 & T2 & Hkeep & Hrest).
    exists filled', s', (evs1 ++ evs2)%list.
    split; [unfold filled1 in E2; destruct r; exact E2 |].
    split; [rewrite T2, T1, app_assoc; reflexivity |].
    split.
    + intros k Hk. rewrite Hkeep by (intros Hin; apply Hk; right; exact Hin).
      unfold filled1. destruct r; [| reflexivity].
      rewrite dict_get_set.
      destruct (String.eqb k field_name) eqn:Ek; [| reflexivity].
      apply String.eqb_eq in Ek. subst k. exfalso. apply Hk. left. reflexivity.
    + intros k i [Heq | Hin].
      * injection Heq as <- <-.
        rewrite <- (app_nil_r (evs1 ++ evs2)), <- app_assoc.
        unfold field_outcome. rewrite (Hkeep field_name Hnotin).
        destruct Hr as [[-> Hcall] | (-> & e & Hraise & Hlog)]; unfold filled1.
        -- left. rewrite dict_get_set, String.eqb_refl.
           split; [reflexivity | apply in_or_app; auto].
        -- right. split; [apply Hnew; left; reflexivity |].
           exists e. split; apply in_or_app; auto.
      * apply field_outcome_later. exact (Hrest k i Hin).
Qed.

(** X10.  Without an agent, [_fill_booking_form] goes through every field
    of the form and returns a dict.  A field ends in one of two ways: its
    name is a key of the dict, with the value the fallback rule gives for
    the name, and the call that enters this value into the field was made;
    or an exception stopped its filling, was logged as a warning, and the
    field is left out.  The dict holds nothing else. *)
Theorem fill_booking_form_fallback form_data user_info ticket_count s :
  llm_agent cfg = false ->
  distinct_keys form_data ->
  exists filled s' evs,
    _fill_booking_form env cfg form_data user_info ticket_count s = (inr filled, s')
    /\ trace s' = (trace s ++ evs)%list
    /\ (forall k v,
          Dict.get k filled = Some v ->
          has_key k form_data
          /\ v = PStr (fallback_value user_info ticket_count k))
    /\ forall k info,
         In (k, info) form_data ->
         field_outcome k info (PStr (fallback_value user_info ticket_count k))
           filled evs.
Proof.
  intros Hllm Hd.
  destruct (fill_fields_each
              (PDict (map (fun kv => (fst kv, PStr (snd kv)))
                        (_fallback_form_data form_data user_info ticket_count)))
              (fun k => PStr (fallback_value user_info ticket_count k))
              form_data Hd
              (fallback_data_get form_data user_info ticket_count)
              [] s (fun _ _ => eq_refl))
    as (filled & s' & evs & E & T & _ & Heach).
  assert (Em : _fill_booking_form env cfg form_data user_info ticket_count s
               = (inr filled, s')).
  { unfold _fill_booking_form, try_except. rewrite Hllm.
    unfold bind at 1, ret at 1. rewrite E. reflexivity. }
  exists filled, s', evs.
  split; [exact Em |]. split; [exact T |].
  split; [| exact Heach].
  exact (fill_booking_form_values form_data user_info ticket_count Hllm
           s filled s' Em).
Qed.

End Forms.

(** ** Navigation: [_navigate_to_booking_page] *)

Section Navigation.

Context {W : Type}.
Variable env : environment W.
Variable cfg : settings.

Lemma scan_next_steps_cons step rest (s : state W) :
  scan_next_steps (step :: rest) s
  = match PyVal.lower step with
    | inl e => (inl e, State (world s) (trace s ++ [EvRaise e]))
    | inr _ => scan_next_steps rest s
    end.
Proof.
  simpl. unfold bind. destruct (PyVal.lower step) as [e | lowered]; simpl.
  - reflexivity.
  - destruct (PyStr.contains "click" lowered); reflexivity.
Qed.

(** reading the steps of the analysis changes nothing, or raises *)
Lemma scan_next_steps_run steps (s : state W) :
  scan_next_steps steps s = (inr tt, s)
  \/ exists e, scan_next_steps steps s
               = (inl e, State (world s) (trace s ++ [EvRaise e])).
Proof.
  induction steps as [| step rest IH].
  - left. reflexivity.
  - rewrite scan_next_steps_cons. destruct (PyVal.lower step) as [e | lowered].
    + right. exists e. reflexivity.
    + exact IH.
Qed.

Lemma scan_next_steps_strings steps (s : state W) :
  Forall (fun step => exists text, step = PStr text) steps ->
  scan_next_steps steps s = (inr tt, s).
Proof.
  induction 1 as [| step rest [text ->] _ IH].
  - reflexivity.
  - rewrite scan_next_steps_cons. exact IH.
Qed.

Lemma bind_lift {A B} (r : exn + A) (f : A -> M W B) (s : state W) :
  bind (lift r) f s
  = match r with
    | inl e => (inl e, State (world s) (trace s ++ [EvRaise e]))
    | inr a => f a s
    end.
Proof. destruct r; reflexivity. Qed.

Lemma use_llm_analysis_run page_analysis (s : state W) :
  use_llm_analysis page_analysis s = (inr tt, s)
  \/ exists e, use_llm_analysis page_analysis s
               = (inl e, State (world s) (trace s ++ [EvRaise e])).
Proof.
  unfold use_llm_analysis.
  destruct (PyVal.truthy page_analysis); [| left; reflexivity].
  rewrite bind_lift.
  destruct (PyVal.contains_str "next_steps" page_analysis) as [e | [|]].
  - right. exists e. reflexivity.
  - rewrite bind_lift.
    destruct (PyVal.getitem_str "next_steps" page_analysis) as [e | next_steps].
    + right. exists e. reflexivity.
    + rewrite bind_lift. destruct (PyVal.iterate next_steps) as [e | steps].
      * right. exists e. reflexivity.
      * apply scan_next_steps_run.
  - left. reflexivity.
Qed.

Lemma navigate_after_analysis page_analysis (s : state W) :
  use_llm_analysis page_analysis s = (inr tt, s) ->
  _navigate_to_booking_page env cfg page_analysis s
  = _navigate_to_booking_page env cfg (PDict []) s.
Proof.
  intros E. unfold _navigate_to_booking_page, try_except, bind.
  rewrite E. reflexivity.
Qed.

(** X11.  The AI analysis never changes where [_navigate_to_booking_page]
    clicks.  For every analysis the method does exactly what it does
    without one, or reading the analysis raises and the method returns
    False without a single call to the browser.  An analysis that is a dict
    without the key next_steps, or whose next_steps is a list of strings,
    is of the first kind. *)
Theorem navigation_ignores_analysis page_analysis s :
  (_navigate_to_booking_page env cfg page_analysis s
   = _navigate_to_booking_page env cfg (PDict []) s
   \/ exists e,
        _navigate_to_booking_page env cfg page_analysis s
        = (inr false, navigation_failed e s))
  /\ (forall d,
        page_analysis = PDict d ->
        (Dict.get "next_steps" d = None
         \/ exists steps,
              Dict.get "next_steps" d = Some (PList steps)
              /\ Forall (fun step => exists text, step = PStr text) steps) ->
        _navigate_to_booking_page env cfg page_analysis s
        = _navigate_to_booking_page env cfg (PDict []) s).
Proof.
  split.
  - destruct (use_llm_analysis_run page_analysis s) as [E | (e & E)].
    + left. apply navigate_after_analysis, E.
    + right. exists e.
      unfold _navigate_to_booking_page, try_except, bind at 1. rewrite E.
      unfold any_exception, bind, log, emit, ret, navigation_failed. simpl.
      rewrite <- app_assoc. reflexivity.
  - intros d -> Hsteps. apply navigate_after_analysis.
    unfold use_llm_analysis. destruct d as [| entry d']; [reflexivity |].
    change (PyVal.truthy (PDict (entry :: d'))) with true. cbv iota.
    rewrite bind_lift.
    unfold PyVal.contains_str, Dict.mem.
    destruct Hsteps as [Hnone | (steps & Hsome & Hstr)].
    + rewrite Hnone. reflexivity.
    + rewrite Hsome. rewrite bind_lift. unfold PyVal.getitem_str.
      rewrite Hsome. rewrite bind_lift. simpl PyVal.iterate. cbv iota.
      apply scan_next_steps_strings, Hstr.
Qed.

End Navigation.

(** ** The summary: [get_booking_summary] after [book_tickets] *)

Section Summary.

Context {W : Type}.
Variable env : environment W.
Variable cfg : settings.

Lemma success_rate_bounds sc :
  plausible_counters sc -> (0 <= success_rate sc <= 4)%Q.
Proof.
  unfold plausible_counters, success_rate. intros [Hlo Hhi].
  assert (Hpos : (0 < inject_Z (Z.max 1 (booking_attempts sc)))%Q).
  { change 0%Q with (inject_Z 0). rewrite <- Zlt_Qlt. lia. }
  rewrite Qred_correct. split.
  - apply Qle_shift_div_l; [exact Hpos |].
    rewrite Qmult_0_l. change 0%Q with (inject_Z 0). rewrite <- Zle_Qle. exact Hlo.
  - apply Qle_shift_div_r; [exact Hpos |].
    change 4%Q with (inject_Z 4). rewrite <- inject_Z_mult, <- Zle_Qle. lia.
Qed.

(** X12.  [book_tickets] keeps the counters plausible: it adds to
    [successful_bookings] at most four for each attempt it counts.  So the
    success_rate of the summary is the number of tickets booked for each
    attempt, a number between 0 and 4, and not a share of the attempts. *)
Theorem booking_summary_rate website_url user_info ticket_count sc s now :
  plausible_counters sc ->
  exists rs sc' s',
    book_tickets env cfg website_url user_info ticket_count sc s = (inr (rs, sc'), s')
    /\ plausible_counters sc'
    /\ exists rate,
         Dict.get "success_rate" (get_booking_summary sc' now) = Some (PFloat rate)
         /\ (0 <= rate <= 4)%Q.
Proof.
  intros Hsc.
  destruct (book_loop_results env cfg website_url user_info (attempt_budget cfg sc) sc
              (Session [] ticket_count) s (Forall_nil _))
    as (sc' & ss' & s' & E & Hwf).
  destruct (book_loop_effect env cfg website_url user_info (attempt_budget cfg sc) sc
              (Session [] ticket_count) s)
    as (sc2 & ss2 & s2 & E2 & Hmono & _ & _ & _ & Hsum & _ & Hlen).
  rewrite E in E2. injection E2 as <- <- <-.
  simpl in Hsum, Hlen. apply tickets_of_well_formed in Hwf.
  assert (Hsc' : plausible_counters sc').
  { unfold plausible_counters in *. lia. }
  exists (results ss'), sc', s'. split; [| split; [exact Hsc' |]].
  - unfold book_tickets. rewrite (bind_returns _ _ _ _ _ E). reflexivity.
  - exists (success_rate sc'). split; [reflexivity |].
    apply success_rate_bounds, Hsc'.
Qed.

End Summary.

Lemma booking_summary_rate_witness :
  exists rs sc' s',
    book_tickets (Site.env Site.shop) (Site.plain 5) Site.url Site.jane 4 fresh
      Site.start = (inr (rs, sc'), s')
    /\ plausible_counters sc'
    /\ exists rate,
         Dict.get "success_rate" (get_booking_summary sc' 0) = Some (PFloat rate)
         /\ (0 <= rate <= 4)%Q.
Proof.
  apply (booking_summary_rate (Site.env Site.shop) (Site.plain 5) Site.url Site.jane 4
           fresh Site.start 0).
  unfold plausible_counters. simpl. lia.
Defined.

(** ** The CAPTCHA: when [_handle_captcha] lets the attempt go on *)

Section CaptchaPassed.

Context {W : Type}.
Variable env : environment W.
Variable cfg : settings.



End CaptchaPassed.

(** ** The matcher finds only what the expression matches *)

Section Matcher.

Variable ic : bool.

Lemma firstn_prefix {A} (u s' : list A) :
  firstn (List.length (u ++ s') - List.length s') (u ++ s') = u.
Proof.
  rewrite length_app. replace (List.length u + List.length s' - List.length s')%nat
    with (List.length u + 0)%nat by lia.
  rewrite firstn_app_2. simpl. apply app_nil_r.
Qed.

Lemma one_char_sound p s k res :
  Re.one_char p s k = Some res ->
  exists x s', s = x :: s' /\ p x = true /\ k s' = Some res.
Proof.
  destruct s as [| x s']; simpl; [discriminate |].
  destruct (p x) eqn:Hp; [| discriminate].
  intros H. exists x, s'. auto.
Qed.

(** a successful run of [go] read [r] off the head of the text and went on
    with the rest *)
Lemma go_sound r :
  forall s g k res,
    Re.go ic r s g k = Some res ->
    exists u s' g',
      s = (u ++ s')%list /\ matches ic r u g g' /\ k s' g' = Some res.
Proof.
  induction r as [| c | | ranges | r1 IH1 r2 IH2 | r1 IH1 r2 IH2 | r1 IH1 | r1 IH1
                  | r1 IH1]; intros s g k res H.
  - exists [], s, g. split; [reflexivity |]. split; [constructor | exact H].
  - simpl in H. apply one_char_sound in H. destruct H as (x & s' & -> & Hp & Hk).
    exists [x], s', g. split; [reflexivity |]. split; [constructor; exact Hp | exact Hk].
  - simpl in H. apply one_char_sound in H. destruct H as (x & s' & -> & Hp & Hk).
    exists [x], s', g. split; [reflexivity |]. split; [constructor; exact Hp | exact Hk].
  - simpl in H. apply one_char_sound in H. destruct H as (x & s' & -> & Hp & Hk).
    exists [x], s', g. split; [reflexivity |]. split; [constructor; exact Hp | exact Hk].
  - simpl in H. apply IH1 in H. destruct H as (u1 & s1 & g1 & -> & M1 & H).
    apply IH2 in H. destruct H as (u2 & s2 & g2 & -> & M2 & H).
    exists (u1 ++ u2)%list, s2, g2. rewrite <- app_assoc.
    split; [reflexivity |]. split; [econstructor; eassumption | exact H].
  - simpl in H. destruct (Re.go ic r1 s g k) as [m |] eqn:E1.
    + injection H as ->. apply IH1 in E1. destruct E1 as (u & s' & g' & -> & M & Hk).
      exists u, s', g'. split; [reflexivity |].
      split; [apply matches_alt_left; exact M | exact Hk].
    + apply IH2 in H. destruct H as (u & s' & g' & -> & M & Hk).
      exists u, s', g'. split; [reflexivity |].
      split; [apply matches_alt_right; exact M | exact Hk].
  - simpl in H. destruct (Re.go ic r1 s g k) as [m |] eqn:E1.
    + injection H as ->. apply IH1 in E1. destruct E1 as (u & s' & g' & -> & M & Hk).
      exists u, s', g'. split; [reflexivity |].
      split; [apply matches_opt_some; exact M | exact Hk].
    + exists [], s, g. split; [reflexivity |].
      split; [apply matches_opt_none | exact H].
  - simpl in H. revert H. generalize (List.length s) at 1. intros n. revert s g.
    induction n as [| n IHn]; intros s g H.
    + exists [], s, g. split; [reflexivity |].
      split; [apply matches_star_nil | exact H].
    + match type of H with
      | match ?m with _ => _ end = _ => destruct m as [m1 |] eqn:E1
      end.
      * injection H as ->. apply IH1 in E1.
        destruct E1 as (u1 & s1 & g1 & -> & M1 & Hk).
        destruct (Nat.ltb (List.length s1) (List.length (u1 ++ s1)));
          [| discriminate].
        apply IHn in Hk. destruct Hk as (u2 & s2 & g2 & -> & M2 & Hk).
        exists (u1 ++ u2)%list, s2, g2. rewrite <- app_assoc.
        split; [reflexivity |].
        split; [eapply matches_star_cons; eassumption | exact Hk].
      * exists [], s, g. split; [reflexivity |].
        split; [apply matches_star_nil | exact H].
  - simpl in H. apply IH1 in H. destruct H as (u & s' & g' & -> & M & Hk).
    rewrite firstn_prefix in Hk.
    exists u, s', (Some u). split; [reflexivity |].
    split; [econstructor; exact M | exact Hk].
Qed.

(** what [re.search] returns as group 1 is the final group of a match *)
Lemma search_list_sound r s res :
  Re.search_list ic r s = Some res ->
  exists u g', matches ic r u None g' /\ res = g'.
Proof.
  induction s as [| x s IH]; simpl.
  - destruct (Re.match_here ic r []) as [g |] eqn:E; [| discriminate].
    intros [= <-]. unfold Re.match_here in E. apply go_sound in E.
    destruct E as (u & s' & g' & _ & M & [= <-]). exists u, g'. auto.
  - destruct (Re.match_here ic r (x :: s)) as [g |] eqn:E; [| exact IH].
    intros [= <-]. unfold Re.match_here in E. apply go_sound in E.
    destruct E as (u & s' & g' & _ & M & [= <-]). exists u, g'. auto.
Qed.

(** an expression that ends with its group leaves in group 1 a text the
    body of the group matches *)
Lemma last_group_matched r :
  forall body u g g',
    last_group r = Some body ->
    matches ic r u g g' ->
    exists v g0 g1, g' = Some v /\ matches ic body v g0 g1.
Proof.
  induction r; intros body u g g' Hl M; simpl in Hl; try discriminate.
  - inversion M; subst. eapply IHr2; eassumption.
  - injection Hl as <-. inversion M; subst. eauto.
Qed.

End Matcher.

(** ** What the patterns of [_extract_confirmation_details] capture *)

Lemma digit_class x :
  Re.class_matches true [("0", "9")%char] x = true -> is_digit x.
Proof.
  unfold is_digit.
  destruct x as [[] [] [] [] [] [] [] []]; vm_compute; intros; congruence.
Qed.

Lemma dot_literal x : Re.lit_matches true "."%char x = true -> x = "."%char.
Proof.
  destruct x as [[] [] [] [] [] [] [] []]; vm_compute; intros; congruence.
Qed.

Lemma digit_not_dot c : is_digit c -> Ascii.eqb c "."%char = false.
Proof.
  intros Hd. destruct (Ascii.eqb_spec c "."%char) as [-> |]; [| reflexivity].
  exfalso. apply Hd. reflexivity.
Qed.

Lemma star_digits u g g' :
  matches true (Re.Star (Re.Class [("0", "9")%char])) u g g' -> Forall is_digit u.
Proof.
  intros M. remember (Re.Star (Re.Class [("0", "9")%char])) as r eqn:Hr.
  induction M; try discriminate Hr.
  - constructor.
  - injection Hr as ->. apply Forall_app. split; [| apply IHM2; reflexivity].
    inversion M1; subst. constructor; [apply digit_class; assumption | constructor].
Qed.

(** the text a cost pattern captures: digits, then maybe a dot and more digits *)
Lemma cost_body_shape v g0 g1 :
  matches true cost_body v g0 g1 ->
  exists ip fp,
    ip <> [] /\ Forall is_digit ip /\ Forall is_digit fp
    /\ (v = (ip ++ fp)%list \/ v = (ip ++ "."%char :: fp)%list).
Proof.
  unfold cost_body. simpl Re.cat. unfold Re.Plus. intros M.
  inversion M as [| | | | r1 r2 u1 u2 ga gb gc Mplus Mrest | | | | | | |]; subst.
  inversion Mplus as [| | | | r1 r2 ua ub gd ge gf Mfirst Mmore | | | | | | |]; subst.
  inversion Mfirst; subst.
  inversion Mrest as [| | | | r1 r2 uc ud gh gi gj Mdot Mfrac | | | | | | |]; subst.
  apply star_digits in Mmore. apply star_digits in Mfrac.
  match goal with H : Re.class_matches true _ ?c = true |- _ =>
    apply digit_class in H; rename H into Hx; rename c into d
  end.
  inversion Mdot as [| | | | | | | r u ga' gb' Mlit | r ga' | | |]; subst.
  - inversion Mlit; subst.
    match goal with H : Re.lit_matches true _ _ = true |- _ =>
      apply dot_literal in H; subst
    end.
    exists (d :: ub), ud. split; [discriminate |].
    split; [constructor; [exact Hx | exact Mmore] |].
    split; [exact Mfrac |]. right. reflexivity.
  - exists ((d :: ub) ++ ud)%list, []. split; [discriminate |].
    split; [apply Forall_app; split; [constructor; [exact Hx | exact Mmore]
                                     | exact Mfrac] |].
    split; [constructor |]. left. rewrite app_nil_r. reflexivity.
Qed.

Lemma number_body_shape v g0 g1 : matches true number_body v g0 g1 -> v <> [].
Proof.
  unfold number_body, Re.Plus. intros M.
  inversion M as [| | | | r1 r2 u1 u2 ga gb gc Mfirst Mmore | | | | | | |]; subst.
  inversion Mfirst; subst. discriminate.
Qed.

(** *** [float] reads what a cost pattern captures *)

Lemma digits_of_digits s :
  Forall is_digit s ->
  forall acc, 0 <= acc -> exists n, PyFloat.digits acc s = Some n /\ 0 <= n.
Proof.
  induction 1 as [| c s Hc _ IH]; intros acc Hacc; cbn [PyFloat.digits].
  - exists acc. auto.
  - unfold is_digit in Hc. destruct (PyFloat.digit c) as [d |] eqn:Ed; [| congruence].
    apply IH. unfold PyFloat.digit in Ed.
    destruct (Nat.leb 48 (nat_of_ascii c) && Nat.leb (nat_of_ascii c) 57)%bool;
      [| discriminate].
    injection Ed as <-. lia.
Qed.

Lemma split_dot_digits ip :
  Forall is_digit ip ->
  PyFloat.split_dot ip = (ip, None)
  /\ forall fp, PyFloat.split_dot (ip ++ "."%char :: fp) = (ip, Some fp).
Proof.
  induction 1 as [| c ip Hc _ [IH1 IH2]]; simpl.
  - split; reflexivity.
  - rewrite (digit_not_dot c Hc), IH1. split; [reflexivity |].
    intros fp. rewrite IH2. reflexivity.
Qed.

Lemma float_of_cost v g0 g1 :
  matches true cost_body v g0 g1 ->
  exists q, PyFloat.of_string (string_of_list_ascii v) = Some q /\ (0 <= q)%Q.
Proof.
  intros M. apply cost_body_shape in M.
  destruct M as (ip & fp & Hne & Hip & Hfp & Hv).
  unfold PyFloat.of_string. rewrite list_ascii_of_string_of_list_ascii.
  destruct (digits_of_digits ip Hip 0 (Z.le_refl 0)) as (i & Ei & Hi).
  destruct (digits_of_digits fp Hfp 0 (Z.le_refl 0)) as (f & Ef & Hf).
  destruct Hv as [-> | ->].
  - assert (Hall : Forall is_digit (ip ++ fp)) by (apply Forall_app; auto).
    destruct (split_dot_digits _ Hall) as [-> _].
    destruct (digits_of_digits _ Hall 0 (Z.le_refl 0)) as (n & -> & Hn).
    destruct (ip ++ fp)%list as [| c rest] eqn:Eall.
    { destruct ip; [congruence | discriminate]. }
    simpl PyFloat.digits. eexists. split; [reflexivity |].
    rewrite Qred_correct. unfold Qle. simpl. lia.
  - destruct (split_dot_digits _ Hip) as [_ ->].
    rewrite Ei, Ef. destruct ip as [| c rest]; [congruence |].
    eexists. split; [reflexivity |].
    rewrite Qred_correct. unfold Qle. simpl Qnum. simpl Qden.
    assert (0 < 10 ^ Z.of_nat (List.length fp)) by (apply Z.pow_pos_nonneg; lia).
    nia.
Qed.

(** *** The two loops over the patterns *)

Lemma search_group pattern body text g :
  group_body pattern = Some body ->
  Re.search pattern text = Re.Match g ->
  exists v g0 g1, g = Some (string_of_list_ascii v) /\ matches true body v g0 g1.
Proof.
  unfold group_body, Re.search, Re.search_regex.
  destruct (Re.compile pattern) as [r |]; [| discriminate].
  intros Hl H.
  destruct (Re.search_list true r (list_ascii_of_string text)) as [res |] eqn:Es;
    [| discriminate].
  injection H as <-. apply search_list_sound in Es.
  destruct Es as (u & g' & M & ->).
  destruct (last_group_matched true r body u None g' Hl M) as (v & g0 & g1 & -> & Mb).
  exists v, g0, g1. auto.
Qed.

Lemma first_match_group patterns body text :
  Forall (fun pattern => group_body pattern = Some body) patterns ->
  Re.first_match patterns text <> Re.BadPattern
  /\ forall g,
       Re.first_match patterns text = Re.Match g ->
       exists v g0 g1, g = Some (string_of_list_ascii v) /\ matches true body v g0 g1.
Proof.
  induction 1 as [| pattern rest Hp _ [IHbad IHg]]; simpl.
  - split; [discriminate | intros g; discriminate].
  - destruct (Re.search pattern text) as [| | g1] eqn:Es.
    + exfalso. unfold group_body, Re.search in *.
      destruct (Re.compile pattern); [| discriminate].
      unfold Re.search_regex in Es. destruct (Re.search_list _ _ _); discriminate.
    + split; assumption.
    + split; [discriminate |]. intros g [= <-].
      exact (search_group pattern body text g1 Hp Es).
Qed.

Lemma conf_patterns_groups :
  Forall (fun pattern => group_body pattern = Some number_body) conf_patterns.
Proof. repeat constructor. Qed.

Lemma cost_patterns_groups :
  Forall (fun pattern => group_body pattern = Some cost_body) cost_patterns.
Proof. repeat constructor. Qed.

Section Details.

Context {W : Type}.
Variable env : environment W.

Lemma string_of_list_not_empty v : v <> [] -> string_of_list_ascii v <> "".
Proof. destruct v; [congruence | discriminate]. Qed.

(** a page the parser refuses ends the method at once *)
Lemma confirmation_details_refused page_text e :
  soup_get_text env page_text = inl e ->
  confirmation_details env page_text = inl e.
Proof. intros H. unfold confirmation_details. rewrite H. reflexivity. Qed.

(** on a page the parser accepts, nothing else can fail *)
Lemma confirmation_details_sound page_text content :
  soup_get_text env page_text = inr content ->
  exists details,
    confirmation_details env page_text = inr details
    /\ sound_details content details.
Proof.
  intros Hsoup. unfold confirmation_details. rewrite Hsoup.
  destruct (first_match_group conf_patterns number_body page_text conf_patterns_groups)
    as [Hbad Hnum].
  destruct (first_match_group cost_patterns cost_body page_text cost_patterns_groups)
    as [Hbad' Hcost].
  destruct (Re.first_match conf_patterns page_text) as [| | gn] eqn:En;
    [congruence | |];
    (destruct (Re.first_match cost_patterns page_text) as [| | gc] eqn:Ec;
     [congruence | |]).
  - eexists. split; [reflexivity |]. unfold sound_details. simpl.
    split; [discriminate |]. split; [discriminate | reflexivity].
  - destruct (Hcost gc eq_refl) as (v & g0 & g1 & -> & M).
    destruct (float_of_cost v g0 g1 M) as (q & Eq & Hq).
    unfold float_of_group. rewrite Eq.
    eexists. split; [reflexivity |]. unfold sound_details. simpl.
    split; [intros x [= <-]; eauto |]. split; [discriminate | reflexivity].
  - destruct (Hnum gn eq_refl) as (v & g0 & g1 & -> & M).
    apply number_body_shape in M.
    eexists. split; [reflexivity |]. unfold sound_details. simpl.
    split; [discriminate |].
    split; [| reflexivity].
    intros x [= <-]. eexists. split; [reflexivity |].
    apply string_of_list_not_empty, M.
  - destruct (Hnum gn eq_refl) as (v & g0 & g1 & -> & M).
    apply number_body_shape in M.
    destruct (Hcost gc eq_refl) as (v' & g0' & g1' & -> & M').
    destruct (float_of_cost v' g0' g1' M') as (q & Eq & Hq).
    unfold float_of_group. rewrite Eq.
    eexists. split; [reflexivity |]. unfold sound_details. simpl.
    split; [intros x [= <-]; eauto |].
    split; [| reflexivity].
    intros x [= <-]. eexists. split; [reflexivity |].
    apply string_of_list_not_empty, M.
Qed.

(** X14.  Once the page source is read, the one step of
    [_extract_confirmation_details] that can fail is the making of the soup.
    On a page the HTML parser accepts, every pattern compiles, a cost
    pattern captures digits with at most one dot, which [float] reads, and
    the method returns the details without logging an error: the cost is
    never negative, the number never empty, the text of the page always
    there.  On a page the parser refuses, the method logs the parser's
    exception and returns the empty dict. *)
Theorem extract_confirmation_details_reads s page_text w' :
  oracle env DriverPageSource (world s) = (inr page_text, w') ->
  match soup_get_text env page_text with
  | inr content =>
      exists details,
        _extract_confirmation_details env s
        = (inr details, State w' (trace s ++ [EvCall DriverPageSource]))
        /\ sound_details content details
  | inl e =>
      _extract_confirmation_details env s
      = (inr [],
         State w'
           (trace s
            ++ [EvCall DriverPageSource; EvRaise e;
                EvLog ERROR ("Confirmation extraction failed: " ++ exn_msg e)]))
  end.
Proof.
  intros Hsrc.
  destruct (soup_get_text env page_text) as [e | content] eqn:Hsoup.
  - unfold _extract_confirmation_details, try_except, bind, perform.
    rewrite Hsrc, (confirmation_details_refused page_text e Hsoup).
    simpl. rewrite <- !app_assoc. reflexivity.
  - destruct (confirmation_details_sound page_text content Hsoup)
      as (details & E & Hd).
    exists details. split; [| exact Hd].
    unfold _extract_confirmation_details, try_except, bind, perform.
    rewrite Hsrc, E. reflexivity.
Qed.

End Details.

Lemma extract_confirmation_details_reads_witness :
  (exists details,
     _extract_confirmation_details (Site.env Site.headed_receipt) Site.start
     = (inr details, State false [EvCall DriverPageSource])
     /\ sound_details
          "Order ConfirmationYour order number: AB12345 Total: $45.50" details)
  /\ fst (_extract_confirmation_details
            (overriding Cases.marked_section (Site.env Site.receipt)) Site.start)
     = inr [].
Proof.
  split.
  - exact (extract_confirmation_details_reads (Site.env Site.headed_receipt)
             Site.start Site.headed_receipt_text false eq_refl).
  - rewrite (extract_confirmation_details_reads
               (overriding Cases.marked_section (Site.env Site.receipt)) Site.start
               Cases.marked_receipt false eq_refl).
    reflexivity.
Defined.

(** ** The matcher, step by step *)

Section Steps.

Variable ic : bool.




Lemma go_class_nil ranges g k : Re.go ic (Re.Class ranges) [] g k = None.
Proof. reflexivity. Qed.

Lemma go_lit_nil c g k : Re.go ic (Re.Lit c) [] g k = None.
Proof. reflexivity. Qed.







End Steps.

(** *** The receipt, read by the order and the total patterns *)








(** *** Where the search stops *)











Section Receipt.

Context {W : Type}.
Variable env : environment W.





End Receipt.


(** ** Without an agent, no call to one *)

Section WithoutAgent.

Context {W : Type}.
Variable env : environment W.
Variable cfg : settings.
Hypothesis no_agent : llm_agent cfg = false.

Lemma llm_free_wait_for_page_load : emits not_an_llm_call (_wait_for_page_load env cfg).
Proof. unfold _wait_for_page_load. emits_auto. Qed.

Lemma llm_free_random_delay : emits not_an_llm_call (_random_delay env).
Proof. unfold _random_delay. emits_auto. Qed.

Lemma llm_free_safe_click_round elem attempt :
  emits not_an_llm_call (safe_click_round env elem attempt).
Proof. unfold safe_click_round. emits_auto. Qed.

Lemma llm_free_safe_click_loop elem attempts :
  emits not_an_llm_call (safe_click_loop env elem attempts).
Proof.
  induction attempts as [| attempt rest IH]; simpl.
  - emits_auto.
  - apply emits_bind; [apply llm_free_safe_click_round |].
    intros [b |]; [emits_auto | exact IH].
Qed.

Lemma llm_free_safe_click elem : emits not_an_llm_call (_safe_click env elem).
Proof. apply llm_free_safe_click_loop. Qed.

Lemma llm_free_analyze_current_page url :
  emits not_an_llm_call (_analyze_current_page env cfg url).
Proof. unfold _analyze_current_page. rewrite no_agent. simpl. emits_auto. Qed.

Lemma llm_free_is_ticket_page : emits not_an_llm_call (_is_ticket_page env).
Proof. unfold _is_ticket_page. emits_auto. Qed.

Lemma llm_free_needs_navigation : emits not_an_llm_call (_needs_navigation env).
Proof. unfold _needs_navigation. emits_auto. Qed.

Lemma llm_free_scan_next_steps steps :
  emits not_an_llm_call (scan_next_steps (W := W) steps).
Proof.
  induction steps as [| step rest IH]; simpl.
  - emits_auto.
  - apply emits_bind; [emits_auto |].
    intros lowered. apply emits_bind; [emits_auto | intros _; exact IH].
Qed.

Lemma llm_free_use_llm_analysis page_analysis :
  emits not_an_llm_call (use_llm_analysis (W := W) page_analysis).
Proof.
  unfold use_llm_analysis.
  destruct (PyVal.truthy page_analysis); [| emits_auto].
  apply emits_bind; [emits_auto |]. intros [|]; [| emits_auto].
  apply emits_bind; [emits_auto |]. intros next_steps.
  apply emits_bind; [emits_auto |]. intros steps.
  apply llm_free_scan_next_steps.
Qed.

Lemma llm_free_click_first_booking_link selectors :
  emits not_an_llm_call (click_first_booking_link env cfg selectors).
Proof.
  induction selectors as [| selector rest IH]; simpl.
  - emits_auto.
  - apply emits_try_except; [| intros _; exact IH].
    apply emits_bind; [emits_auto |]. intros elem.
    apply emits_bind; [apply llm_free_safe_click |]. intros _.
    apply emits_bind; [apply llm_free_wait_for_page_load |]. intros _.
    emits_auto.
Qed.

Lemma llm_free_navigate_to_booking_page page_analysis :
  emits not_an_llm_call (_navigate_to_booking_page env cfg page_analysis).
Proof.
  unfold _navigate_to_booking_page.
  apply emits_try_except; [| intros; emits_auto].
  apply emits_bind; [apply llm_free_use_llm_analysis |]. intros _.
  apply llm_free_click_first_booking_link.
Qed.

Lemma llm_free_name_or_id elem : emits not_an_llm_call (name_or_id env elem).
Proof. unfold name_or_id. emits_auto. Qed.

Lemma llm_free_scan_inputs inputs :
  forall fields, emits not_an_llm_call (scan_inputs env inputs fields).
Proof.
  induction inputs as [| input_elem rest IH]; intros fields; simpl.
  - emits_auto.
  - apply emits_bind; [emits_auto |]. intros ftype.
    apply emits_bind; [apply llm_free_name_or_id |]. intros [name |]; [| apply IH].
    destruct (PyStr.truthy name && not_a_button ftype)%bool; [| apply IH].
    apply emits_bind; [emits_auto |]. intros required. apply IH.
Qed.

Lemma llm_free_option_values options :
  emits not_an_llm_call (option_values env options).
Proof.
  induction options as [| opt rest IH]; simpl.
  - emits_auto.
  - apply emits_bind; [emits_auto |]. intros v.
    apply emits_bind; [exact IH |]. intros vs. emits_auto.
Qed.

Lemma llm_free_scan_selects selects :
  forall fields, emits not_an_llm_call (scan_selects env selects fields).
Proof.
  induction selects as [| select_elem rest IH]; intros fields; simpl.
  - emits_auto.
  - apply emits_bind; [apply llm_free_name_or_id |]. intros [name |]; [| apply IH].
    destruct (PyStr.truthy name); [| apply IH].
    apply emits_bind; [emits_auto |]. intros options.
    apply emits_bind; [apply llm_free_option_values |]. intros values. apply IH.
Qed.

Lemma llm_free_extract_form_fields : emits not_an_llm_call (_extract_form_fields env).
Proof.
  unfold _extract_form_fields.
  apply emits_try_except; [| intros; emits_auto].
  apply emits_bind; [emits_auto |]. intros [| form forms]; [emits_auto |].
  apply emits_bind; [emits_auto |]. intros inputs.
  apply emits_bind; [apply llm_free_scan_inputs |]. intros fields.
  apply emits_bind; [emits_auto |]. intros selects.
  apply llm_free_scan_selects.
Qed.

Lemma llm_free_fill_field generated_data field_name info :
  emits not_an_llm_call (fill_field env generated_data field_name info).
Proof. unfold fill_field. emits_auto. Qed.

Lemma llm_free_fill_fields generated_data items :
  forall filled_data,
    emits not_an_llm_call (fill_fields env generated_data items filled_data).
Proof.
  induction items as [| [field_name info] rest IH]; intros filled_data; simpl.
  - emits_auto.
  - apply emits_bind.
    + apply emits_try_except; [| intros; emits_auto].
      apply emits_bind; [apply llm_free_fill_field | intros; emits_auto].
    + intros [value |]; apply IH.
Qed.

Lemma llm_free_fill_booking_form form_data user_info ticket_count :
  emits not_an_llm_call (_fill_booking_form env cfg form_data user_info ticket_count).
Proof.
  unfold _fill_booking_form. rewrite no_agent.
  apply emits_try_except; [| intros; emits_auto].
  apply emits_bind; [emits_auto |]. intros generated_data.
  apply llm_free_fill_fields.
Qed.

Lemma llm_free_find_captcha_element selectors :
  emits not_an_llm_call (find_captcha_element env selectors).
Proof.
  induction selectors as [| selector rest IH]; simpl.
  - emits_auto.
  - apply emits_try_except; [emits_auto | intros _; exact IH].
Qed.

Lemma llm_free_handle_captcha : emits not_an_llm_call (_handle_captcha env cfg).
Proof.
  unfold _handle_captcha. rewrite no_agent.
  apply emits_try_except; [| intros; emits_auto].
  apply emits_bind; [apply llm_free_find_captcha_element |].
  intros [captcha_elem |]; simpl; emits_auto.
Qed.

Lemma llm_free_verify_submission_success :
  emits not_an_llm_call (_verify_submission_success env).
Proof. unfold _verify_submission_success. emits_auto. Qed.

Lemma llm_free_click_first_submit selectors :
  emits not_an_llm_call (click_first_submit env selectors).
Proof.
  induction selectors as [| selector rest IH]; simpl.
  - emits_auto.
  - apply emits_try_except; [| intros _; exact IH].
    apply emits_bind; [emits_auto |]. intros submit_btn.
    apply emits_bind; [apply llm_free_safe_click |]. intros _.
    apply emits_bind; [emits_auto |]. intros _.
    apply llm_free_verify_submission_success.
Qed.

Lemma llm_free_submit_booking_form : emits not_an_llm_call (_submit_booking_form env).
Proof.
  unfold _submit_booking_form.
  apply emits_try_except; [apply llm_free_click_first_submit | intros; emits_auto].
Qed.

Lemma llm_free_extract_confirmation_details :
  emits not_an_llm_call (_extract_confirmation_details env).
Proof. unfold _extract_confirmation_details. emits_auto. Qed.

Lemma llm_free_attempt_booking user_info ticket_count :
  emits not_an_llm_call (_attempt_booking env cfg user_info ticket_count).
Proof.
  unfold _attempt_booking, attempt_booking_body.
  apply emits_try_except; [| intros; emits_auto].
  apply emits_bind; [apply llm_free_extract_form_fields |]. intros form_data.
  destruct (is_empty form_data); [emits_auto |].
  apply emits_bind; [apply llm_free_fill_booking_form |]. intros _.
  apply emits_bind; [apply llm_free_handle_captcha |]. intros [|]; simpl; [| emits_auto].
  apply emits_bind; [apply llm_free_submit_booking_form |]. intros [|]; [| emits_auto].
  apply emits_bind; [apply llm_free_extract_confirmation_details | intros; emits_auto].
Qed.


Lemma llm_free_visit_page website_url user_info remaining :
  emits not_an_llm_call (visit_page env cfg website_url user_info remaining).
Proof.
  unfold visit_page.
  apply emits_bind; [emits_auto |]. intros _.
  apply emits_bind; [apply llm_free_wait_for_page_load |]. intros _.
  apply emits_bind; [apply llm_free_analyze_current_page |]. intros page_analysis.
  apply emits_bind; [apply llm_free_is_ticket_page |]. intros [|].
  - apply emits_bind; [apply llm_free_attempt_booking |]. intros r.
    apply emits_bind; [unfold report_result; emits_auto | intros; emits_auto].
  - apply emits_bind; [apply llm_free_needs_navigation |]. intros [|].
    + apply emits_bind; [apply llm_free_navigate_to_booking_page | intros; emits_auto].
    + emits_auto.
Qed.

Lemma llm_free_book_iteration website_url user_info sc ss :
  emits not_an_llm_call (book_iteration env cfg website_url user_info sc ss).
Proof.
  unfold book_iteration, announce_attempt, guarded_visit, wait_before_retry.
  apply emits_bind; [emits_auto |]. intros _.
  apply emits_bind.
  - apply emits_try_except; [| intros; emits_auto].
    apply emits_bind; [apply llm_free_visit_page | intros; emits_auto].
  - intros [[[|] sc'] ss']; [| emits_auto].
    apply emits_bind; [| intros; emits_auto].
    destruct (0 <? remaining_tickets ss'); [| emits_auto].
    unfold _random_delay. emits_auto.
Qed.

Lemma llm_free_book_loop website_url user_info fuel :
  forall sc ss,
    emits not_an_llm_call (book_loop env cfg fuel website_url user_info sc ss).
Proof.
  induction fuel as [| fuel IH]; intros sc ss; simpl.
  - emits_auto.
  - destruct (loop_guard cfg sc ss); [| emits_auto].
    apply emits_bind; [apply llm_free_book_iteration |].
    intros [[[|] sc'] ss']; [apply IH | emits_auto].
Qed.

(** X15.  A scraper made without an LLM agent never calls one: in a whole
    run of [book_tickets], whatever the pages do, the trace gains no call to
    analyze_webpage, generate_form_data or solve_captcha. *)
Theorem book_tickets_without_agent website_url user_info ticket_count sc s :
  exists evs,
    trace (snd (book_tickets env cfg website_url user_info ticket_count sc s))
    = (trace s ++ evs)%list
    /\ Forall (calls_satisfy not_an_llm_call) evs.
Proof.
  assert (H : emits not_an_llm_call
                (book_tickets env cfg website_url user_info ticket_count sc)).
  { unfold book_tickets.
    apply emits_bind; [apply llm_free_book_loop | intros; emits_auto]. }
  exact (H s).
Qed.

End WithoutAgent.

(** ** The fields of a result *)

Section ResultFields.

Context {W : Type}.
Variable env : environment W.
Variable cfg : settings.

Lemma sound_failed_result msg : sound_result (failed_result msg).
Proof. unfold sound_result. simpl. auto. Qed.

(** the details are those of a page, or none when reading the page failed *)
Lemma extract_confirmation_details_cases :
  returns_only
    (fun details => details = [] \/ exists content, sound_details content details)
    (_extract_confirmation_details env).
Proof.
  unfold _extract_confirmation_details. apply returns_only_try.
  - apply returns_only_bind. intros page_text.
    destruct (soup_get_text env page_text) as [e | content] eqn:Hsoup.
    + rewrite (confirmation_details_refused env page_text e Hsoup).
      intros s details s' E. discriminate E.
    + destruct (confirmation_details_sound env page_text content Hsoup)
        as (details & -> & Hd).
      apply returns_only_ret. right. eauto.
  - intros e. apply returns_only_bind. intros _. apply returns_only_ret.
    left. reflexivity.
Qed.

Ltac fields_done :=
  repeat split;
  first [ reflexivity | assumption | apply Qle_refl
        | intros Hnone; first [ reflexivity | congruence ] ].

Lemma sound_success ticket_count confirmation :
  (confirmation = [] \/ exists content, sound_details content confirmation) ->
  sound_result
    (mkBookingResult true ticket_count
       (Dict.get_default "number" (PStr "") confirmation) ""
       (Some confirmation)
       (Dict.get_default "total_cost" (PFloat 0) confirmation)).
Proof.
  intros H. unfold sound_result. simpl. split; [reflexivity |].
  unfold Dict.get_default.
  destruct H as [-> | (content & Hcost & Hnumber & _)].
  - exists [], "", 0%Q. simpl. fields_done.
  - destruct (Dict.get "number" confirmation) as [v |] eqn:En;
      destruct (Dict.get "total_cost" confirmation) as [c |] eqn:Ec.
    + destruct (Hnumber v eq_refl) as (text & -> & _).
      destruct (Hcost c eq_refl) as (q & -> & Hq).
      exists confirmation, text, q. fields_done.
    + destruct (Hnumber v eq_refl) as (text & -> & _).
      exists confirmation, text, 0%Q. fields_done.
    + destruct (Hcost c eq_refl) as (q & -> & Hq).
      exists confirmation, "", q. fields_done.
    + exists confirmation, "", 0%Q. fields_done.
Qed.

(** X16.  [_attempt_booking] always returns a result, and its fields are
    sound.  A success has no error message and carries the details of the
    confirmation page: its confirmation number is a text, its total cost a
    float that is not negative, each the default when the page gave none.
    A failure books no ticket and keeps the defaults: no number, no details,
    cost 0.0. *)
Theorem attempt_booking_fields user_info ticket_count s :
  exists r s',
    _attempt_booking env cfg user_info ticket_count s = (inr r, s')
    /\ sound_result r.
Proof.
  destruct (attempt_booking_never_raises env cfg user_info ticket_count s)
    as (r & s' & E).
  exists r, s'. split; [exact E |].
  revert s r s' E.
  change (returns_only sound_result (_attempt_booking env cfg user_info ticket_count)).
  unfold _attempt_booking, attempt_booking_body.
  apply returns_only_try;
    [| intros e; apply returns_only_ret, sound_failed_result].
  apply returns_only_bind. intros form_data.
  destruct (is_empty form_data); [apply returns_only_ret, sound_failed_result |].
  apply returns_only_bind. intros _.
  apply returns_only_bind. intros [|]; simpl;
    [| apply returns_only_ret, sound_failed_result].
  apply returns_only_bind. intros [|];
    [| apply returns_only_ret, sound_failed_result].
  apply (returns_only_then _ _ _ _ extract_confirmation_details_cases).
  intros confirmation Hc. apply returns_only_ret, sound_success, Hc.
Qed.

End ResultFields.

(** ** The properties above on the scripted sites *)

Lemma safe_click_gives_up_witness :
  _safe_click (overriding Cases.stale_clicks (Site.env Site.shop)) 4%nat Site.start
  = (inr false,
     State false
       [EvCall (DriverExecuteScript "arguments[0].scrollIntoView(true);" [4%nat]);
        EvSleep (1 # 2); EvCall (ElemClick 4%nat);
        EvRaise (Exn StaleElementReferenceException
                   "Message: stale element reference")])
  /\ _safe_click (overriding Cases.fatal_clicks (Site.env Site.shop)) 4%nat Site.start
     = (inl (Exn OtherException "Message: invalid session id"),
        State false
          [EvCall (DriverExecuteScript "arguments[0].scrollIntoView(true);" [4%nat]);
           EvSleep (1 # 2); EvCall (ElemClick 4%nat);
           EvRaise (Exn OtherException "Message: invalid session id")]).
Proof.
  split.
  - exact (proj1 (safe_click_gives_up
                    (overriding Cases.stale_clicks (Site.env Site.shop)) 4%nat
                    Site.start false
                    (Exn StaleElementReferenceException
                       "Message: stale element reference")
                    false eq_refl eq_refl) eq_refl).
  - exact (proj2 (safe_click_gives_up
                    (overriding Cases.fatal_clicks (Site.env Site.shop)) 4%nat
                    Site.start false
                    (Exn OtherException "Message: invalid session id")
                    false eq_refl eq_refl) eq_refl).
Defined.

Lemma submit_fails_without_success_page_witness :
  exists s',
    _submit_booking_form (overriding Cases.form_again (Site.env Site.shop)) Site.start
    = (inr false, s').
Proof.
  apply (submit_fails_without_success_page
           (overriding Cases.form_again (Site.env Site.shop)) Site.start).
  intros w page_source w' E. injection E as <- _. reflexivity.
Defined.

Lemma submit_clicks_one_control_witness :
  exists evs elem,
    trace (snd (_submit_booking_form (Site.env Site.shop) Site.start))
    = ([] ++ evs)%list
    /\ (count_events is_native_click evs <= 3)%nat
    /\ count_events (clicks_another elem) evs = 0%nat.
Proof.
  apply (submit_clicks_one_control (Site.env Site.shop) Site.start).
  intros A c w e w' E Hcls.
  destruct c; try reflexivity; simpl in E;
    repeat match type of E with
           | context [match ?x with _ => _ end] => destruct x
           end;
    try discriminate E;
    injection E as <- _; discriminate Hcls.
Defined.

Lemma fill_booking_form_fallback_witness :
  exists filled s' evs,
    _fill_booking_form (Site.env Site.shop) (Site.plain 5) Site.jane_form Site.jane 3
      Site.start = (inr filled, s')
    /\ trace s' = ([] ++ evs)%list
    /\ (forall k v,
          Dict.get k filled = Some v ->
          has_key k Site.jane_form /\ v = PStr (fallback_value Site.jane 3 k))
    /\ field_outcome "email_addr" (InputField (Some "email") 2%nat false)
         (PStr "jane@x.com") filled evs.
Proof.
  assert (Hd : distinct_keys Site.jane_form).
  { repeat constructor; simpl; intuition discriminate. }
  destruct (fill_booking_form_fallback (Site.env Site.shop) (Site.plain 5)
              Site.jane_form Site.jane 3 Site.start eq_refl Hd)
    as (filled & s' & evs & E & T & Hv & Heach).
  exists filled, s', evs.
  split; [exact E |]. split; [exact T |]. split; [exact Hv |].
  exact (Heach "email_addr" (InputField (Some "email") 2%nat false)
           (or_intror (or_introl eq_refl))).
Defined.


Lemma fallback_form_data_lookup_witness :
  Dict.get "qty" (_fallback_form_data Site.jane_form Site.jane 3) = Some ""
  /\ Dict.get "phone" (_fallback_form_data Site.jane_form Site.jane 3) = None
  /\ Dict.keys (_fallback_form_data Site.jane_form Site.jane 3)
     = ["full_name"; "email_addr"; "qty"].
Proof.
  destruct (fallback_form_data_lookup Site.jane 3 Site.jane_form) as [Hget Hkeys].
  split; [exact (Hget "qty") |]. split; [exact (Hget "phone") |].
  apply Hkeys. unfold distinct_keys. simpl.
  repeat constructor; simpl; intuition discriminate.
Defined.

Lemma navigation_ignores_analysis_witness :
  _navigate_to_booking_page (Site.env Site.landing) (Site.plain 5)
    (PDict [("next_steps", PList [PStr "click the Book link"])]) Site.start
  = _navigate_to_booking_page (Site.env Site.landing) (Site.plain 5) (PDict [])
      Site.start.
Proof.
  apply (proj2 (navigation_ignores_analysis (Site.env Site.landing) (Site.plain 5)
                  (PDict [("next_steps", PList [PStr "click the Book link"])])
                  Site.start)
           [("next_steps", PList [PStr "click the Book link"])] eq_refl).
  right. exists [PStr "click the Book link"]. split; [reflexivity |].
  repeat constructor. exists "click the Book link". reflexivity.
Defined.

Lemma book_tickets_without_agent_witness :
  exists evs,
    trace (snd (book_tickets (Site.env Site.shop) (Site.plain 5) Site.url Site.jane 3
                  fresh Site.start))
    = ([] ++ evs)%list
    /\ Forall (calls_satisfy not_an_llm_call) evs.
Proof.
  exact (book_tickets_without_agent (Site.env Site.shop) (Site.plain 5) eq_refl
           Site.url Site.jane 3 fresh Site.start).
Defined.

(** * The agent's run *)

Lemma milestones_app evs1 evs2 :
  milestones (evs1 ++ evs2) = (milestones evs1 ++ milestones evs2)%list.
Proof.
  induction evs1 as [| h rest IH]; simpl; [reflexivity |].
  destruct (milestone_of h); simpl; rewrite IH; reflexivity.
Qed.

Lemma milestones_scraper tr :
  exists n, milestones (map HScraper tr) = repeat Browsed n.
Proof.
  induction tr as [| ev rest [n IH]]; simpl.
  - exists 0%nat. reflexivity.
  - destruct ev; simpl; try (exists n; exact IH).
    exists (S n). simpl. rewrite IH. reflexivity.
Qed.

Section OuterFacts.

Context {W : Type}.
Variable sur : surroundings W.

Lemma outer_perform_run {A} (c : outer_call A) (st : stage W) :
  Outer.perform sur c st
  = match outer sur c (stage_world st) with
    | (inr a, w') => (inr a, Stage w' (happened st ++ [HCall c]) (self st))
    | (inl e, w') => (inl e, Stage w' (happened st ++ [HCall c; HRaise e]) (self st))
    end.
Proof.
  unfold Outer.perform. destruct (outer sur c (stage_world st)) as [[e | a] w'];
    reflexivity.
Qed.

(** a guarded mail: the call is made once, and nothing is raised *)
Lemma guarded_call_run {A} (c : outer_call A) msg st :
  exists st' evs,
    Outer.try_except (Outer.bind (Outer.perform sur c) (fun _ => Outer.ret tt))
      any_exception (fun e => Outer.log ERROR (msg ++ exn_msg e)) st
    = (inr tt, st')
    /\ happened st' = (happened st ++ evs)%list
    /\ self st' = self st
    /\ milestones evs = match milestone_of (HCall c) with
                        | Some m => [m]
                        | None => []
                        end.
Proof.
  unfold Outer.try_except, Outer.bind. rewrite outer_perform_run.
  destruct (outer sur c (stage_world st)) as [[e | a] w']; simpl.
  - eexists _, _. split; [reflexivity |]. simpl. rewrite <- app_assoc.
    split; [reflexivity |]. split; [reflexivity |].
    simpl. destruct (milestone_of (HCall c)); reflexivity.
  - eexists _, _. split; [reflexivity |]. simpl.
    split; [reflexivity |]. split; [reflexivity |].
    simpl. destruct (milestone_of (HCall c)); reflexivity.
Qed.

End OuterFacts.

Section AgentRun.

Context {W : Type}.
Variable sur : surroundings W.
Variable config : AgentConfig.t.
Variable agent : bool.

Lemma send_status_update_run status details st :
  exists st' evs,
    _send_status_update sur status details st = (inr tt, st')
    /\ happened st' = (happened st ++ evs)%list
    /\ self st' = self st
    /\ milestones evs = [StatusMail].
Proof. apply (guarded_call_run sur (SendBookingStatusUpdate status details)). Qed.

Lemma send_booking_confirmation_run results st :
  exists st' evs,
    _send_booking_confirmation sur results st = (inr tt, st')
    /\ happened st' = (happened st ++ evs)%list
    /\ self st' = self st
    /\ milestones evs = [ConfirmationMail].
Proof. apply (guarded_call_run sur (SendBookingConfirmation results)). Qed.

Lemma send_failure_notification_run error_message st :
  exists st' evs,
    _send_failure_notification sur config error_message st = (inr tt, st')
    /\ happened st' = (happened st ++ evs)%list
    /\ self st' = self st
    /\ milestones evs = [FailureMail].
Proof.
  unfold _send_failure_notification, Outer.try_except.
  unfold Outer.bind at 1. unfold Outer.get_self at 1.
  unfold Outer.bind at 1.
  destruct (start_time (self st)) as [t0 |].
  - unfold Outer.bind at 1, Outer.now.
    destruct (clock sur (stage_world st)) as [t w1]. unfold Outer.ret at 1.
    unfold Outer.bind at 1. rewrite outer_perform_run. simpl stage_world.
    match goal with |- context [outer sur ?c w1] =>
      destruct (outer sur c w1) as [[e | a] w2]
    end; simpl.
    + eexists _, _. split; [reflexivity |]. simpl. rewrite <- app_assoc.
      split; [reflexivity |]. split; reflexivity.
    + eexists _, _. split; [reflexivity |]. simpl.
      split; [reflexivity |]. split; reflexivity.
  - unfold Outer.ret at 1. unfold Outer.bind at 1. rewrite outer_perform_run.
    match goal with |- context [outer sur ?c (stage_world st)] =>
      destruct (outer sur c (stage_world st)) as [[e | a] w2]
    end; simpl.
    + eexists _, _. split; [reflexivity |]. simpl. rewrite <- app_assoc.
      split; [reflexivity |]. split; reflexivity.
    + eexists _, _. split; [reflexivity |]. simpl.
      split; [reflexivity |]. split; reflexivity.
Qed.

End AgentRun.

Section Lifecycle.

Context {W : Type}.
Variable sur : surroundings W.
Variable headless : bool.

(** [close_browser] on a scraper with a driver: one [quit], nothing raised *)
Lemma close_browser_run st :
  exists st' evs,
    close_browser sur true st = (inr tt, st')
    /\ happened st' = (happened st ++ evs)%list
    /\ self st' = self st
    /\ milestones evs = [QuitBrowser].
Proof.
  unfold close_browser, Outer.try_except, Outer.bind. rewrite outer_perform_run.
  destruct (outer sur DriverQuit (stage_world st)) as [[e | []] w']; simpl.
  - eexists _, _. split; [reflexivity |]. simpl. rewrite <- app_assoc.
    split; [reflexivity |]. split; reflexivity.
  - eexists _, _. split; [reflexivity |]. simpl. rewrite <- app_assoc.
    split; [reflexivity |]. split; reflexivity.
Qed.

(** [__enter__]: the browser starts, or the exception of the step that
    failed goes on, raised before or after the driver was asked for *)
Lemma enter_run st :
  exists r st' evs,
    __enter__ sur headless st = (r, st')
    /\ happened st' = (happened st ++ evs)%list
    /\ self st' = self st
    /\ ((r = inr tt /\ milestones evs = [Launch])
        \/ (exists e, r = inl e)
           /\ (milestones evs = [] \/ milestones evs = [Launch])).
Proof.
  unfold __enter__, start_browser.
  change (String.eqb (PyStr.lower "chrome") "chrome") with true. cbv iota.
  unfold Outer.try_except. unfold Outer.bind at 1. unfold _setup_chrome.
  unfold Outer.bind at 1. rewrite outer_perform_run.
  destruct (outer sur RandomUserAgent (stage_world st)) as [[e | user_agent] w1].
  - simpl. eexists _, _, _. split; [reflexivity |]. simpl. rewrite <- app_assoc.
    split; [reflexivity |]. split; [reflexivity |]. right. split; [eauto |].
    left. reflexivity.
  - cbv beta iota. unfold Outer.bind at 1. rewrite outer_perform_run.
    simpl stage_world.
    match goal with |- context [outer sur ?c w1] =>
      destruct (outer sur c w1) as [[e | []] w2]
    end.
    + simpl. eexists _, _, _. split; [reflexivity |]. simpl.
      rewrite <- !app_assoc. split; [reflexivity |]. split; [reflexivity |].
      right. split; [eauto |]. right. reflexivity.
    + cbv beta iota. rewrite outer_perform_run. simpl stage_world.
      destruct (outer sur HideWebdriver w2) as [[e | []] w3].
      * simpl. eexists _, _, _. split; [reflexivity |]. simpl.
        rewrite <- !app_assoc. split; [reflexivity |]. split; [reflexivity |].
        right. split; [eauto |]. right. reflexivity.
      * simpl. eexists _, _, _. split; [reflexivity |]. simpl.
        rewrite <- !app_assoc. split; [reflexivity |]. split; [reflexivity |].
        left. split; reflexivity.
Qed.

(** the [with] statement, for a body that returns: the browser is quit
    after the body if and only if [__enter__] returned *)
Lemma with_WebScraper_run {A} (body : P W A)
    (post : agent_state -> A -> agent_state -> list milestone -> Prop) st :
  (forall st1, self st1 = self st ->
     exists a st2 evs,
       body st1 = (inr a, st2)
       /\ happened st2 = (happened st1 ++ evs)%list
       /\ post (self st1) a (self st2) (milestones evs)) ->
  exists r st' evs,
    with_WebScraper sur headless body st = (r, st')
    /\ happened st' = (happened st ++ evs)%list
    /\ ((exists a ms,
           r = inr a
           /\ post (self st) a (self st') ms
           /\ milestones evs = (Launch :: ms ++ [QuitBrowser])%list)
        \/ ((exists e, r = inl e)
            /\ self st' = self st
            /\ (milestones evs = [] \/ milestones evs = [Launch]))).
Proof.
  intros Hbody. unfold with_WebScraper. unfold Outer.bind at 1.
  rewrite outer_perform_run.
  destruct (outer sur NewUserAgent (stage_world st)) as [[e | []] w1].
  - eexists _, _, _. split; [reflexivity |]. split; [reflexivity |].
    right. split; [eauto |]. split; [reflexivity |]. left. reflexivity.
  - cbv beta iota. unfold Outer.bind at 1.
    match goal with |- context [__enter__ sur headless ?st1] =>
      destruct (enter_run st1) as (r & st2 & evs1 & -> & H1 & S1 & Hr)
    end.
    simpl in H1, S1.
    destruct Hr as [[-> M1] | [[e ->] M1]].
    + cbv beta iota. unfold Outer.finally.
      destruct (Hbody st2 S1) as (a & st3 & evs2 & -> & H2 & Hpost).
      destruct (close_browser_run st3) as (st4 & evs3 & E3 & H3 & S3 & M3).
      unfold __exit__. rewrite E3.
      exists (inr a), st4, ([HCall NewUserAgent] ++ evs1 ++ evs2 ++ evs3)%list.
      split; [reflexivity |].
      split; [rewrite H3, H2, H1, <- !app_assoc; reflexivity |].
      left. exists a, (milestones evs2).
      split; [reflexivity |]. rewrite S3.
      split; [rewrite <- S1; exact Hpost |].
      rewrite !milestones_app, M1, M3. reflexivity.
    + cbv beta iota.
      exists (inl e), st2, ([HCall NewUserAgent] ++ evs1)%list.
      split; [reflexivity |].
      split; [rewrite H1, <- !app_assoc; reflexivity |].
      right. split; [eauto |]. split; [exact S1 |].
      rewrite milestones_app. simpl. exact M1.
Qed.

End Lifecycle.

Section Process.

Context {W : Type}.
Variable sur : surroundings W.
Variable config : AgentConfig.t.
Variable agent : bool.

(** on results that are well formed, the sum over all of them is the sum
    over the successes *)
Lemma sum_tickets_successes rs :
  Forall well_formed_result rs -> sum_tickets rs = tickets_of_successes rs.
Proof.
  induction 1 as [| r rs Hr _ IH]; [reflexivity |].
  change (sum_tickets (r :: rs)) with (tickets_booked r + sum_tickets rs).
  rewrite IH. simpl tickets_of_successes.
  destruct Hr as [[Hs Ht] | [Hs Ht]]; rewrite Hs; lia.
Qed.

Lemma any_success_tickets rs :
  Forall well_formed_result rs ->
  (any_success rs = true <-> 0 < tickets_of_successes rs)
  /\ 0 <= tickets_of_successes rs.
Proof.
  induction 1 as [| r rs Hr _ [IH1 IH2]]; simpl.
  - split; [split; [discriminate | lia] | lia].
  - destruct Hr as [[Hs Ht] | [Hs Ht]]; rewrite Hs; simpl.
    + split; [split; [intros _; lia | reflexivity] | lia].
    + split; [| lia]. rewrite IH1. split; lia.
Qed.

(** what [book_tickets] gives the agent *)
Lemma book_tickets_for_agent website_url user_info ticket_count cfg s :
  exists rs sc' s',
    book_tickets (inner sur) cfg website_url user_info ticket_count fresh s
    = (inr (rs, sc'), s')
    /\ Forall well_formed_result rs
    /\ (0 <= ticket_count -> tickets_of_successes rs <= ticket_count)
    /\ Z.of_nat (List.length rs) <= Z.max 0 (max_retries cfg).
Proof.
  destruct (book_loop_results (inner sur) cfg website_url user_info
              (attempt_budget cfg fresh) fresh (Session [] ticket_count) s
              (Forall_nil _))
    as (sc' & ss' & s' & E & Hwf).
  destruct (book_loop_effect (inner sur) cfg website_url user_info
              (attempt_budget cfg fresh) fresh (Session [] ticket_count) s)
    as (sc2 & ss2 & s2 & E2 & Hmono & Hcap & _ & Hinv & Hsum & Hrem & Hlen).
  rewrite E in E2. injection E2 as <- <- <-.
  simpl in Hmono, Hcap, Hinv, Hsum, Hrem, Hlen.
  exists (results ss'), sc', s'. split.
  - unfold book_tickets. rewrite (bind_returns _ _ _ _ _ E). reflexivity.
  - split; [exact Hwf |]. split; [intros Hpos; specialize (Hrem Hpos); lia | lia].
Qed.

(** the body of the [with] statement returns True after the scraper's
    events and one closing mail *)
Lemma booking_body_run st :
  exists st' evs rs n,
    booking_body sur config agent st = (inr true, st')
    /\ happened st' = (happened st ++ evs)%list
    /\ self st' = with_results (self st) rs
    /\ Forall well_formed_result rs
    /\ (0 <= AgentConfig.ticket_count config ->
        tickets_of_successes rs <= AgentConfig.ticket_count config)
    /\ Z.of_nat (List.length rs) <= Z.max 0 (AgentConfig.max_attempts config)
    /\ milestones evs = (repeat Browsed n ++ [closing_mail rs])%list.
Proof.
  unfold booking_body. unfold Outer.bind at 1. unfold Outer.in_scraper.
  destruct (book_tickets_for_agent (AgentConfig.target_website_url config)
              (user_info_of config)
              (AgentConfig.ticket_count config) (_get_scraper_config config agent)
              (State (stage_world st) []))
    as (rs & sc' & s' & -> & Hwf & Hle & Hlen).
  cbv beta iota. simpl fst.
  unfold Outer.bind at 1, Outer.get_self at 1. cbv beta iota.
  unfold Outer.bind at 1, Outer.set_self at 1. cbv beta iota. simpl self.
  destruct (milestones_scraper (trace s')) as [n Hn].
  unfold Outer.bind at 1. cbn [stage_world happened self].
  set (st1 := Stage (world s') (happened st ++ map HScraper (trace s'))
                (AgentState (is_running (self st)) (booking_results (self st) ++ rs)
                   (sum_tickets rs) (start_time (self st)))).
  assert (Hmail :
    exists st2 evs2,
      match rs with
      | _ :: _ =>
          if any_success rs then _send_booking_confirmation sur rs
          else _send_failure_notification sur config None
      | [] => _send_failure_notification sur config None
      end st1 = (inr tt, st2)
      /\ happened st2 = (happened st1 ++ evs2)%list
      /\ self st2 = self st1
      /\ milestones evs2 = [closing_mail rs]).
  { unfold closing_mail. destruct rs as [| r rs'].
    - apply send_failure_notification_run.
    - destruct (any_success (r :: rs')).
      + apply send_booking_confirmation_run.
      + apply send_failure_notification_run. }
  destruct Hmail as (st2 & evs2 & -> & H2 & S2 & M2).
  cbv beta iota. unfold Outer.bind, Outer.log, Outer.emit, Outer.ret. simpl.
  eexists _, (map HScraper (trace s') ++ evs2 ++ _)%list, rs, n.
  split; [reflexivity |]. simpl.
  split; [rewrite H2; subst st1; simpl; rewrite <- !app_assoc; reflexivity |].
  split; [rewrite S2; reflexivity |].
  split; [exact Hwf |]. split; [exact Hle |]. split; [exact Hlen |].
  rewrite !milestones_app, Hn, M2. simpl. reflexivity.
Qed.

(** every way [_run_booking_process] can go *)
Lemma run_booking_process_run st :
  exists ok st' evs,
    _run_booking_process sur config agent st = (inr ok, st')
    /\ happened st' = (happened st ++ evs)%list
    /\ ((ok = true
         /\ exists rs n,
              self st' = stopped (with_results (self st) rs)
              /\ Forall well_formed_result rs
              /\ (0 <= AgentConfig.ticket_count config ->
                  tickets_of_successes rs <= AgentConfig.ticket_count config)
              /\ Z.of_nat (List.length rs) <= Z.max 0 (AgentConfig.max_attempts config)
              /\ milestones evs
                 = ([StatusMail; Launch] ++ repeat Browsed n
                    ++ [closing_mail rs; QuitBrowser])%list)
        \/ (ok = false
            /\ self st' = stopped (self st)
            /\ (milestones evs = [StatusMail; FailureMail]
                \/ milestones evs = [StatusMail; Launch; FailureMail]))).
Proof.
  unfold _run_booking_process, Outer.finally, Outer.try_except.
  unfold booking_process. unfold Outer.bind at 1, Outer.log at 1, Outer.emit at 1.
  cbv beta iota. unfold Outer.bind at 1, Outer.now at 1. simpl stage_world.
  destruct (clock sur (stage_world st)) as [t w1]. cbv beta iota.
  unfold Outer.bind at 1. simpl happened. simpl self.
  match goal with |- context [_send_status_update sur ?status ?details ?st0] =>
    destruct (send_status_update_run sur status details st0)
      as (st1 & evs1 & -> & H1 & S1 & M1)
  end.
  simpl in H1, S1. cbv beta iota.
  destruct (with_WebScraper_run sur (AgentConfig.headless_browser config)
              (booking_body sur config agent)
              (fun me (ok : bool) me' ms =>
                 ok = true
                 /\ exists rs n,
                      me' = with_results me rs
                      /\ Forall well_formed_result rs
                      /\ (0 <= AgentConfig.ticket_count config ->
                          tickets_of_successes rs <= AgentConfig.ticket_count config)
                      /\ Z.of_nat (List.length rs)
                         <= Z.max 0 (AgentConfig.max_attempts config)
                      /\ ms = (repeat Browsed n ++ [closing_mail rs])%list)
              st1)
    as (r & st2 & evs2 & -> & H2 & Hr).
  { intros st1' _.
    destruct (booking_body_run st1') as (st2 & evs & rs & n & E & H & S & Hrest).
    exists true, st2, evs. split; [exact E |]. split; [exact H |].
    split; [reflexivity |]. exists rs, n. destruct Hrest as (? & ? & ? & ?).
    repeat split; assumption. }
  destruct Hr as [(ok & ms & -> & [-> (rs & n & S2 & Hwf & Hle & Hlen & ->)] & M2)
                 | ([e ->] & S2 & M2)].
  - unfold stop_running, Outer.bind, Outer.get_self, Outer.set_self. simpl.
    eexists true, _, (_ :: evs1 ++ evs2)%list.
    split; [reflexivity |]. simpl.
    split; [rewrite H2, H1, <- !app_assoc; reflexivity |].
    left. split; [reflexivity |]. exists rs, n.
    split; [rewrite S2, S1; reflexivity |].
    split; [exact Hwf |]. split; [exact Hle |]. split; [exact Hlen |].
    simpl. rewrite milestones_app, M1, M2. simpl. rewrite <- app_assoc. reflexivity.
  - unfold any_exception. cbv iota.
    unfold Outer.bind at 1, Outer.log at 1, Outer.emit at 1. cbv beta iota.
    unfold Outer.bind at 1.
    match goal with |- context [_send_failure_notification sur config ?msg ?st0] =>
      destruct (send_failure_notification_run sur config msg st0)
        as (st3 & evs3 & -> & H3 & S3 & M3)
    end.
    simpl in H3, S3. cbv beta iota. unfold Outer.ret.
    unfold stop_running, Outer.bind, Outer.get_self, Outer.set_self. simpl.
    eexists false, _, ([_] ++ evs1 ++ evs2 ++ [_] ++ evs3)%list.
    split; [reflexivity |]. cbn [happened self].
    split; [rewrite H3, H2, H1, <- ?app_assoc; reflexivity |].
    right. split; [reflexivity |].
    split; [rewrite S3, S2, S1; reflexivity |].
    rewrite !milestones_app, M1, M3.
    destruct M2 as [-> | ->]; [left | right]; reflexivity.
Qed.

End Process.

Section Booking.

Context {W : Type}.
Variable sur : surroundings W.
Variable config : AgentConfig.t.
Variable agent : bool.

(** X17.  [_run_booking_process] never raises and always leaves
    [is_running] False.  A run that returns True sent the status mail, asked
    for a browser, let the scraper work, sent one closing mail (the
    confirmation if some result is a success, the failure notification
    otherwise) and quit the browser last of all.  A run that returns False
    sent the status mail and one failure notification; it appended no
    result, the scraper did nothing, and no browser was quit, whether or not
    a driver had been asked for. *)
Theorem run_booking_process_milestones st :
  exists ok st' evs,
    _run_booking_process sur config agent st = (inr ok, st')
    /\ happened st' = (happened st ++ evs)%list
    /\ is_running (self st') = false
    /\ ((ok = true
         /\ exists rs n,
              booking_results (self st') = (booking_results (self st) ++ rs)%list
              /\ milestones evs
                 = ([StatusMail; Launch] ++ repeat Browsed n
                    ++ [closing_mail rs; QuitBrowser])%list)
        \/ (ok = false
            /\ booking_results (self st') = booking_results (self st)
            /\ (milestones evs = [StatusMail; FailureMail]
                \/ milestones evs = [StatusMail; Launch; FailureMail]))).
Proof.
  destruct (run_booking_process_run sur config agent st)
    as (ok & st' & evs & E & H & Hcases).
  exists ok, st', evs. split; [exact E |]. split; [exact H |].
  destruct Hcases as [[-> (rs & n & S & _ & _ & _ & M)] | [-> [S M]]].
  - split; [rewrite S; reflexivity |]. left. split; [reflexivity |].
    exists rs, n. split; [rewrite S; reflexivity | exact M].
  - split; [rewrite S; reflexivity |]. right. split; [reflexivity |].
    split; [rewrite S; reflexivity | exact M].
Qed.

(** *** [start_booking] *)

Lemma truthy_iff s : PyStr.truthy s = true <-> s <> "".
Proof. destruct s; simpl; split; congruence. Qed.

Lemma issue_if_nil cond msg : issue_if cond msg = [] -> cond = false.
Proof. destruct cond; [discriminate | reflexivity]. Qed.

Lemma negb_truthy_false s : negb (PyStr.truthy s) = false -> s <> "".
Proof. destruct s; [discriminate | intros _; discriminate]. Qed.

(** a configuration without issues *)
Lemma validate_configuration_nil :
  validate_configuration config = [] <-> valid_configuration config.
Proof.
  unfold validate_configuration, valid_configuration. split.
  - intros H.
    apply app_eq_nil in H. destruct H as [H1 H].
    apply app_eq_nil in H. destruct H as [H2 H].
    apply app_eq_nil in H. destruct H as [H3 H].
    apply app_eq_nil in H. destruct H as [H4 H].
    apply app_eq_nil in H. destruct H as [H5 H6].
    apply issue_if_nil, negb_truthy_false in H1, H2, H3, H4.
    repeat (split; [assumption |]).
    split; [| split; [| split]].
    + intros Hp. rewrite Hp in H5. simpl in H5.
      destruct (AgentConfig.openai_api_key config); [discriminate | discriminate].
    + intros Hp. rewrite Hp in H5. simpl in H5.
      destruct (AgentConfig.anthropic_api_key config); [discriminate | discriminate].
    + intros Hp. rewrite Hp in H5. simpl in H5.
      destruct (AgentConfig.gemini_api_key config); [discriminate | discriminate].
    + destruct (AgentConfig.ticket_count config <=? 0) eqn:E0; [discriminate |].
      destruct (50 <? AgentConfig.ticket_count config) eqn:E1; [discriminate |].
      apply Z.leb_gt in E0. apply Z.ltb_ge in E1. lia.
  - intros (H1 & H2 & H3 & H4 & Ho & Ha & Hg & Ht).
    apply truthy_iff in H1, H2, H3, H4. rewrite H1, H2, H3, H4. simpl.
    assert (E0 : (AgentConfig.ticket_count config <=? 0) = false) by (apply Z.leb_gt; lia).
    assert (E1 : (50 <? AgentConfig.ticket_count config) = false) by (apply Z.ltb_ge; lia).
    rewrite E0, E1, app_nil_r.
    destruct (String.eqb_spec (AgentConfig.llm_provider config) "openai") as [Hp | _].
    { apply Ho, truthy_iff in Hp. rewrite Hp. simpl.
      destruct (String.eqb (AgentConfig.llm_provider config) "anthropic"
                && negb (PyStr.truthy (AgentConfig.anthropic_api_key config)))%bool eqn:E2.
      - apply andb_prop in E2. destruct E2 as [E2 E3].
        apply String.eqb_eq, Ha, truthy_iff in E2. rewrite E2 in E3. discriminate.
      - destruct (String.eqb (AgentConfig.llm_provider config) "gemini"
                  && negb (PyStr.truthy (AgentConfig.gemini_api_key config)))%bool eqn:E4;
          [| reflexivity].
        apply andb_prop in E4. destruct E4 as [E4 E5].
        apply String.eqb_eq, Hg, truthy_iff in E4. rewrite E4 in E5. discriminate. }
    simpl.
    destruct (String.eqb_spec (AgentConfig.llm_provider config) "anthropic") as [Hp | _].
    { apply Ha, truthy_iff in Hp. rewrite Hp. simpl.
      destruct (String.eqb (AgentConfig.llm_provider config) "gemini"
                && negb (PyStr.truthy (AgentConfig.gemini_api_key config)))%bool eqn:E4;
        [| reflexivity].
      apply andb_prop in E4. destruct E4 as [E4 E5].
      apply String.eqb_eq, Hg, truthy_iff in E4. rewrite E4 in E5. discriminate. }
    simpl.
    destruct (String.eqb_spec (AgentConfig.llm_provider config) "gemini") as [Hp | _];
      [| reflexivity].
    apply Hg, truthy_iff in Hp. rewrite Hp. reflexivity.
Qed.

Lemma log_issues_run issues (st : stage W) :
  exists evs,
    log_issues issues st
    = (inr tt, Stage (stage_world st) (happened st ++ evs) (self st))
    /\ milestones evs = [].
Proof.
  revert st. induction issues as [| issue rest IH]; intros st; simpl.
  - exists []. rewrite app_nil_r. destruct st. split; reflexivity.
  - unfold Outer.bind, Outer.log, Outer.emit.
    match goal with |- context [log_issues rest ?st1] =>
      destruct (IH st1) as (evs & -> & M)
    end.
    eexists (_ :: evs). simpl. rewrite <- app_assoc. split; [reflexivity | exact M].
Qed.

(** every way [start_booking] can go, for an agent that is not running *)
Lemma start_booking_run st :
  is_running (self st) = false ->
  exists ok st' evs,
    start_booking sur config agent st = (inr ok, st')
    /\ happened st' = (happened st ++ evs)%list
    /\ ((valid_configuration config
         /\ exists t rs,
              self st' = AgentState false rs (sum_tickets rs) (Some t)
              /\ Forall well_formed_result rs
              /\ (0 <= AgentConfig.ticket_count config ->
                  tickets_of_successes rs <= AgentConfig.ticket_count config)
              /\ Z.of_nat (List.length rs)
                 <= Z.max 0 (AgentConfig.max_attempts config))
        \/ (~ valid_configuration config
            /\ ok = false /\ milestones evs = []
            /\ self st' = self st /\ stage_world st' = stage_world st)).
Proof.
  intros Hidle. unfold start_booking.
  destruct (validate_configuration config) as [| issue issues] eqn:Ev.
  - apply validate_configuration_nil in Ev.
    unfold Outer.bind at 1, Outer.get_self at 1. cbv beta iota. rewrite Hidle.
    unfold Outer.bind at 1, Outer.log at 1, Outer.emit at 1. cbv beta iota.
    unfold Outer.bind at 1, Outer.now at 1. cbn [stage_world happened self].
    destruct (clock sur (stage_world st)) as [t w1]. cbv beta iota.
    unfold Outer.bind at 1, Outer.set_self at 1. cbv beta iota.
    cbn [stage_world happened self].
    match goal with |- context [_run_booking_process sur config agent ?st1] =>
      destruct (run_booking_process_run sur config agent st1)
        as (ok & st' & evs & -> & H & Hcases)
    end.
    cbn [stage_world happened self] in H, Hcases.
    eexists ok, st', ([_] ++ evs)%list. split; [reflexivity |].
    split; [rewrite H, <- app_assoc; reflexivity |].
    left. split; [exact Ev |]. exists t.
    destruct Hcases as [[-> (rs & n & S & Hwf & Hle & Hlen & M)] | [-> [S M]]].
    + exists rs. split; [rewrite S; reflexivity |]. auto.
    + exists []. split; [rewrite S; reflexivity |].
      split; [constructor |]. split; [intros Hpos; exact Hpos | simpl; lia].
  - assert (Hno : ~ valid_configuration config).
    { intros Hv. apply validate_configuration_nil in Hv. congruence. }
    unfold Outer.bind at 1, Outer.log at 1, Outer.emit at 1. cbv beta iota.
    unfold Outer.bind at 1.
    match goal with |- context [log_issues ?l ?st1] =>
      destruct (log_issues_run l st1) as (evs & -> & M)
    end.
    cbn [stage_world happened self]. cbv beta iota. unfold Outer.ret.
    eexists false, _, ([_] ++ evs)%list. split; [reflexivity |].
    cbn [stage_world happened self].
    split; [rewrite <- app_assoc; reflexivity |].
    right. split; [exact Hno |]. split; [reflexivity |].
    split; [| split; reflexivity].
    rewrite milestones_app, M. reflexivity.
Qed.

(** the fields after a run of a valid configuration add up *)
Lemma kept_results_add_up rs :
  valid_configuration config ->
  Forall well_formed_result rs ->
  (0 <= AgentConfig.ticket_count config ->
   tickets_of_successes rs <= AgentConfig.ticket_count config) ->
  sum_tickets rs = tickets_of_successes rs
  /\ 0 <= sum_tickets rs <= AgentConfig.ticket_count config.
Proof.
  intros Hv Hwf Hle.
  destruct Hv as (_ & _ & _ & _ & _ & _ & _ & Ht).
  rewrite (sum_tickets_successes rs Hwf).
  destruct (any_success_tickets rs Hwf) as [_ Hpos].
  split; [reflexivity |]. split; [exact Hpos | apply Hle; lia].
Qed.

(** X18.  [start_booking(async_mode=False)] on an agent that is not running
    never raises and leaves the agent not running.  For a configuration
    without issues, [total_tickets_booked] is then the number of tickets of
    the successful results it kept, between 0 and [ticket_count], and it
    kept at most [max_attempts] results.  For a configuration with an issue
    it returns False after log lines alone: no mail, no browser, the fields
    and the world untouched. *)
Theorem start_booking_accounts st :
  is_running (self st) = false ->
  exists ok st' evs,
    start_booking sur config agent st = (inr ok, st')
    /\ happened st' = (happened st ++ evs)%list
    /\ is_running (self st') = false
    /\ (valid_configuration config ->
        total_tickets_booked (self st')
        = tickets_of_successes (booking_results (self st'))
        /\ 0 <= total_tickets_booked (self st') <= AgentConfig.ticket_count config
        /\ Z.of_nat (List.length (booking_results (self st')))
           <= Z.max 0 (AgentConfig.max_attempts config))
    /\ (~ valid_configuration config ->
        ok = false /\ milestones evs = []
        /\ self st' = self st /\ stage_world st' = stage_world st).
Proof.
  intros Hidle.
  destruct (start_booking_run st Hidle) as (ok & st' & evs & E & H & Hcases).
  exists ok, st', evs. split; [exact E |]. split; [exact H |].
  destruct Hcases as [[Hv (t & rs & S & Hwf & Hle & Hlen)]
                     | (Hno & Hok & M & S & Hw)].
  - rewrite S. cbn [is_running total_tickets_booked booking_results].
    split; [reflexivity |]. split; [| intros Hno; contradiction].
    intros _. destruct (kept_results_add_up rs Hv Hwf Hle) as [Hsum Hbounds].
    split; [exact Hsum |]. split; [exact Hbounds | exact Hlen].
  - rewrite S. split; [exact Hidle |]. split; [intros Hv; contradiction |].
    intros _. auto.
Qed.

End Booking.

(** ** A browser that starts and is not quit *)

Section Abandoned.

Context {W : Type}.
Variable sur : surroundings W.
Variable headless : bool.

(** X19.  When the Chrome driver is made and the script that hides the
    automation flag then raises, [start_browser] passes the exception on
    from [__enter__]: the body of the [with] statement does not run,
    [__exit__] is not called, and the driver that was made is never quit. *)
Theorem abandoned_browser {A} (body : P W A) st w0 user_agent w1 w2 e w3 :
  outer sur NewUserAgent (stage_world st) = (inr tt, w0) ->
  outer sur RandomUserAgent w0 = (inr user_agent, w1) ->
  outer sur (chrome_driver headless user_agent) w1 = (inr tt, w2) ->
  outer sur HideWebdriver w2 = (inl e, w3) ->
  with_WebScraper sur headless body st
  = (inl e, Stage w3 (happened st ++ abandoned_start headless user_agent e) (self st))
  /\ ~ In (HCall DriverQuit) (abandoned_start headless user_agent e).
Proof.
  intros H0 H1 H2 H3. split.
  - unfold with_WebScraper. unfold Outer.bind at 1. rewrite outer_perform_run, H0.
    cbv beta iota. unfold Outer.bind at 1.
    unfold __enter__, start_browser.
    change (String.eqb (PyStr.lower "chrome") "chrome") with true. cbv iota.
    unfold Outer.try_except. unfold Outer.bind at 1. unfold _setup_chrome.
    unfold Outer.bind at 1. rewrite outer_perform_run. cbn [stage_world].
    rewrite H1. cbv beta iota. unfold Outer.bind at 1.
    rewrite outer_perform_run. cbn [stage_world].
    fold (chrome_driver headless user_agent). rewrite H2. cbv beta iota.
    rewrite outer_perform_run. cbn [stage_world]. rewrite H3.
    unfold any_exception. cbv beta iota.
    unfold Outer.bind, Outer.scraper_log, Outer.emit, Outer.reraise.
    cbn [stage_world happened self]. unfold abandoned_start.
    rewrite <- !app_assoc. reflexivity.
  - unfold abandoned_start, chrome_driver. simpl.
    intros [H | [H | [H | [H | [H | [H | []]]]]]]; discriminate H.
Qed.

End Abandoned.

(** ** Making the agent: [TicketBookingAgent.__init__] *)

Section Making.

Context {W : Type}.
Variable sur : surroundings W.
Variable config : AgentConfig.t.

Lemma initialize_llm_agent_run st :
  exists has_agent st',
    _initialize_llm_agent sur config st = (inr has_agent, st')
    /\ (has_agent = true ->
        exists api_key, api_key_of config = Some api_key /\ api_key <> "").
Proof.
  unfold _initialize_llm_agent, Outer.try_except.
  destruct (api_key_of config) as [api_key |].
  - destruct api_key as [| c rest].
    + simpl. eexists _, _. split; [reflexivity | discriminate].
    + change (PyStr.truthy (String c rest)) with true. cbv iota.
      unfold Outer.bind. rewrite outer_perform_run.
      match goal with |- context [outer sur ?call (stage_world st)] =>
        destruct (outer sur call (stage_world st)) as [[e | []] w']
      end.
      * simpl. eexists _, _. split; [reflexivity | discriminate].
      * simpl. eexists _, _. split; [reflexivity |].
        intros _. eexists. split; [reflexivity | discriminate].
  - simpl. eexists _, _. split; [reflexivity | discriminate].
Qed.

(** with the credentials there, the two issues about them are not raised *)
Lemma no_credential_issue :
  AgentConfig.user_email config <> "" -> AgentConfig.email_password config <> "" ->
  ~ In "User email is required" (validate_configuration config)
  /\ ~ In "Email password is required" (validate_configuration config).
Proof.
  intros He Hp. apply truthy_iff in He, Hp.
  unfold validate_configuration, issue_if. rewrite He, Hp.
  change (negb true) with false. cbv iota.
  split; intros H;
    repeat (apply in_app_or in H; destruct H as [H | H]);
    repeat match type of H with
           | context [if ?c then _ else _] => destruct c
           end;
    simpl in H; intuition discriminate.
Qed.

(** X20.  An agent is made only for a configuration with an e-mail address
    and a password: otherwise [__init__] raises, because the mailer refuses
    to be made.  So on an agent that exists, [validate_configuration] never
    reports a missing e-mail or password; and the agent has an LLM agent
    only if its provider is one of the three known and has a key. *)
Theorem agent_needs_credentials st has_agent st' :
  __init__ sur config st = (inr has_agent, st') ->
  AgentConfig.user_email config <> "" /\ AgentConfig.email_password config <> ""
  /\ self st' = idle
  /\ ~ In "User email is required" (validate_configuration config)
  /\ ~ In "Email password is required" (validate_configuration config)
  /\ (has_agent = true ->
      exists api_key, api_key_of config = Some api_key /\ api_key <> "").
Proof.
  unfold __init__. unfold Outer.bind at 1. rewrite outer_perform_run.
  destruct (outer sur (SetupLogging (AgentConfig.debug_mode config)) (stage_world st))
    as [[e | []] w1]; [discriminate |].
  cbv beta iota. unfold Outer.bind at 1, Outer.log at 1, Outer.emit at 1.
  cbv beta iota. unfold Outer.bind at 1.
  match goal with |- context [_initialize_llm_agent sur config ?st1] =>
    destruct (initialize_llm_agent_run st1) as (b & st2 & -> & Hkey)
  end.
  cbv beta iota. unfold Outer.bind at 1, _initialize_email_sender.
  destruct (PyStr.truthy (AgentConfig.user_email config)) eqn:He;
    [| simpl; discriminate].
  destruct (PyStr.truthy (AgentConfig.email_password config)) eqn:Hp;
    [| simpl; discriminate].
  simpl. unfold Outer.bind, Outer.set_self, Outer.ret. simpl.
  intros H. injection H as <- <-.
  apply truthy_iff in He, Hp.
  destruct (no_credential_issue He Hp) as [N1 N2].
  repeat split; assumption.
Qed.

End Making.

(** ** The two fallback fillers *)

Section Fallbacks.

Variable user_info : dict string.
Variable ticket_count : Z.




End Fallbacks.

(** ** The status after a run: [get_booking_status] *)

Section StatusFacts.

Context {W : Type}.
Variable sur : surroundings W.
Variable config : AgentConfig.t.
Variable agent : bool.

Lemma progress_percentage_cases total count :
  1 <= count -> 0 <= total <= count ->
  (total = count /\ progress_percentage total count = PInt 100)
  \/ (total < count
      /\ exists x, progress_percentage total count = PFloat x
                   /\ (0 <= x)%Q /\ (x < 100)%Q).
Proof.
  intros Hc Ht. unfold progress_percentage.
  set (x := (inject_Z total / inject_Z count * 100)%Q).
  assert (Hx : (Qred x == x)%Q) by apply Qred_correct.
  assert (Hge : (100 <= x)%Q <-> count <= total).
  { unfold x, Qle, Qdiv, Qmult, Qinv, inject_Z.
    destruct count as [| p | p]; try lia. simpl. rewrite ?Pos.mul_1_r. lia. }
  assert (H0 : (0 <= x)%Q).
  { unfold x, Qle, Qdiv, Qmult, Qinv, inject_Z.
    destruct count as [| p | p]; try lia. simpl. lia. }
  destruct (Qle_bool 100 (Qred x)) eqn:Eb.
  - left. apply Qle_bool_iff in Eb. rewrite Hx in Eb. apply Hge in Eb.
    split; [lia | reflexivity].
  - right. assert (Hlt : ~ (100 <= x)%Q).
    { intros H. rewrite <- Hx in H. apply Qle_bool_iff in H. congruence. }
    split; [rewrite Hge in Hlt; lia |].
    exists (Qred x). split; [reflexivity |]. rewrite Hx. split.
    + exact H0.
    + apply Qnot_le_lt. exact Hlt.
Qed.

Lemma get_booking_status_run st :
  AgentConfig.ticket_count config <> 0 ->
  exists status st',
    get_booking_status sur config st = (inr status, st')
    /\ Dict.get "is_running" status = Some (PBool (is_running (self st)))
    /\ Dict.get "total_attempts" status
       = Some (PInt (Z.of_nat (List.length (booking_results (self st)))))
    /\ Dict.get "total_tickets_booked" status
       = Some (PInt (total_tickets_booked (self st)))
    /\ Dict.get "progress_percentage" status
       = Some (progress_percentage (total_tickets_booked (self st))
                 (AgentConfig.ticket_count config)).
Proof.
  intros Hn. apply Z.eqb_neq in Hn.
  unfold get_booking_status. rewrite Hn.
  unfold Outer.bind at 1, Outer.get_self at 1. cbv beta iota.
  unfold Outer.bind at 1.
  assert (Hruntime :
    exists v st1,
      match start_time (self st) with
      | Some t0 =>
          Outer.bind (Outer.now sur) (fun t => Outer.ret (PFloat (Qred (t - t0))))
      | None => Outer.ret PNone
      end st = (inr v, st1) /\ self st1 = self st).
  { destruct (start_time (self st)).
    - unfold Outer.bind, Outer.now, Outer.ret.
      destruct (clock sur (stage_world st)). eexists _, _. split; reflexivity.
    - eexists _, _. split; reflexivity. }
  destruct Hruntime as (runtime & st1 & -> & S1). cbv beta iota.
  unfold Outer.bind at 1, Outer.ret at 1. cbv beta iota.
  unfold Outer.bind at 1.
  assert (Hlast :
    exists v st2,
      match booking_results (self st) with
      | [] => Outer.ret PNone
      | _ :: _ =>
          Outer.bind (Outer.now sur) (fun t => Outer.ret (PStr (isoformat sur t)))
      end st1 = (inr v, st2)).
  { destruct (booking_results (self st)).
    - eexists _, _. reflexivity.
    - unfold Outer.bind, Outer.now, Outer.ret.
      destruct (clock sur (stage_world st1)). eexists _, _. reflexivity. }
  destruct Hlast as (last & st2 & ->). cbv beta iota. unfold Outer.ret.
  eexists _, _. split; [reflexivity |]. repeat split; reflexivity.
Qed.

(** X22.  [get_booking_status] raises ZeroDivisionError for a configuration
    with no ticket to book.  After [start_booking] on a configuration without
    issues it returns the status: the agent is not running, total_attempts
    is the number of results, at most [AgentConfig.max_attempts], and
    progress_percentage is the integer 100 when every ticket asked for was
    booked and a float from 0 up to 100, 100 excluded, otherwise. *)
Theorem status_after_booking st :
  (AgentConfig.ticket_count config = 0 ->
   exists st', get_booking_status sur config st
               = (inl (Exn OtherException "division by zero"), st'))
  /\ (is_running (self st) = false ->
      valid_configuration config ->
      exists ok st1 status st2,
        start_booking sur config agent st = (inr ok, st1)
        /\ get_booking_status sur config st1 = (inr status, st2)
        /\ Dict.get "is_running" status = Some (PBool false)
        /\ (exists n, Dict.get "total_attempts" status = Some (PInt n)
                      /\ n <= Z.max 0 (AgentConfig.max_attempts config))
        /\ ((total_tickets_booked (self st1) = AgentConfig.ticket_count config
             /\ Dict.get "progress_percentage" status = Some (PInt 100))
            \/ (total_tickets_booked (self st1) < AgentConfig.ticket_count config
                /\ exists x,
                     Dict.get "progress_percentage" status = Some (PFloat x)
                     /\ (0 <= x)%Q /\ (x < 100)%Q))).
Proof.
  split.
  - intros Hz. unfold get_booking_status. rewrite Hz. simpl Z.eqb. cbv iota.
    unfold Outer.bind at 1, Outer.get_self at 1. cbv beta iota.
    unfold Outer.bind at 1.
    destruct (start_time (self st)).
    + unfold Outer.bind at 1, Outer.now, Outer.ret at 1.
      destruct (clock sur (stage_world st)). cbv beta iota.
      unfold Outer.bind, Outer.raise. eexists. reflexivity.
    + unfold Outer.ret at 1. unfold Outer.bind, Outer.raise. eexists. reflexivity.
  - intros Hidle Hvalid.
    destruct (start_booking_run sur config agent st Hidle)
      as (ok & st1 & evs & E & _ & Hcases).
    destruct Hcases as [[_ (t & rs & S & Hwf & Hle & Hlen)] | [Hno _]];
      [| contradiction].
    destruct (kept_results_add_up config rs Hvalid Hwf Hle) as [_ Hbounds].
    assert (Hcount : 1 <= AgentConfig.ticket_count config <= 50).
    { destruct Hvalid as (_ & _ & _ & _ & _ & _ & _ & Ht). exact Ht. }
    destruct (get_booking_status_run st1 ltac:(lia))
      as (status & st2 & Es & Gr & Ga & _ & Gp).
    rewrite S in Gr, Ga, Gp.
    cbn [is_running booking_results total_tickets_booked] in Gr, Ga, Gp.
    exists ok, st1, status, st2. split; [exact E |]. split; [exact Es |].
    split; [exact Gr |].
    split; [eexists; split; [exact Ga | exact Hlen] |].
    rewrite Gp, S. cbn [total_tickets_booked].
    destruct (progress_percentage_cases (sum_tickets rs)
                (AgentConfig.ticket_count config) ltac:(lia) Hbounds)
      as [[Heq ->] | [Hlt (x & -> & Hx0 & Hx1)]].
    + left. split; [exact Heq | reflexivity].
    + right. split; [exact Hlt |]. exists x. auto.
Qed.

End StatusFacts.

(** ** The agent's properties in the scripted office *)

Lemma jane_config_valid : valid_configuration Office.jane_config.
Proof.
  unfold valid_configuration. simpl.
  repeat split; try discriminate; try lia.
Defined.

Lemma start_booking_accounts_witness :
  exists ok st' evs,
    start_booking (Office.desk Site.shop None) Office.jane_config false Office.start
    = (inr ok, st')
    /\ happened st' = ([] ++ evs)%list
    /\ is_running (self st') = false
    /\ total_tickets_booked (self st')
       = tickets_of_successes (booking_results (self st'))
    /\ 0 <= total_tickets_booked (self st') <= 3.
Proof.
  destruct (start_booking_accounts (Office.desk Site.shop None) Office.jane_config
              false Office.start eq_refl)
    as (ok & st' & evs & E & H & R & Hv & _).
  exists ok, st', evs. split; [exact E |]. split; [exact H |]. split; [exact R |].
  destruct (Hv jane_config_valid) as (Ht & Hb & _). split; [exact Ht | exact Hb].
Defined.

Lemma abandoned_browser_witness :
  with_WebScraper (Office.desk Site.shop (Some Office.javascript_error)) true
    (booking_body (Office.desk Site.shop (Some Office.javascript_error))
       Office.jane_config false) Office.start
  = (inl Office.javascript_error,
     Stage false (abandoned_start true "Mozilla/5.0" Office.javascript_error) idle)
  /\ ~ In (HCall DriverQuit)
         (abandoned_start true "Mozilla/5.0" Office.javascript_error).
Proof.
  exact (abandoned_browser (Office.desk Site.shop (Some Office.javascript_error)) true
           (booking_body (Office.desk Site.shop (Some Office.javascript_error))
              Office.jane_config false)
           Office.start false "Mozilla/5.0" false false Office.javascript_error false
           eq_refl eq_refl eq_refl eq_refl).
Defined.

Lemma agent_needs_credentials_witness :
  AgentConfig.user_email Office.jane_config <> ""
  /\ AgentConfig.email_password Office.jane_config <> ""
  /\ ~ In "User email is required" (validate_configuration Office.jane_config)
  /\ ~ In "Email password is required" (validate_configuration Office.jane_config).
Proof.
  destruct (agent_needs_credentials (Office.desk Site.shop None) Office.jane_config
              Office.start false
              (snd (__init__ (Office.desk Site.shop None) Office.jane_config
                      Office.start))
              eq_refl)
    as (He & Hp & _ & N1 & N2 & _).
  repeat split; assumption.
Defined.


Lemma status_after_booking_witness :
  exists ok st1 status st2,
    start_booking (Office.desk Site.shop None) Office.jane_config false Office.start
    = (inr ok, st1)
    /\ get_booking_status (Office.desk Site.shop None) Office.jane_config st1
       = (inr status, st2)
    /\ Dict.get "is_running" status = Some (PBool false).
Proof.
  destruct (proj2 (status_after_booking (Office.desk Site.shop None)
                     Office.jane_config false Office.start)
              eq_refl jane_config_valid)
    as (ok & st1 & status & st2 & E & Es & Hr & _).
  exists ok, st1, status, st2. auto.
Defined.
